(** * Dubify: the search pipeline

    A shallow embedding of the search code of the Dubify front end:

    - the [/api/search] route ([src/unnamed/part_003], lines 1-206), with
      [performInMemorySearch], [generateSuggestions] and the [POST] handler;
    - the Qdrant service [@/lib/services/qdrant] ([src/unnamed/part_005]),
      with [searchLocations], [calculateDistance], [toRad] and
      [generateSearchSuggestions];
    - the Gemini service [lib/services/gemini.ts], with [generateEmbedding];
    - the record types of [lib/types/index.ts].

    Around the search code, the development also covers the code it shares
    its collaborators with:

    - the rest of the Gemini service: [generateChatResponse],
      [generateSafetyAssessment], [analyzeImage], [generateConversationId],
      [generateSuggestions] and [estimateTokens];
    - the [/api/chat] route ([src/unnamed/part_002]) and the [/api/safety]
      route ([src/unnamed/part_003], lines 207-423), each with its [POST]
      handler;
    - the rest of the Qdrant service: [initializeCollection], [addLocation],
      [bulkAddLocations] and [getLocationById];
    - the set-up script [scripts/init-qdrant.ts].

    Line numbers in the comments refer to these files.

    Numbers.  A JavaScript number is a binary64 float.  Ratings, scores,
    limits and counts are only compared, subtracted inside a sort comparator
    or obtained as one quotient of two array lengths; they are modelled by
    exact rationals ([Q]) and integers ([Z]), which is what every finite double
    is (NaN and the infinities, which JSON cannot carry, stay outside).
    Coordinates are different: they go through [Math.sin], [Math.cos] and
    [Math.atan2] and through IEEE rounding, so they are kept as binary64
    floats ([PrimFloat.float]).

    Strings.  A JavaScript string is modelled by [string], one character per
    code unit, which is what a string of ASCII text is: outside ASCII the
    model differs from the engine, whose [length] counts UTF-16 code units and
    whose [toLowerCase] folds every cased letter, where [toLowerCase] here
    folds the ASCII letters only. *)

From Stdlib Require Import List String Ascii Bool Arith ZArith QArith Lia.
From Stdlib Require Import Sorted Permutation Floats DecimalString.
From Stdlib Require Import Qround.
Import ListNotations.

Local Open Scope string_scope.

(* ================================================================== *)
(** * JavaScript strings *)
(* ================================================================== *)

Module JsString.

(** [c.toLowerCase()] on one ASCII character. *)
Definition lower_ascii (c : ascii) : ascii :=
  let n := nat_of_ascii c in
  if (65 <=? n)%nat && (n <=? 90)%nat then ascii_of_nat (n + 32) else c.

(** [s.toLowerCase()]. *)
Fixpoint toLowerCase (s : string) : string :=
  match s with
  | EmptyString => EmptyString
  | String c r => String (lower_ascii c) (toLowerCase r)
  end.

(** [s.includes(sub)]: [sub] occurs in [s] at some position. *)
Fixpoint includes (s sub : string) : bool :=
  String.prefix sub s
  || match s with
     | EmptyString => false
     | String _ r => includes r sub
     end.

(** [s.split(sep)] for a separator of one character.  The result is never
    empty: [''.split(' ')] is [['']]. *)
Fixpoint split (sep : ascii) (s : string) : list string :=
  match s with
  | EmptyString => [EmptyString]
  | String c r =>
      if Ascii.eqb c sep then EmptyString :: split sep r
      else match split sep r with
           | w :: ws => String c w :: ws
           | [] => [String c EmptyString]
           end
  end.

(** [l.join(sep)]. *)
Fixpoint join (sep : string) (l : list string) : string :=
  match l with
  | [] => EmptyString
  | [x] => x
  | x :: r => x ++ sep ++ join sep r
  end.

(** Truthiness of a string: only [''] is falsy. *)
Definition truthy (s : string) : bool :=
  match s with EmptyString => false | _ => true end.

(** [sub] occurs in [s]. *)
Definition Substring (sub s : string) : Prop :=
  exists pre post, s = pre ++ sub ++ post.

End JsString.

(* ================================================================== *)
(** * JavaScript numbers *)
(* ================================================================== *)

Module JsNumber.

(** Truthiness of an exact number: only [0] is falsy. *)
Definition truthyQ (q : Q) : bool := negb (Qeq_bool q 0).

(** Truthiness of an integer: only [0] is falsy. *)
Definition truthyZ (z : Z) : bool := negb (z =? 0)%Z.

(** Truthiness of a float: [+0], [-0] and [NaN] are falsy. *)
Definition truthyF (x : float) : bool :=
  negb (PrimFloat.is_zero x || PrimFloat.is_nan x).

(** [a < b] on exact numbers. *)
Definition Qltb (a b : Q) : bool := negb (Qle_bool b a).

(** [n.toString()] for an integer. *)
Definition Z_toString (z : Z) : string := NilZero.string_of_int (Z.to_int z).

(** [Math.PI], the double nearest to pi. *)
Definition Math_PI : float := 0x1.921fb54442d18p+1%float.

(** The parts of the [Math] object that ECMAScript leaves to the engine
    ("implementation-approximated") and [Math.round].  [Math.sqrt] is the
    IEEE square root and needs no parameter. *)
Class MathObject : Type := {
  Math_sin : float -> float;
  Math_cos : float -> float;
  Math_atan2 : float -> float -> float;
  Math_round : float -> float
}.

Definition Math_sqrt (x : float) : float := PrimFloat.sqrt x.

(** Signs of floats, read off the IEEE representation ([Prim2SF]). *)

(** A zero of either sign. *)
Definition SFis_zero (x : spec_float) : bool :=
  match x with S754_zero _ => true | _ => false end.

(** NaN, [+0], a positive number or [+Infinity]: everything but [-0] and the
    negative values. *)
Definition SFsignclear (x : spec_float) : bool :=
  match x with
  | S754_zero true | S754_infinity true | S754_finite true _ _ => false
  | _ => true
  end.

(** Everything but the negative values: [-0] is allowed. *)
Definition SFnotneg (x : spec_float) : bool :=
  match x with
  | S754_infinity true | S754_finite true _ _ => false
  | _ => true
  end.

(** [x] is NaN or has its sign bit clear. *)
Definition SignClear (x : float) : Prop := SFsignclear (Prim2SF x) = true.

(** [x < 0] is false: [x] is NaN, a zero, or positive. *)
Definition NotNegative (x : float) : Prop := (x <? 0)%float = false.

End JsNumber.

(* ================================================================== *)
(** * Types ([lib/types/index.ts]) *)
(* ================================================================== *)

(** [interface OpeningHours]: only [monday] is read by the search code. *)
Record OpeningHours : Type := {
  monday : option string
}.

(** [interface Location].  The fields the search code never reads
    ([images], [phone], [website], [safetyScore], [accessibility], [amenities],
    [popularTimes]) are left out. *)
Record Location : Type := {
  loc_id : string;
  loc_name : string;
  loc_category : string;
  loc_description : string;
  loc_tags : list string;
  loc_latitude : float;
  loc_longitude : float;
  loc_rating : Q;
  loc_reviewCount : Z;
  loc_priceRange : string;
  loc_imageUrl : option string;
  loc_address : option string;
  loc_openingHours : option OpeningHours;
  loc_verified : bool;
  loc_halalCertified : option bool;
  loc_familyFriendly : option bool
}.

(** [interface SearchFilters]; an absent field is [None]. *)
Record SearchFilters : Type := {
  category : option string;
  priceRange : option string;
  rating : option Q;
  halalCertified : option bool;
  familyFriendly : option bool
}.

(** [userLocation?: { lat, lng }]. *)
Record UserLocation : Type := {
  lat : float;
  lng : float
}.

(** [interface SearchRequest]. *)
Record SearchRequest : Type := {
  query : string;
  filters : option SearchFilters;
  limit : option Z;
  userLocation : option UserLocation
}.

(** [interface SearchResult].  [latitude], [longitude] and [rating] are
    copied from a Qdrant payload of type [any] in [searchLocations], so the
    coordinates can be [undefined] in a result; [distance: undefined] is
    [None]. *)
Record SearchResult : Type := {
  id : string;
  name : string;
  description : string;
  res_category : string;
  tags : list string;
  res_rating : Q;
  reviewCount : Z;
  res_priceRange : string;
  similarityScore : Q;
  distance : option float;
  imageUrl : option string;
  latitude : option float;
  longitude : option float;
  verified : bool;
  res_halalCertified : option bool;
  res_familyFriendly : option bool;
  openingHours : option string;
  address : option string
}.

(** [interface SearchResponse]. *)
Record SearchResponse : Type := {
  results : list SearchResult;
  total : nat;
  queryTimeMs : Z;
  suggestions : list string
}.

(* ================================================================== *)
(** * Arrays *)
(* ================================================================== *)

Module JsArray.

Section Sort.
Context {A : Type} (compareFn : A -> A -> Q).

(** [x] is placed before the first element it does not have to follow:
    [compareFn x y <= 0] keeps [x] in front of [y]. *)
Fixpoint insert (x : A) (l : list A) : list A :=
  match l with
  | [] => [x]
  | y :: r => if Qle_bool (compareFn x y) 0 then x :: y :: r
              else y :: insert x r
  end.

(** [l.sort(compareFn)].  ECMAScript requires the sort to be stable, so for
    a consistent comparator the result is the one of the stable insertion
    sort. *)
Fixpoint sort (l : list A) : list A :=
  match l with
  | [] => []
  | x :: r => insert x (sort r)
  end.
End Sort.

(** [l.slice(0, n)]. *)
Definition slice0 {A : Type} (n : nat) (l : list A) : list A := firstn n l.

(** Descending in [key]: every element is at least as large as all that
    follow. *)
Definition Descending {A : Type} (key : A -> Q) (l : list A) : Prop :=
  StronglySorted (fun a b => key b <= key a) l.

End JsArray.

(* ================================================================== *)
(** * The world outside the search code *)
(* ================================================================== *)

(** What a [throw] carries: an [Error] object with its message, or any other
    value ([error instanceof Error] tells them apart in [POST]). *)
Inductive Thrown : Type :=
| ErrorObj (message : string)
| NonError.

(** [number[]], the embedding of a text. *)
Definition Embedding : Type := list float.

(** ** Qdrant: filters, payloads and hits *)

Inductive FieldValue : Type :=
| VString (s : string)
| VBool (b : bool).

(** One entry of [filter.must]: [{ key, match: { value } }] or
    [{ key, range: { gte } }]. *)
Inductive Condition : Type :=
| Match (key : string) (value : FieldValue)
| Range (key : string) (gte : Q).

(** The attribute a condition constrains. *)
Definition cond_key (c : Condition) : string :=
  match c with
  | Match key _ => key
  | Range key _ => key
  end.

(** [{ must: [...] }]. *)
Record Filter : Type := {
  must : list Condition
}.

(** A point identifier: [bulkAddLocations] stores integers, [addLocation]
    strings. *)
Inductive PointId : Type :=
| NumId (n : Z)
| StrId (s : string).

(** [hit.payload as any]: the stored location.  What [searchLocations] guards
    with [||] or [&&] can be missing. *)
Record Payload : Type := {
  p_name : string;
  p_description : string;
  p_category : string;
  p_tags : option (list string);
  p_rating : Q;
  p_reviewCount : option Z;
  p_priceRange : string;
  p_imageUrl : option string;
  p_latitude : option float;
  p_longitude : option float;
  p_verified : option bool;
  p_halalCertified : option bool;
  p_familyFriendly : option bool;
  p_openingHours : option string;
  p_address : option string
}.

(** One element of the array [qdrant.search] resolves to. *)
Record ScoredPoint : Type := {
  hit_id : PointId;
  score : Q;
  payload : Payload
}.

(** [searchRateLimiter.check(userId)]. *)
Record RateLimit : Type := {
  allowed : bool;
  resetTime : Z
}.

(** The collaborators of the search code: the location catalogue
    ([getAllLocations] of [@/lib/data/locations]), the Gemini SDK, the Qdrant
    client, the clock, Clerk's [auth] and the rate limiter
    ([@/lib/utils/rate-limit]).  A call either resolves ([inr]) or throws
    ([inl]). *)
Record Host : Type := {
  getAllLocations : list Location;
  embedContent : string -> Thrown + Embedding;
  qdrant_search : Embedding -> Z -> option Filter -> Thrown + list ScoredPoint;
  Date_now : nat -> Z;
  auth : Thrown + option string;
  searchRateLimiter_check : string -> RateLimit;
  toLocaleTimeString : Z -> string
}.

(** ** Effects: a trace of the calls made, and exceptions *)

Inductive Event : Type :=
| EvNow
| EvGetAllLocations
| EvEmbedContent (text : string)
| EvQdrantSearch (vector : Embedding) (limit : Z) (filter : option Filter)
| EvConsoleError (label : string)
| EvAuth
| EvRateLimitCheck (userId : string)
| EvRequestJson.

Definition Trace : Type := list Event.

Module Eff.

(** A computation runs from the trace so far to a result, thrown or
    returned, and the extended trace. *)
Definition M (A : Type) : Type := Trace -> (Thrown + A) * Trace.

Definition ret {A : Type} (a : A) : M A := fun t => (inr a, t).

Definition bind {A B : Type} (c : M A) (k : A -> M B) : M B :=
  fun t => match c t with
           | (inl e, t') => (inl e, t')
           | (inr a, t') => k a t'
           end.

Definition throw {A : Type} (e : Thrown) : M A := fun t => (inl e, t).

(** [try { c } catch (error) { handler error }]. *)
Definition try_catch {A : Type} (c : M A) (handler : Thrown -> M A) : M A :=
  fun t => match c t with
           | (inl e, t') => handler e t'
           | (inr a, t') => (inr a, t')
           end.

(** An external call: it is recorded, and it resolves or throws. *)
Definition call {A : Type} (ev : Event) (r : Thrown + A) : M A :=
  fun t => (r, (t ++ [ev])%list).

(** [console.error(label, error)]. *)
Definition console_error (label : string) : M unit :=
  call (EvConsoleError label) (inr tt).

Definition is_now (ev : Event) : bool :=
  match ev with EvNow => true | _ => false end.

(** [Date.now()]: the host's clock, read for the n-th time. *)
Definition now (h : Host) : M Z :=
  fun t => (inr (Date_now h (List.length (List.filter is_now t))), (t ++ [EvNow])%list).

End Eff.

Declare Scope eff_scope.
Delimit Scope eff_scope with eff.
Notation "x <- c ;; k" := (Eff.bind c (fun x => k))
  (at level 100, c at next level, right associativity) : eff_scope.
Notation "c ;;; k" := (Eff.bind c (fun _ => k))
  (at level 100, right associativity) : eff_scope.

Local Open Scope eff_scope.

(* ================================================================== *)
(** * The search route ([src/unnamed/part_003]) *)
(* ================================================================== *)

Module Route.
Import JsString JsNumber JsArray Eff.

(** [filters?.category] and the like: optional chaining on [filters]. *)
Definition filters_category (filters : option SearchFilters) : option string :=
  match filters with Some f => category f | None => None end.

Definition filters_halalCertified (filters : option SearchFilters) : option bool :=
  match filters with Some f => halalCertified f | None => None end.

Definition filters_familyFriendly (filters : option SearchFilters) : option bool :=
  match filters with Some f => familyFriendly f | None => None end.

Definition filters_rating (filters : option SearchFilters) : option Q :=
  match filters with Some f => rating f | None => None end.

(** [a === b] on [boolean | undefined]. *)
Definition strict_eq (a b : option bool) : bool :=
  match a, b with
  | Some x, Some y => Bool.eqb x y
  | None, None => true
  | _, _ => false
  end.

(** The text a location is matched against (line 18). *)
Definition searchText (location : Location) : string :=
  toLowerCase
    (loc_name location ++ " " ++ loc_description location ++ " "
     ++ join " " (loc_tags location) ++ " " ++ loc_category location).

(** The [forEach] loop of lines 22-25. *)
Definition matchCount (text : string) (queryWords : list string) : nat :=
  fold_left (fun count word => if includes text word then S count else count)
            queryWords 0%nat.

(** [lowercaseQuery.split(' ')] (line 21). *)
Definition queryWords (lowercaseQuery : string) : list string :=
  split " "%char lowercaseQuery.

(** [matchCount / queryWords.length] (line 27). *)
Definition score_of (lowercaseQuery : string) (location : Location) : Q :=
  let words := queryWords lowercaseQuery in
  inject_Z (Z.of_nat (matchCount (searchText location) words))
  / inject_Z (Z.of_nat (List.length words)).

(** [location.openingHours?.monday || undefined] (line 45). *)
Definition monday_of (location : Location) : option string :=
  match loc_openingHours location with
  | Some oh => match monday oh with
               | Some s => if truthy s then Some s else None
               | None => None
               end
  | None => None
  end.

(** The callback of [.map] (lines 17-48). *)
Definition toResult (lowercaseQuery : string) (location : Location) : SearchResult :=
  {| id := loc_id location;
     name := loc_name location;
     description := loc_description location;
     res_category := loc_category location;
     tags := loc_tags location;
     res_rating := loc_rating location;
     reviewCount := loc_reviewCount location;
     res_priceRange := loc_priceRange location;
     similarityScore := score_of lowercaseQuery location;
     distance := None;
     imageUrl := loc_imageUrl location;
     latitude := Some (loc_latitude location);
     longitude := Some (loc_longitude location);
     verified := loc_verified location;
     res_halalCertified := loc_halalCertified location;
     res_familyFriendly := loc_familyFriendly location;
     openingHours := monday_of location;
     address := loc_address location |}.

(** The conditions of the four [if]s of lines 54-59. *)
Definition category_differs (filters : option SearchFilters) (result : SearchResult) : bool :=
  match filters_category filters with
  | Some c => truthy c && negb (String.eqb (res_category result) c)
  | None => false
  end.

Definition halalCertified_differs (filters : option SearchFilters) (result : SearchResult) : bool :=
  match filters_halalCertified filters with
  | Some b => negb (strict_eq (res_halalCertified result) (Some b))
  | None => false
  end.

Definition familyFriendly_differs (filters : option SearchFilters) (result : SearchResult) : bool :=
  match filters_familyFriendly filters with
  | Some b => negb (strict_eq (res_familyFriendly result) (Some b))
  | None => false
  end.

Definition rating_below (filters : option SearchFilters) (result : SearchResult) : bool :=
  match filters_rating filters with
  | Some r => truthyQ r && Qltb (res_rating result) r
  | None => false
  end.

(** The callback of [.filter] (lines 49-62). *)
Definition keep (filters : option SearchFilters) (result : SearchResult) : bool :=
  if Qeq_bool (similarityScore result) 0 then false
  else if category_differs filters result then false
  else if halalCertified_differs filters result then false
  else if familyFriendly_differs filters result then false
  else if rating_below filters result then false
  else true.

(** The comparator of [.sort] (line 63): [b.similarityScore - a.similarityScore]. *)
Definition byScoreDesc (a b : SearchResult) : Q :=
  similarityScore b - similarityScore a.

(** Lines 16-64: map, filter, sort, slice. *)
Definition rank (locations : list Location) (query : string)
    (filters : option SearchFilters) : list SearchResult :=
  let lowercaseQuery := toLowerCase query in
  slice0 10
    (sort byScoreDesc
       (List.filter (keep filters) (List.map (toResult lowercaseQuery) locations))).

(** [generateSuggestions] (lines 76-93). *)
Definition generateSuggestions (query : string) : list string :=
  let lowercaseQuery := toLowerCase query in
  if includes lowercaseQuery "romantic" then
    ["romantic dinner spots"; "sunset viewing points"; "couples activities"]
  else if includes lowercaseQuery "family" then
    ["family restaurants"; "kid-friendly attractions"; "water parks"]
  else if includes lowercaseQuery "luxury" then
    ["luxury hotels"; "fine dining"; "high-end shopping"]
  else if includes lowercaseQuery "traditional" then
    ["traditional souks"; "cultural museums"; "heritage sites"]
  else
    ["top attractions"; "best restaurants"; "hidden gems"].

(** [performInMemorySearch] (lines 10-74). *)
Definition performInMemorySearch (h : Host) (query : string)
    (filters : option SearchFilters) : M SearchResponse :=
  startTime <- now h ;;
  locations <- call EvGetAllLocations (inr (getAllLocations h)) ;;
  let results := rank locations query filters in
  endTime <- now h ;;
  ret {| results := results;
         total := List.length results;
         queryTimeMs := endTime - startTime;
         suggestions := generateSuggestions query |}.

End Route.

(* ================================================================== *)
(** * The Gemini service ([lib/services/gemini.ts]) *)
(* ================================================================== *)

Module Gemini.
Import Eff.

(** [generateEmbedding] (lines 103-117): the SDK's [embedContent] is called
    once; whatever it throws is logged and replaced by a fresh [Error].  Of
    the returned object only [embedding] is read by the search code. *)
Definition generateEmbedding (h : Host) (text : string) : M Embedding :=
  try_catch
    (call (EvEmbedContent text) (embedContent h text))
    (fun _ =>
       console_error "Gemini embedding error:" ;;;
       throw (ErrorObj "Failed to generate embedding")).

End Gemini.

(* ================================================================== *)
(** * The Qdrant service ([src/unnamed/part_005]) *)
(* ================================================================== *)

Module Qdrant.
Import JsString JsNumber Eff.

Section Haversine.
Context {Math : MathObject}.
Local Open Scope float_scope.

(** [toRad] (lines 284-286). *)
Definition toRad (degrees : float) : float :=
  (degrees * Math_PI) / 180.

(** [calculateDistance] (lines 261-282). *)
Definition calculateDistance (lat1 lon1 lat2 lon2 : float) : float :=
  let R := 6371 in
  let dLat := toRad (lat2 - lat1) in
  let dLon := toRad (lon2 - lon1) in
  let a :=
    Math_sin (dLat / 2) * Math_sin (dLat / 2) +
    Math_cos (toRad lat1) *
      Math_cos (toRad lat2) *
      Math_sin (dLon / 2) *
      Math_sin (dLon / 2) in
  let c := 2 * Math_atan2 (Math_sqrt a) (Math_sqrt (1 - a)) in
  let distance := R * c in
  Math_round (distance * 10) / 10.

End Haversine.

(** [generateSearchSuggestions] (lines 288-328). *)
Definition generateSearchSuggestions (query : string) : list string :=
  let lowercaseQuery := toLowerCase query in
  if includes lowercaseQuery "romantic" || includes lowercaseQuery "sunset" then
    ["romantic dinner with view"; "sunset beach spots"; "couples activities Dubai"]
  else if includes lowercaseQuery "family" || includes lowercaseQuery "kids" then
    ["family-friendly attractions"; "water parks Dubai"; "kid-friendly restaurants"]
  else if includes lowercaseQuery "luxury" || includes lowercaseQuery "expensive" then
    ["luxury shopping malls"; "fine dining Dubai"; "5-star experiences"]
  else if includes lowercaseQuery "cheap" || includes lowercaseQuery "budget" then
    ["budget-friendly activities"; "affordable restaurants"; "free attractions Dubai"]
  else
    ["traditional souks"; "modern attractions"; "beach activities"].

(** The filter builder (lines 142-171): the conditions pushed on
    [filter.must], in the order of the four [if]s. *)
Definition buildFilter (filters : option SearchFilters) : Filter :=
  {| must :=
       (match Route.filters_category filters with
        | Some c => if truthy c then [Match "category" (VString c)] else []
        | None => []
        end ++
        match Route.filters_halalCertified filters with
        | Some b => [Match "halalCertified" (VBool b)]
        | None => []
        end ++
        match Route.filters_familyFriendly filters with
        | Some b => [Match "familyFriendly" (VBool b)]
        | None => []
        end ++
        match Route.filters_rating filters with
        | Some r => if truthyQ r then [Range "rating" r] else []
        | None => []
        end)%list |}.

(** [filter.must.length > 0 ? filter : undefined] (line 177). *)
Definition filterParam (filter : Filter) : option Filter :=
  match must filter with
  | [] => None
  | _ => Some filter
  end.

(** [request.limit || 10] (line 176). *)
Definition limitParam (request : SearchRequest) : Z :=
  match limit request with
  | Some l => if truthyZ l then l else 10%Z
  | None => 10%Z
  end.

(** [hit.id.toString()]. *)
Definition id_toString (i : PointId) : string :=
  match i with
  | NumId n => Z_toString n
  | StrId s => s
  end.

Section Search.
Context {Math : MathObject}.

(** Lines 186-194: [distance] stays [undefined] unless the guard passes. *)
Definition distance_of (request : SearchRequest) (p : Payload) : option float :=
  match userLocation request, p_latitude p, p_longitude p with
  | Some u, Some la, Some lo =>
      if truthyF la && truthyF lo
      then Some (calculateDistance (lat u) (lng u) la lo)
      else None
  | _, _, _ => None
  end.

(** The callback of [searchResults.map] (lines 182-216). *)
Definition mapHit (request : SearchRequest) (hit : ScoredPoint) : SearchResult :=
  let p := payload hit in
  {| id := id_toString (hit_id hit);
     name := p_name p;
     description := p_description p;
     res_category := p_category p;
     tags := match p_tags p with Some l => l | None => [] end;
     res_rating := p_rating p;
     reviewCount := match p_reviewCount p with
                    | Some n => if truthyZ n then n else 0%Z
                    | None => 0%Z
                    end;
     res_priceRange := p_priceRange p;
     similarityScore := score hit;
     distance := distance_of request p;
     imageUrl := p_imageUrl p;
     latitude := p_latitude p;
     longitude := p_longitude p;
     verified := match p_verified p with Some b => b | None => false end;
     res_halalCertified := p_halalCertified p;
     res_familyFriendly := p_familyFriendly p;
     openingHours := p_openingHours p;
     address := p_address p |}.

(** [searchLocations] (lines 131-230).  [getClient()] only builds the
    client object and is not modelled. *)
Definition searchLocations (h : Host) (request : SearchRequest) : M SearchResponse :=
  startTime <- now h ;;
  try_catch
    (embedding <- Gemini.generateEmbedding h (query request) ;;
     let filter := buildFilter (filters request) in
     searchResults <-
       call (EvQdrantSearch embedding (limitParam request) (filterParam filter))
            (qdrant_search h embedding (limitParam request) (filterParam filter)) ;;
     let results := List.map (mapHit request) searchResults in
     endTime <- now h ;;
     ret {| results := results;
            total := List.length results;
            queryTimeMs := endTime - startTime;
            suggestions := generateSearchSuggestions (query request) |})
    (fun error =>
       console_error "Search failed:" ;;;
       throw error).

End Search.

End Qdrant.

(* ================================================================== *)
(** * The HTTP handler ([src/unnamed/part_003], [POST]) *)
(* ================================================================== *)

Module Handler.
Import JsString JsNumber Eff.

(** A JSON value as far as [!v] and [typeof v] can tell. *)
Inductive JsValue : Type :=
| JUndefined
| JNull
| JBool (b : bool)
| JNumber (q : Q)
| JString (s : string)
| JObject
| JArray.

(** [!!v]. *)
Definition truthy_value (v : JsValue) : bool :=
  match v with
  | JUndefined | JNull => false
  | JBool b => b
  | JNumber q => truthyQ q
  | JString s => truthy s
  | JObject | JArray => true
  end.

(** [typeof v === 'string']. *)
Definition is_string (v : JsValue) : bool :=
  match v with JString _ => true | _ => false end.

(** What [request.json()] resolves to ([const body: SearchRequest]).
    Reading [body.query] on [null] throws a [TypeError]; on any other value
    that is not an object it gives [undefined], like an object without the
    field. *)
Inductive JsonBody : Type :=
| BodyNull
| BodyObject (body_query : JsValue) (body_filters : option SearchFilters)
             (body_limit : option Z) (body_userLocation : option UserLocation).

(** The string a validated [body.query] is. *)
Definition string_of (v : JsValue) : string :=
  match v with JString s => s | _ => EmptyString end.

(** [NextRequest], as far as the handler reads it. *)
Record NextRequest : Type := {
  json : Thrown + JsonBody
}.

(** The JSON body of a response: the error envelope or the data.  The
    [timestamp] field is left out. *)
Inductive ApiResponse : Type :=
| Failure (code message : string)
| Success (data : SearchResponse).

(** [NextResponse.json(body, { status, headers })]. *)
Record NextResponse : Type := {
  body : ApiResponse;
  status : nat;
  headers : list (string * string)
}.

(** The message of the [TypeError] thrown by [body.query] on [null] (the
    text is the engine's). *)
Definition null_read_message : string :=
  "Cannot read properties of null (reading 'query')".

(** The five responses of the handler. *)
Definition unauthorized : NextResponse :=
  {| body := Failure "UNAUTHORIZED"
               "You must be signed in to use the search feature";
     status := 401; headers := [] |}.

Definition rate_limit_exceeded (h : Host) (rateLimit : RateLimit) : NextResponse :=
  {| body := Failure "RATE_LIMIT_EXCEEDED"
               ("Rate limit exceeded. You can make 30 searches per hour. Try again at "
                ++ toLocaleTimeString h (resetTime rateLimit) ++ ".");
     status := 429;
     headers := [("X-RateLimit-Limit", "30");
                 ("X-RateLimit-Remaining", "0");
                 ("X-RateLimit-Reset", Z_toString (resetTime rateLimit))] |}.

Definition invalid_request : NextResponse :=
  {| body := Failure "INVALID_REQUEST" "Query is required and must be a string";
     status := 400; headers := [] |}.

Definition ok (searchResponse : SearchResponse) : NextResponse :=
  {| body := Success searchResponse; status := 200; headers := [] |}.

Definition internal_error (error : Thrown) : NextResponse :=
  {| body := Failure "INTERNAL_ERROR"
               match error with
               | ErrorObj message => message
               | NonError => "Failed to process search request"
               end;
     status := 500; headers := [] |}.

(** [!userId]: [null] and [''] are falsy. *)
Definition signed_in (userId : option string) : bool :=
  match userId with
  | Some uid => truthy uid
  | None => false
  end.

(** The user id of a signed-in user. *)
Definition uid_of (userId : option string) : string :=
  match userId with Some uid => uid | None => EmptyString end.

(** The handler, with the search step as a parameter: lines 96-181 around
    line 156. *)
Definition handle (h : Host)
    (search : string -> JsonBody -> M SearchResponse)
    (request : NextRequest) : M NextResponse :=
  try_catch
    (userId <- call EvAuth (auth h) ;;
     if negb (signed_in userId) then ret unauthorized
     else
       let rateLimit := searchRateLimiter_check h (uid_of userId) in
       call (EvRateLimitCheck (uid_of userId)) (inr tt) ;;;
       if negb (allowed rateLimit) then ret (rate_limit_exceeded h rateLimit)
       else
         body <- call EvRequestJson (json request) ;;
         match body with
         | BodyNull => throw (ErrorObj null_read_message)
         | BodyObject q _ _ _ =>
             if negb (truthy_value q) || negb (is_string q) then
               ret invalid_request
             else
               searchResponse <- search (string_of q) body ;;
               ret (ok searchResponse)
         end)
    (fun error =>
       console_error "Search API error:" ;;;
       ret (internal_error error)).

(** [body.filters], [body.limit], [body.userLocation]. *)
Definition body_filters_of (b : JsonBody) : option SearchFilters :=
  match b with
  | BodyObject _ f _ _ => f
  | BodyNull => None
  end.

Definition body_limit_of (b : JsonBody) : option Z :=
  match b with
  | BodyObject _ _ l _ => l
  | BodyNull => None
  end.

Definition body_userLocation_of (b : JsonBody) : option UserLocation :=
  match b with
  | BodyObject _ _ _ u => u
  | BodyNull => None
  end.

(** [POST] as shipped (line 156):
    [performInMemorySearch(body.query, body.filters)]. *)
Definition POST (h : Host) (request : NextRequest) : M NextResponse :=
  handle h
    (fun text b => Route.performInMemorySearch h text (body_filters_of b))
    request.

(** [POST] with line 154 in place of line 156, as the comment of lines
    151-154 describes for production: [qdrantService.searchLocations(body)]. *)
Definition POST_production {Math : MathObject} (h : Host)
    (request : NextRequest) : M NextResponse :=
  handle h
    (fun text b =>
       Qdrant.searchLocations h
         {| query := text;
            filters := body_filters_of b;
            limit := body_limit_of b;
            userLocation := body_userLocation_of b |})
    request.

End Handler.

(* ================================================================== *)
(** * The contract of the vector index *)
(* ================================================================== *)

(** [qdrant.search] runs outside this repository.  What the search code
    relies on is stated here as properties of a host: the answers obey the
    filter and the limit they were asked with, come ranked, and carry scores
    in the unit interval (spec, sections 4.1, 4.2 and 6). *)
Module Index.
Import JsNumber.

Inductive StoredValue : Type :=
| SString (s : string)
| SBool (b : bool)
| SNumber (q : Q).

(** The payload attribute a filter key names; the search code filters on
    these four keys only. *)
Definition payload_get (p : Payload) (key : string) : option StoredValue :=
  if String.eqb key "category" then Some (SString (p_category p))
  else if String.eqb key "halalCertified" then option_map SBool (p_halalCertified p)
  else if String.eqb key "familyFriendly" then option_map SBool (p_familyFriendly p)
  else if String.eqb key "rating" then Some (SNumber (p_rating p))
  else None.

(** A [match] condition holds when the attribute is stored and equal; a
    [range] condition with [gte] when it is stored and not smaller. *)
Definition cond_holds (p : Payload) (c : Condition) : bool :=
  match c with
  | Match key (VString s) =>
      match payload_get p key with
      | Some (SString s') => String.eqb s' s
      | _ => false
      end
  | Match key (VBool b) =>
      match payload_get p key with
      | Some (SBool b') => Bool.eqb b' b
      | _ => false
      end
  | Range key gte =>
      match payload_get p key with
      | Some (SNumber q) => Qle_bool gte q
      | _ => false
      end
  end.

(** A hit passes a filter: every [must] condition holds ([undefined] is no
    filter). *)
Definition passes (f : option Filter) (hit : ScoredPoint) : bool :=
  match f with
  | Some flt => forallb (cond_holds (payload hit)) (must flt)
  | None => true
  end.

Definition HonoursFilter (h : Host) : Prop :=
  forall v l f hits,
    qdrant_search h v l f = inr hits ->
    Forall (fun hit => passes f hit = true) hits.

Definition HonoursLimit (h : Host) : Prop :=
  forall v l f hits,
    qdrant_search h v l f = inr hits ->
    (0 <= l)%Z -> (Z.of_nat (List.length hits) <= l)%Z.

(** Hits come best first. *)
Definition Ranked (hits : list ScoredPoint) : Prop :=
  StronglySorted (fun a b => score b <= score a) hits.

Definition Ranks (h : Host) : Prop :=
  forall v l f hits, qdrant_search h v l f = inr hits -> Ranked hits.

Definition ScoresInUnit (h : Host) : Prop :=
  forall v l f hits,
    qdrant_search h v l f = inr hits ->
    Forall (fun hit => 0 <= score hit /\ score hit <= 1) hits.

End Index.

(* ================================================================== *)
(** * A small world to run the code in *)
(* ================================================================== *)

Module Sample.
Import JsNumber.

(** A stand-in for the engine's [Math]: first-order approximations
    ([sin x] by [x], [cos x] by [1 - x*x/2], [atan2 y x] by [y / x]) and
    rounding through [2^52].  It only serves to run the examples below: the
    theorems about the pipeline hold for every [MathObject]. *)
Definition firstOrderMath : MathObject :=
  {| Math_sin := fun x => x;
     Math_cos := fun x => (1 - x * x / 2)%float;
     Math_atan2 := fun y x => (y / x)%float;
     Math_round := fun x => (x + 0x1p+52 - 0x1p+52)%float |}.

(** The same stand-in without the final rounding. *)
Definition unroundedMath : MathObject :=
  {| Math_sin := fun x => x;
     Math_cos := fun x => (1 - x * x / 2)%float;
     Math_atan2 := fun y x => (y / x)%float;
     Math_round := fun x => x |}.

(** An engine that returns, at the four arguments [calculateDistance] reaches
    for the points (8, 0) and (-8, 180), the doubles nearest to the exact sine
    and cosine, and that lets NaN through [atan2] and [round]. *)
Definition tableMath : MathObject :=
  {| Math_sin := fun x =>
       (if x =? -0x1.1df46a2529d39p-3 then -0x1.1d06c968d9e19p-3
        else if x =? 0x1.921fb54442d18p+0 then 1
        else x)%float;
     Math_cos := fun x =>
       (if abs x =? 0x1.1df46a2529d39p-3 then 0x1.fb046a930947ap-1
        else 1 - x * x / 2)%float;
     Math_atan2 := fun y x => (y / x)%float;
     Math_round := fun x => x |}.

Definition mkLocation (i n c d : string) (t : list string) (la lo : float)
    (r : Q) (halal family : option bool) : Location :=
  {| loc_id := i; loc_name := n; loc_category := c; loc_description := d;
     loc_tags := t; loc_latitude := la; loc_longitude := lo; loc_rating := r;
     loc_reviewCount := 100; loc_priceRange := "$$"; loc_imageUrl := None;
     loc_address := None; loc_openingHours := None; loc_verified := true;
     loc_halalCertified := halal; loc_familyFriendly := family |}.

Definition jumeirah : Location :=
  mkLocation "loc-1" "Jumeirah Beach" "beach" "Public beach in Dubai with a skyline view"
    ["sunset"; "beach"; "romantic"] 25.25 55.25 (46 # 10) None (Some true).

Definition ustad : Location :=
  mkLocation "loc-2" "Al Ustad Kebab" "restaurant" "Persian grill in old Dubai"
    ["kebab"; "family"] 25.25 55.5 (45 # 10) (Some true) (Some true).

Definition lounge : Location :=
  mkLocation "loc-3" "Skyline Lounge" "entertainment" "Rooftop bar in Dubai Marina"
    ["nightlife"; "luxury"] 25 55.125 (42 # 10) (Some false) (Some false).

Definition kiosk : Location :=
  mkLocation "loc-4" "Creek Kiosk" "market" "Unrated stall in Dubai Creek"
    ["snacks"] 25.25 55.25 (-1) None None.

Definition catalogue : list Location := [jumeirah; ustad; lounge; kiosk].

(** The payload [bulkAddLocations] stores for a location. *)
Definition payload_of (l : Location) : Payload :=
  {| p_name := loc_name l; p_description := loc_description l;
     p_category := loc_category l; p_tags := Some (loc_tags l);
     p_rating := loc_rating l; p_reviewCount := Some (loc_reviewCount l);
     p_priceRange := loc_priceRange l; p_imageUrl := loc_imageUrl l;
     p_latitude := Some (loc_latitude l); p_longitude := Some (loc_longitude l);
     p_verified := Some (loc_verified l);
     p_halalCertified := loc_halalCertified l;
     p_familyFriendly := loc_familyFriendly l;
     p_openingHours := None; p_address := loc_address l |}.

(** A place on the equator: a valid coordinate pair with latitude [0]. *)
Definition equator : Location :=
  mkLocation "loc-5" "Equator Marker" "attraction" "Monument on the equator"
    ["landmark"] 0 32.5 (40 # 10) None None.

Definition stored : list ScoredPoint :=
  [ {| hit_id := NumId 1; score := 9 # 10; payload := payload_of jumeirah |};
    {| hit_id := NumId 2; score := 7 # 10; payload := payload_of ustad |};
    {| hit_id := NumId 3; score := 7 # 10; payload := payload_of lounge |};
    {| hit_id := NumId 4; score := 2 # 10; payload := payload_of kiosk |};
    {| hit_id := NumId 5; score := 1 # 10; payload := payload_of equator |} ].

(** An index over [stored]: the points that pass the filter, best first, cut
    at the limit.  The query vector is ignored. *)
Definition index (v : Embedding) (l : Z) (f : option Filter)
  : Thrown + list ScoredPoint :=
  inr (firstn (Z.to_nat l) (List.filter (Index.passes f) stored)).

Definition host : Host :=
  {| getAllLocations := catalogue;
     embedContent := fun _ => inr [0.5%float; 0.25%float];
     qdrant_search := index;
     Date_now := fun n => (1000 + 7 * Z.of_nat n)%Z;
     auth := inr (Some "user_1");
     searchRateLimiter_check := fun _ => {| allowed := true; resetTime := 0 |};
     toLocaleTimeString := fun _ => "12:00:00 AM" |}.

(** The same host with the embedding provider down. *)
Definition host_embedding_down : Host :=
  {| getAllLocations := catalogue;
     embedContent := fun _ => inl (ErrorObj "fetch failed");
     qdrant_search := index;
     Date_now := Date_now host;
     auth := auth host;
     searchRateLimiter_check := searchRateLimiter_check host;
     toLocaleTimeString := toLocaleTimeString host |}.

(** The same host with the vector index down. *)
Definition host_index_down : Host :=
  {| getAllLocations := catalogue;
     embedContent := embedContent host;
     qdrant_search := fun _ _ _ => inl (ErrorObj "connect ECONNREFUSED");
     Date_now := Date_now host;
     auth := auth host;
     searchRateLimiter_check := searchRateLimiter_check host;
     toLocaleTimeString := toLocaleTimeString host |}.

Definition mkRequest (q : string) (f : option SearchFilters) (l : option Z)
    (u : option UserLocation) : SearchRequest :=
  {| query := q; filters := f; limit := l; userLocation := u |}.

Definition halalOnly (b : bool) : SearchFilters :=
  {| category := None; priceRange := None; rating := None;
     halalCertified := Some b; familyFriendly := None |}.

Definition ratingOnly (r : Q) : SearchFilters :=
  {| category := None; priceRange := None; rating := Some r;
     halalCertified := None; familyFriendly := None |}.

Definition dubaiMarina : UserLocation := {| lat := 25; lng := 55.125 |}.

Definition mkHttp (q : Handler.JsValue) (f : option SearchFilters)
    (l : option Z) : Handler.NextRequest :=
  {| Handler.json := inr (Handler.BodyObject q f l None) |}.

End Sample.

(* ================================================================== *)
(** * The suggestion generator as the spec words it *)
(* ================================================================== *)

(** Spec, sections 4.3 and 9: an ordered list of (keywords, suggestion set)
    rules, evaluated in priority order on the lower-cased query and stopping at
    the first rule one of whose keywords occurs in it; a default set when no
    rule matches.  The two generators of the source are compared with this
    definition, each with its own table. *)
Module SuggestionRules.
Import JsString.

Definition Rule : Type := (list string * list string)%type.

Fixpoint firstMatch (rules : list Rule) (default : list string)
    (lowercaseQuery : string) : list string :=
  match rules with
  | [] => default
  | (keywords, set) :: rest =>
      if existsb (includes lowercaseQuery) keywords then set
      else firstMatch rest default lowercaseQuery
  end.

(** The table of [generateSearchSuggestions] ([part_005]). *)
Definition searchRules : list Rule :=
  [ (["romantic"; "sunset"],
     ["romantic dinner with view"; "sunset beach spots"; "couples activities Dubai"]);
    (["family"; "kids"],
     ["family-friendly attractions"; "water parks Dubai"; "kid-friendly restaurants"]);
    (["luxury"; "expensive"],
     ["luxury shopping malls"; "fine dining Dubai"; "5-star experiences"]);
    (["cheap"; "budget"],
     ["budget-friendly activities"; "affordable restaurants"; "free attractions Dubai"]) ].

Definition searchDefault : list string :=
  ["traditional souks"; "modern attractions"; "beach activities"].

(** The table of [generateSuggestions] ([part_003]). *)
Definition routeRules : list Rule :=
  [ (["romantic"],
     ["romantic dinner spots"; "sunset viewing points"; "couples activities"]);
    (["family"],
     ["family restaurants"; "kid-friendly attractions"; "water parks"]);
    (["luxury"],
     ["luxury hotels"; "fine dining"; "high-end shopping"]);
    (["traditional"],
     ["traditional souks"; "cultural museums"; "heritage sites"]) ].

Definition routeDefault : list string :=
  ["top attractions"; "best restaurants"; "hidden gems"].

(** What it is for a generator [g] to follow a rule table: it is the
    first-match evaluation of the table on the lower-cased query, so that case
    does not matter; every call returns three suggestions, the set of exactly
    one rule or the default; a rule fires when one of its keywords occurs in
    the lower-cased query and no keyword of an earlier rule does; the default
    is returned when no keyword occurs at all, as for the query ["x"], and is
    not empty. *)
Definition FollowsTable (g : string -> list string)
    (rules : list Rule) (default : list string) : Prop :=
  (forall q, g q = firstMatch rules default (toLowerCase q))
  /\ (forall q q', toLowerCase q = toLowerCase q' -> g q = g q')
  /\ (forall q, List.length (g q) = 3%nat)
  /\ (forall q, In (g q) (default :: List.map snd rules))
  /\ (forall q before keywords set after,
        rules = (before ++ (keywords, set) :: after)%list ->
        (forall rule kw, In rule before -> In kw (fst rule) ->
                         ~ Substring kw (toLowerCase q)) ->
        (exists kw, In kw keywords /\ Substring kw (toLowerCase q)) ->
        g q = set)
  /\ (forall q,
        (forall rule kw, In rule rules -> In kw (fst rule) ->
                         ~ Substring kw (toLowerCase q)) ->
        g q = default)
  /\ g "x" = default
  /\ default <> [].

End SuggestionRules.

(* ================================================================== *)
(** * The words of a query as the spec words them *)
(* ================================================================== *)

(** Spec, on the in-memory mode: a location matches when a
    whitespace-separated word of the lower-cased query occurs in its text.
    A word in that sense is not empty: the words are the non-empty pieces
    between the spaces.  The code's [Route.queryWords] keeps the empty
    pieces. *)
Module SpecWords.
Import JsString.

Definition words (lowercaseQuery : string) : list string :=
  List.filter truthy (Route.queryWords lowercaseQuery).

End SpecWords.

(* ================================================================== *)
(** * The world outside the other services and routes *)
(* ================================================================== *)

(** ** JSON values *)

(** What [JSON.parse] produces and [JSON.stringify] consumes. *)
Module Json.
Import JsString JsNumber.

#[warnings="-register-all"]
Inductive Value : Type :=
| Null
| Bool (b : bool)
| Number (q : Q)
| Str (s : string)
| Array (items : list Value)
| Object (fields : list (string * Value)).

(** [!!v]. *)
Definition truthy_value (v : Value) : bool :=
  match v with
  | Null => false
  | Bool b => b
  | Number q => truthyQ q
  | Str s => truthy s
  | Array _ | Object _ => true
  end.

(** The own property [key] of an object. *)
Fixpoint lookup (key : string) (fields : list (string * Value)) : option Value :=
  match fields with
  | [] => None
  | (k, v) :: rest => if String.eqb k key then Some v else lookup key rest
  end.

(** [v.key] for a key that no prototype defines: a [TypeError] on [null],
    [undefined] ([None]) on every value that has no such own property. *)
Definition get (v : Value) (key : string) : Thrown + option Value :=
  match v with
  | Null => inl (ErrorObj ("Cannot read properties of null (reading '" ++ key ++ "')"))
  | Object fields => inr (lookup key fields)
  | _ => inr None
  end.

End Json.

(** ** Qdrant points *)

(** The payload of a stored point: [{ ...location }], to which
    [bulkAddLocations] adds [originalId]. *)
Record StoredLocation : Type := {
  stored : Location;
  originalId : option string
}.

(** One element of [points] in [qdrant.upsert]. *)
Record QdrantPoint : Type := {
  point_id : PointId;
  vector : Embedding;
  point_payload : StoredLocation
}.

(** One element of the array [qdrant.retrieve] resolves to. *)
Record Retrieved : Type := {
  retrieved_id : PointId;
  retrieved_payload : StoredLocation
}.

(** ** The collaborators *)

(** The collaborators of the chat and safety routes and of the Qdrant set-up
    code, on top of those of the search code: the Gemini SDK's
    [generateContent] (with [result.response.text()]), the engine's
    [JSON.stringify(v, null, 2)], [JSON.parse], [Math.random().toString(36)]
    (drawn for the n-th time), number formatting in template literals and
    [toLocaleTimeString('en-US', { hour: 'numeric', hour12: true })], the two
    other rate limiters, and the Qdrant client. *)
Record Services : Type := {
  base : Host;
  generateContent : string -> string -> Thrown + string;
  generateContentWithImage : string -> string -> string -> Thrown + string;
  JSON_stringify : Json.Value -> string;
  JSON_parse : string -> Thrown + Json.Value;
  Math_random_toString36 : nat -> string;
  Number_toString : Q -> string;
  hour_of : Z -> string;
  chatRateLimiter_check : string -> RateLimit;
  safetyRateLimiter_check : string -> RateLimit;
  getCollections : Thrown + list string;
  createCollection : string -> Z -> string -> Thrown + unit;
  upsert : string -> list QdrantPoint -> Thrown + unit;
  retrieve : string -> list PointId -> Thrown + list Retrieved
}.

(** ** Effects *)

(** The calls these parts of the code make: those of the search code
    ([Old]) and their own. *)
Inductive Call : Type :=
| Old (ev : Event)
| GenerateContent (model prompt : string)
| GenerateContentWithImage (model prompt imageBase64 : string)
| MathRandom
| ChatRateLimitCheck (userId : string)
| SafetyRateLimitCheck (userId : string)
| GetCollections
| CreateCollection (name : string) (size : Z) (distance : string)
| Upsert (collection : string) (points : list QdrantPoint)
| Retrieve (collection : string) (ids : list PointId)
| ProcessExit (code : Z).

Definition Log : Type := list Call.

Module Sys.

(** As [Eff.M], over the longer log. *)
Definition M (A : Type) : Type := Log -> (Thrown + A) * Log.

Definition ret {A : Type} (a : A) : M A := fun l => (inr a, l).

Definition bind {A B : Type} (c : M A) (k : A -> M B) : M B :=
  fun l => match c l with
           | (inl e, l') => (inl e, l')
           | (inr a, l') => k a l'
           end.

Definition throw {A : Type} (e : Thrown) : M A := fun l => (inl e, l).

(** [try { c } catch (error) { handler error }]. *)
Definition try_catch {A : Type} (c : M A) (handler : Thrown -> M A) : M A :=
  fun l => match c l with
           | (inl e, l') => handler e l'
           | (inr a, l') => (inr a, l')
           end.

(** An external call: it is recorded, and it resolves or throws. *)
Definition call {A : Type} (c : Call) (r : Thrown + A) : M A :=
  fun l => (r, (l ++ [c])%list).

(** A built-in that can throw and touches nothing ([JSON.parse], a property
    read). *)
Definition of_result {A : Type} (r : Thrown + A) : M A := fun l => (r, l).

(** The calls of the search code among those of a log. *)
Fixpoint olds (l : Log) : Trace :=
  match l with
  | [] => []
  | Old ev :: r => ev :: olds r
  | _ :: r => olds r
  end.

(** A computation of the search code, run here: it sees the calls of its own
    kind made so far, and what it appends is appended to the log. *)
Definition lift {A : Type} (c : Eff.M A) : M A :=
  fun l => let t := olds l in
           match c t with
           | (r, t') => (r, (l ++ List.map Old (skipn (List.length t) t'))%list)
           end.

(** [console.error(label, error)]. *)
Definition console_error (label : string) : M unit :=
  call (Old (EvConsoleError label)) (inr tt).

(** The number of clock readings among the calls of a log. *)
Definition clock (l : Log) : nat :=
  List.length (List.filter Eff.is_now (olds l)).

(** [Date.now()] and [new Date()]: the host's clock, read once more. *)
Definition now (sv : Services) : M Z :=
  fun l => (inr (Date_now (base sv) (clock l)), (l ++ [Old EvNow])%list).

Definition is_random (c : Call) : bool :=
  match c with MathRandom => true | _ => false end.

(** The number of random draws among the calls of a log. *)
Definition draws (l : Log) : nat :=
  List.length (List.filter is_random l).

(** [Math.random().toString(36)], drawn for the n-th time. *)
Definition random_toString36 (sv : Services) : M string :=
  fun l => (inr (Math_random_toString36 sv (draws l)), (l ++ [MathRandom])%list).

(** The calls of a log that write points, that ask for an embedding, and
    that end the process. *)
Definition upserts (l : Log) : Log :=
  List.filter (fun c => match c with Upsert _ _ => true | _ => false end) l.

Definition embeds (l : Log) : Log :=
  List.filter (fun c => match c with Old (EvEmbedContent _) => true | _ => false end) l.

Definition exits (l : Log) : Log :=
  List.filter (fun c => match c with ProcessExit _ => true | _ => false end) l.

End Sys.

Declare Scope sys_scope.
Delimit Scope sys_scope with sys.
Notation "x <- c ;; k" := (Sys.bind c (fun x => k))
  (at level 100, c at next level, right associativity) : sys_scope.
Notation "c ;;; k" := (Sys.bind c (fun _ => k))
  (at level 100, right associativity) : sys_scope.

(* ================================================================== *)
(** * The rest of the Gemini service ([lib/services/gemini.ts]) *)
(* ================================================================== *)

Module GeminiService.
Import JsString JsNumber Sys.
Local Open Scope sys_scope.

(** The line feed of a template literal. *)
Definition LF : string := String (ascii_of_nat 10) EmptyString.

(** The double quote. *)
Definition DQ : string := String (ascii_of_nat 34) EmptyString.

(** [x || fallback] on an optional string. *)
Definition or_else (x : option string) (fallback : string) : string :=
  match x with
  | Some s => if truthy s then s else fallback
  | None => fallback
  end.

(** ** Chat *)

(** [ChatRequest] ([lib/types/index.ts], lines 11-15).  [userContext] is
    only tested for truthiness and handed to [JSON.stringify]. *)
Record ChatRequest : Type := {
  message : string;
  conversationId : option string;
  userContext : option Json.Value
}.

Record ChatMetadata : Type := {
  model : string;
  tokensUsed : Z;
  processingTimeMs : Z
}.

(** [ChatResponse] (lines 17-26). *)
Record ChatResponse : Type := {
  response : string;
  chat_conversationId : string;
  chat_suggestions : list string;
  metadata : ChatMetadata
}.

(** [estimateTokens] (lines 262-265): [Math.ceil(text.length / 4)]. *)
Definition estimateTokens (text : string) : Z :=
  Qceiling (inject_Z (Z.of_nat (String.length text)) / 4).

(** [generateSuggestions] (lines 228-260). *)
Definition generateSuggestions (message : string) : list string :=
  let lowercaseMsg := toLowerCase message in
  if includes lowercaseMsg "food" || includes lowercaseMsg "restaurant" then
    ["Where can I find authentic Emirati food?";
     "Best restaurants with a view?";
     "Halal dining options near me"]
  else if includes lowercaseMsg "visit" || includes lowercaseMsg "see" then
    ["Must-see attractions in Dubai";
     "Best time to visit Burj Khalifa?";
     "Family-friendly activities"]
  else if includes lowercaseMsg "safe" || includes lowercaseMsg "safety" then
    ["Is it safe to walk at night?";
     "What are the emergency numbers?";
     "Safety tips for solo travelers"]
  else
    ["What should I know about local customs?";
     "Best areas to stay in Dubai?";
     "How to get around Dubai?"].

(** The table of [generateSuggestions], as the [if]s give it. *)
Definition chatRules : list SuggestionRules.Rule :=
  [ (["food"; "restaurant"],
     ["Where can I find authentic Emirati food?";
      "Best restaurants with a view?";
      "Halal dining options near me"]);
    (["visit"; "see"],
     ["Must-see attractions in Dubai";
      "Best time to visit Burj Khalifa?";
      "Family-friendly activities"]);
    (["safe"; "safety"],
     ["Is it safe to walk at night?";
      "What are the emergency numbers?";
      "Safety tips for solo travelers"]) ].

(** The same table without the keyword ['safety']. *)
Definition chatRules_without_safety : list SuggestionRules.Rule :=
  [ (["food"; "restaurant"],
     ["Where can I find authentic Emirati food?";
      "Best restaurants with a view?";
      "Halal dining options near me"]);
    (["visit"; "see"],
     ["Must-see attractions in Dubai";
      "Best time to visit Burj Khalifa?";
      "Family-friendly activities"]);
    (["safe"],
     ["Is it safe to walk at night?";
      "What are the emergency numbers?";
      "Safety tips for solo travelers"]) ].

Definition chatDefault : list string :=
  ["What should I know about local customs?";
   "Best areas to stay in Dubai?";
   "How to get around Dubai?"].

(** [s.substr(2, 9)]: at most nine characters from index 2 on. *)
Definition substr_2_9 (s : string) : string := String.substring 2 9 s.

(** [generateConversationId] (lines 224-226). *)
Definition generateConversationId (sv : Services) : M string :=
  t <- now sv ;;
  r <- random_toString36 sv ;;
  ret ("conv_" ++ Z_toString t ++ "_" ++ substr_2_9 r).

(** [request.userContext ? `\n\nUser Context: ${JSON.stringify(...)}` : '']
    (lines 73-75). *)
Definition context_of (sv : Services) (request : ChatRequest) : string :=
  match userContext request with
  | Some uc =>
      if Json.truthy_value uc then
        LF ++ LF ++ "User Context: " ++ JSON_stringify sv uc
      else EmptyString
  | None => EmptyString
  end.

(** [generateChatResponse] (lines 63-98).  [getGenAI().getGenerativeModel]
    only builds the model object, with the system instruction in it, and is
    not modelled; [generateContent] stands for the call together with
    [result.response.text()]. *)
Definition generateChatResponse (sv : Services) (request : ChatRequest)
    : M ChatResponse :=
  startTime <- now sv ;;
  try_catch
    (let prompt := message request ++ context_of sv request in
     response <- call (GenerateContent "gemini-2.5-flash" prompt)
                      (generateContent sv "gemini-2.5-flash" prompt) ;;
     endTime <- now sv ;;
     let processingTimeMs := (endTime - startTime)%Z in
     conversationId <-
       match conversationId request with
       | Some c => if truthy c then ret c else generateConversationId sv
       | None => generateConversationId sv
       end ;;
     ret {| response := response;
            chat_conversationId := conversationId;
            chat_suggestions := generateSuggestions (message request);
            metadata := {| model := "gemini-2.5-flash";
                           tokensUsed := estimateTokens (prompt ++ response);
                           processingTimeMs := processingTimeMs |} |})
    (fun _ =>
       console_error "Gemini chat error:" ;;;
       throw (ErrorObj "Failed to generate chat response")).

(** Whether [request.conversationId || generateConversationId()] keeps the
    id of the request. *)
Definition keeps_id (request : ChatRequest) : bool :=
  match conversationId request with
  | Some c => truthy c
  | None => false
  end.

(** ** Vision *)

(** [analyzeImage] (lines 122-143). *)
Definition analyzeImage (sv : Services) (imageBase64 prompt : string) : M string :=
  try_catch
    (call (GenerateContentWithImage "gemini-2.5-flash" prompt imageBase64)
          (generateContentWithImage sv "gemini-2.5-flash" prompt imageBase64))
    (fun _ =>
       console_error "Gemini vision error:" ;;;
       throw (ErrorObj "Failed to analyze image")).

(** ** Safety *)

(** The [location] argument of [generateSafetyAssessment]. *)
Record SafetyLocation : Type := {
  sl_latitude : Q;
  sl_longitude : Q;
  sl_areaName : option string
}.

(** Its optional [context] argument. *)
Record SafetyContext : Type := {
  timeOfDay : option string;
  weather : option string;
  incidents : option (list string)
}.

(** What [generateSafetyAssessment] resolves to.  The four fields come out
    of [JSON.parse] unchecked: each is any JSON value, or [undefined]
    ([None]). *)
Record Assessment : Type := {
  riskScore : option Json.Value;
  riskLevel : option Json.Value;
  assessment_message : option Json.Value;
  recommendations : option Json.Value
}.

(** The characters of a string. *)
Definition chars (s : string) : list ascii := list_ascii_of_string s.

(** The suffix of [s] from the first [c] on. *)
Fixpoint from_first (c : ascii) (s : string) : option string :=
  match s with
  | EmptyString => None
  | String c' r => if Ascii.eqb c' c then Some s else from_first c r
  end.

(** The prefix of [s] up to the last [c]. *)
Fixpoint up_to_last (c : ascii) (s : string) : option string :=
  match s with
  | EmptyString => None
  | String c' r =>
      match up_to_last c r with
      | Some p => Some (String c' p)
      | None => if Ascii.eqb c' c then Some (String c' EmptyString) else None
      end
  end.

(** [responseText.match(/\{[\s\S]*\}/)] (line 191), [jsonMatch[0]]: the
    match starts at the leftmost brace that has a closing brace after it,
    which is the first brace of the text if any is; the star is greedy, so
    the match ends at the last closing brace. *)
Definition match_braces (responseText : string) : option string :=
  match from_first "{" responseText with
  | Some (String open rest) => option_map (String open) (up_to_last "}" rest)
  | _ => None
  end.

(** The prompt (lines 162-185). *)
Definition safety_prompt (sv : Services) (location : SafetyLocation)
    (context : option SafetyContext) : string :=
  "Analyze safety for a tourist at this location in Dubai:" ++ LF ++
  LF ++
  "Location: " ++ or_else (sl_areaName location) "Unknown area" ++
    " (" ++ Number_toString sv (sl_latitude location) ++ ", " ++
    Number_toString sv (sl_longitude location) ++ ")" ++ LF ++
  "Time: " ++
    or_else (match context with Some c => timeOfDay c | None => None end)
            "Current time" ++ LF ++
  "Weather: " ++
    or_else (match context with Some c => weather c | None => None end)
            "Normal conditions" ++ LF ++
  "Recent incidents: " ++
    or_else (match context with
             | Some c => option_map (join ", ") (incidents c)
             | None => None
             end) "None reported" ++ LF ++
  LF ++
  "Assess the risk level (0-100) considering:" ++ LF ++
  "- Area type (tourist zone, residential, industrial, desert)" ++ LF ++
  "- Time of day (daylight is generally safer)" ++ LF ++
  "- Recent safety incidents" ++ LF ++
  "- Weather conditions (extreme heat, sandstorms)" ++ LF ++
  "- Foot traffic levels" ++ LF ++
  "- Proximity to tourist areas" ++ LF ++
  LF ++
  "Provide a JSON response with this exact structure:" ++ LF ++
  "{" ++ LF ++
  "  " ++ DQ ++ "risk_score" ++ DQ ++ ": number (0-100)," ++ LF ++
  "  " ++ DQ ++ "risk_level" ++ DQ ++ ": " ++ DQ ++ "low" ++ DQ ++ " | " ++
    DQ ++ "medium" ++ DQ ++ " | " ++ DQ ++ "high" ++ DQ ++ " | " ++
    DQ ++ "critical" ++ DQ ++ "," ++ LF ++
  "  " ++ DQ ++ "message" ++ DQ ++ ": " ++ DQ ++
    "Brief safety assessment in 1-2 sentences" ++ DQ ++ "," ++ LF ++
  "  " ++ DQ ++ "recommendations" ++ DQ ++ ": [" ++ DQ ++
    "Specific safety tip 1" ++ DQ ++ ", " ++ DQ ++ "Specific safety tip 2" ++
    DQ ++ ", " ++ DQ ++ "Specific safety tip 3" ++ DQ ++ "]" ++ LF ++
  "}" ++ LF ++
  LF ++
  "Dubai is generally very safe for tourists. Most areas score below 30. Only remote desert areas or industrial zones should score above 50.".

(** The default of the [catch] block (lines 208-218). *)
Definition fallback_assessment : Assessment :=
  {| riskScore := Some (Json.Number 20);
     riskLevel := Some (Json.Str "low");
     assessment_message :=
       Some (Json.Str "Dubai is generally very safe for tourists. Stay aware of your surroundings.");
     recommendations :=
       Some (Json.Array
               [Json.Str "Stay hydrated in hot weather";
                Json.Str "Keep valuables secure";
                Json.Str "Use licensed taxis or ride-sharing apps";
                Json.Str "Emergency number in UAE: 999"]) |}.

(** [generateSafetyAssessment] (lines 148-220). *)
Definition generateSafetyAssessment (sv : Services) (location : SafetyLocation)
    (context : option SafetyContext) : M Assessment :=
  try_catch
    (let prompt := safety_prompt sv location context in
     responseText <- call (GenerateContent "gemini-2.5-flash" prompt)
                          (generateContent sv "gemini-2.5-flash" prompt) ;;
     match match_braces responseText with
     | None => throw (ErrorObj "Invalid response format")
     | Some text =>
         assessment <- of_result (JSON_parse sv text) ;;
         risk_score <- of_result (Json.get assessment "risk_score") ;;
         risk_level <- of_result (Json.get assessment "risk_level") ;;
         message <- of_result (Json.get assessment "message") ;;
         recommendations <- of_result (Json.get assessment "recommendations") ;;
         ret {| riskScore := risk_score;
                riskLevel := risk_level;
                assessment_message := message;
                recommendations := recommendations |}
     end)
    (fun _ =>
       console_error "Gemini safety assessment error:" ;;;
       ret fallback_assessment).

(** What the [try] block of [generateSafetyAssessment] makes of the outcome
    of the model call: the assessment, or nothing when it throws. *)
Definition parsed (sv : Services) (outcome : Thrown + string) : option Assessment :=
  match outcome with
  | inl _ => None
  | inr responseText =>
      match match_braces responseText with
      | None => None
      | Some text =>
          match JSON_parse sv text with
          | inl _ => None
          | inr Json.Null => None
          | inr assessment =>
              Some {| riskScore :=
                        match assessment with
                        | Json.Object fields => Json.lookup "risk_score" fields
                        | _ => None
                        end;
                      riskLevel :=
                        match assessment with
                        | Json.Object fields => Json.lookup "risk_level" fields
                        | _ => None
                        end;
                      assessment_message :=
                        match assessment with
                        | Json.Object fields => Json.lookup "message" fields
                        | _ => None
                        end;
                      recommendations :=
                        match assessment with
                        | Json.Object fields => Json.lookup "recommendations" fields
                        | _ => None
                        end |}
          end
      end
  end.

End GeminiService.

(* ================================================================== *)
(** * The chat route ([src/unnamed/part_002]) *)
(* ================================================================== *)

(** The envelope of a route's answer, for any kind of data. *)
Module Http.

(** The JSON body of a response: the error envelope or the data.  The
    [timestamp] field is left out. *)
Inductive Api (A : Type) : Type :=
| Failure (code message : string)
| Success (data : A).

Arguments Failure {A} code message.
Arguments Success {A} data.

(** [NextResponse.json(body, { status, headers })]. *)
Record Response (A : Type) : Type := {
  body : Api A;
  status : nat;
  headers : list (string * string)
}.

Arguments body {A} _.
Arguments status {A} _.
Arguments headers {A} _.

(** The message of the [TypeError] thrown by reading [field] on [null] (the
    text is the engine's). *)
Definition null_read_message (field : string) : string :=
  "Cannot read properties of null (reading '" ++ field ++ "')".

(** [error instanceof Error ? error.message : fallback]. *)
Definition message_or (error : Thrown) (fallback : string) : string :=
  match error with
  | ErrorObj message => message
  | NonError => fallback
  end.

End Http.

Module ChatRoute.
Import JsString JsNumber Sys Http.
Local Open Scope sys_scope.

(** What [request.json()] resolves to ([const body: ChatRequest]):
    [body.message] is validated, the rest is passed on as it is.
    [conversationId] is taken at its declared type, a string when present;
    [userContext] is any JSON value. *)
Inductive JsonBody : Type :=
| BodyNull
| BodyObject (body_message : Handler.JsValue) (body_conversationId : option string)
             (body_userContext : option Json.Value).

Record NextRequest : Type := {
  json : Thrown + JsonBody
}.

Definition NextResponse : Type := Response GeminiService.ChatResponse.

Definition unauthorized : NextResponse :=
  {| body := Failure "UNAUTHORIZED" "You must be signed in to use the chat feature";
     status := 401; headers := [] |}.

Definition rate_limit_exceeded (sv : Services) (rateLimit : RateLimit) : NextResponse :=
  {| body := Failure "RATE_LIMIT_EXCEEDED"
               ("Rate limit exceeded. You can make 20 chat requests per hour. Try again at "
                ++ toLocaleTimeString (base sv) (resetTime rateLimit) ++ ".");
     status := 429;
     headers := [("X-RateLimit-Limit", "20");
                 ("X-RateLimit-Remaining", "0");
                 ("X-RateLimit-Reset", Z_toString (resetTime rateLimit))] |}.

Definition invalid_request : NextResponse :=
  {| body := Failure "INVALID_REQUEST" "Message is required and must be a string";
     status := 400; headers := [] |}.

Definition ok (chatResponse : GeminiService.ChatResponse) : NextResponse :=
  {| body := Success chatResponse; status := 200; headers := [] |}.

Definition internal_error (error : Thrown) : NextResponse :=
  {| body := Failure "INTERNAL_ERROR"
               match error with
               | ErrorObj message => message
               | NonError => "Failed to process chat request"
               end;
     status := 500; headers := [] |}.

(** [POST] (lines 7-89). *)
Definition POST (sv : Services) (request : NextRequest) : M NextResponse :=
  try_catch
    (userId <- call (Old EvAuth) (auth (base sv)) ;;
     if negb (Handler.signed_in userId) then ret unauthorized
     else
       let rateLimit := chatRateLimiter_check sv (Handler.uid_of userId) in
       call (ChatRateLimitCheck (Handler.uid_of userId)) (inr tt) ;;;
       if negb (allowed rateLimit) then ret (rate_limit_exceeded sv rateLimit)
       else
         body <- call (Old EvRequestJson) (json request) ;;
         match body with
         | BodyNull => throw (ErrorObj (null_read_message "message"))
         | BodyObject m c u =>
             if negb (Handler.truthy_value m) || negb (Handler.is_string m) then
               ret invalid_request
             else
               chatResponse <-
                 GeminiService.generateChatResponse sv
                   {| GeminiService.message := Handler.string_of m;
                      GeminiService.conversationId := c;
                      GeminiService.userContext := u |} ;;
               ret (ok chatResponse)
         end)
    (fun error =>
       console_error "Chat API error:" ;;;
       ret (internal_error error)).

End ChatRoute.

(* ================================================================== *)
(** * The safety route ([src/unnamed/part_003], lines 207-423) *)
(* ================================================================== *)

Module SafetyRoute.
Import JsString JsNumber Sys Http.
Local Open Scope sys_scope.

(** What [request.json()] resolves to ([const body: SafetyCheckRequest]). *)
Inductive JsonBody : Type :=
| BodyNull
| BodyObject (body_latitude body_longitude : Handler.JsValue)
             (body_areaName : option string).

Record NextRequest : Type := {
  json : Thrown + JsonBody
}.

(** [typeof v === 'number']. *)
Definition is_number (v : Handler.JsValue) : bool :=
  match v with Handler.JNumber _ => true | _ => false end.

(** The number a validated coordinate is. *)
Definition number_of (v : Handler.JsValue) : Q :=
  match v with Handler.JNumber q => q | _ => 0 end.

Record AuditLocation : Type := {
  audit_latitude : Q;
  audit_longitude : Q;
  audit_areaName : string
}.

Record Analysis : Type := {
  areaType : string;
  analysis_timeOfDay : string;
  weatherConditions : string;
  footTraffic : string
}.

(** [EmergencyContact] ([lib/types/index.ts], lines 194-198). *)
Record EmergencyContact : Type := {
  contact_name : string;
  phone : string;
  contact_type : string
}.

(** One element of [workflowStages]. *)
Record Stage : Type := {
  stage : Z;
  stage_name : string;
  stage_status : string;
  note : string;
  stage_timestamp : Z
}.

(** [SafetyAuditData] (lines 164-192); [riskFactors] is always [[]]. *)
Record SafetyAuditData : Type := {
  audit_location : AuditLocation;
  analysis : Analysis;
  riskFactors : list (string * string * string);
  audit_recommendations : option Json.Value;
  emergencyContacts : list EmergencyContact;
  assessedBy : string;
  assessmentTime : Z;
  workflowStages : list Stage
}.

(** [SafetyCheckResponse] (lines 151-162), with [auditReport.jsonData] as
    [jsonData]. *)
Record SafetyCheckResponse : Type := {
  riskLevel : option Json.Value;
  riskScore : option Json.Value;
  safety_message : option Json.Value;
  recommendations : option Json.Value;
  workflowId : string;
  checkedAt : Z;
  jsonData : SafetyAuditData
}.

Definition NextResponse : Type := Response SafetyCheckResponse.

Definition unauthorized : NextResponse :=
  {| body := Failure "UNAUTHORIZED"
               "You must be signed in to use the safety check feature";
     status := 401; headers := [] |}.

Definition rate_limit_exceeded (sv : Services) (rateLimit : RateLimit) : NextResponse :=
  {| body := Failure "RATE_LIMIT_EXCEEDED"
               ("Rate limit exceeded. You can make 10 safety checks per hour. Try again at "
                ++ toLocaleTimeString (base sv) (resetTime rateLimit) ++ ".");
     status := 429;
     headers := [("X-RateLimit-Limit", "10");
                 ("X-RateLimit-Remaining", "0");
                 ("X-RateLimit-Reset", Z_toString (resetTime rateLimit))] |}.

Definition invalid_request : NextResponse :=
  {| body := Failure "INVALID_REQUEST" "Valid latitude and longitude are required";
     status := 400; headers := [] |}.

Definition ok (safetyResponse : SafetyCheckResponse) : NextResponse :=
  {| body := Success safetyResponse; status := 200; headers := [] |}.

Definition internal_error (error : Thrown) : NextResponse :=
  {| body := Failure "INTERNAL_ERROR"
               match error with
               | ErrorObj message => message
               | NonError => "Failed to process safety check request"
               end;
     status := 500; headers := [] |}.

(** [assessment.riskLevel === 'high' || assessment.riskLevel === 'critical']
    (lines 341, 349 and 352). *)
Definition needs_review (riskLevel : option Json.Value) : bool :=
  match riskLevel with
  | Some (Json.Str s) => String.eqb s "high" || String.eqb s "critical"
  | _ => false
  end.

(** [workflowStages] (lines 322-364). *)
Definition stages_of (riskLevel : option Json.Value) (now : Z) : list Stage :=
  [ {| stage := 1; stage_name := "Data Intake"; stage_status := "completed";
       note := "Location coordinates and context collected";
       stage_timestamp := now |};
    {| stage := 2; stage_name := "AI Understanding"; stage_status := "completed";
       note := "Gemini analyzed safety factors and risk assessment";
       stage_timestamp := now |};
    {| stage := 3; stage_name := "Decision Logic"; stage_status := "completed";
       note := if needs_review riskLevel
               then "High risk detected - human review recommended"
               else "Risk level acceptable - no human review needed";
       stage_timestamp := now |};
    {| stage := 4; stage_name := "Human Review";
       stage_status := if needs_review riskLevel then "required" else "skipped";
       note := if needs_review riskLevel
               then "Manual verification recommended for high-risk areas"
               else "Automated assessment sufficient for this risk level";
       stage_timestamp := now |};
    {| stage := 5; stage_name := "Delivery & Audit"; stage_status := "completed";
       note := "Safety report generated with recommendations";
       stage_timestamp := now |} ].

(** [safetyResponse] (lines 293-367). *)
Definition safetyResponse_of (latitude longitude : Q) (areaName : option string)
    (now : Z) (timeOfDay : string) (assessment : GeminiService.Assessment)
    (workflowId : string) : SafetyCheckResponse :=
  {| riskLevel := GeminiService.riskLevel assessment;
     riskScore := GeminiService.riskScore assessment;
     safety_message := GeminiService.assessment_message assessment;
     recommendations := GeminiService.recommendations assessment;
     workflowId := workflowId;
     checkedAt := now;
     jsonData :=
       {| audit_location :=
            {| audit_latitude := latitude;
               audit_longitude := longitude;
               audit_areaName := GeminiService.or_else areaName "Unknown area" |};
          analysis :=
            {| areaType := "Tourist area";
               analysis_timeOfDay := timeOfDay;
               weatherConditions := "Normal";
               footTraffic := "Moderate" |};
          riskFactors := [];
          audit_recommendations := GeminiService.recommendations assessment;
          emergencyContacts :=
            [ {| contact_name := "Police"; phone := "999";
                 contact_type := "police" |};
              {| contact_name := "Ambulance"; phone := "998";
                 contact_type := "ambulance" |};
              {| contact_name := "Tourist Police"; phone := "+971 4 269 2222";
                 contact_type := "tourist_police" |} ];
          assessedBy := "Gemini 2.5 Flash AI";
          assessmentTime := now;
          workflowStages := stages_of (GeminiService.riskLevel assessment) now |} |}.

(** [POST] (lines 213-395). *)
Definition POST (sv : Services) (request : NextRequest) : M NextResponse :=
  try_catch
    (userId <- call (Old EvAuth) (auth (base sv)) ;;
     if negb (Handler.signed_in userId) then ret unauthorized
     else
       let rateLimit := safetyRateLimiter_check sv (Handler.uid_of userId) in
       call (SafetyRateLimitCheck (Handler.uid_of userId)) (inr tt) ;;;
       if negb (allowed rateLimit) then ret (rate_limit_exceeded sv rateLimit)
       else
         body <- call (Old EvRequestJson) (json request) ;;
         match body with
         | BodyNull => throw (ErrorObj (null_read_message "latitude"))
         | BodyObject latitude longitude areaName =>
             if negb (is_number latitude) || negb (is_number longitude) then
               ret invalid_request
             else
               now <- now sv ;;
               let timeOfDay := hour_of sv now in
               assessment <-
                 GeminiService.generateSafetyAssessment sv
                   {| GeminiService.sl_latitude := number_of latitude;
                      GeminiService.sl_longitude := number_of longitude;
                      GeminiService.sl_areaName := areaName |}
                   (Some {| GeminiService.timeOfDay := Some timeOfDay;
                            GeminiService.weather := None;
                            GeminiService.incidents := None |}) ;;
               t <- Sys.now sv ;;
               r <- random_toString36 sv ;;
               let workflowId :=
                 "safety_" ++ Z_toString t ++ "_" ++ GeminiService.substr_2_9 r in
               ret (ok (safetyResponse_of (number_of latitude) (number_of longitude)
                          areaName now timeOfDay assessment workflowId))
         end)
    (fun error =>
       console_error "Safety API error:" ;;;
       ret (internal_error error)).

(** The statuses of the workflow stages of an answer, in order. *)
Definition statuses (data : SafetyCheckResponse) : list string :=
  List.map stage_status (workflowStages (jsonData data)).

End SafetyRoute.

(* ================================================================== *)
(** * Setting up the Qdrant collection ([src/unnamed/part_005]) *)
(* ================================================================== *)

(** The functions of the Qdrant service that write the collection and read
    one point.  [getClient()] only builds the client object and is not
    modelled; what the functions print with [console.log] is left out. *)
Module QdrantAdmin.
Import JsString JsNumber Sys.
Local Open Scope sys_scope.

Definition COLLECTION_NAME : string := "dubai_locations".

(** [initializeCollection] (lines 27-53). *)
Definition initializeCollection (sv : Services) : M unit :=
  try_catch
    (collections <- call GetCollections (getCollections sv) ;;
     let exists_ := existsb (fun name => String.eqb name COLLECTION_NAME) collections in
     if exists_ then ret tt
     else
       call (CreateCollection COLLECTION_NAME 768 "Cosine")
            (createCollection sv COLLECTION_NAME 768 "Cosine"))
    (fun error =>
       console_error "Failed to initialize collection:" ;;;
       throw error).

(** The text a location is embedded by (lines 63 and 100). *)
Definition embeddingText (location : Location) : string :=
  loc_name location ++ " " ++ loc_description location ++ " " ++
  join " " (loc_tags location) ++ " " ++ loc_category location.

(** [addLocation] (lines 58-88). *)
Definition addLocation (sv : Services) (location : Location) : M unit :=
  try_catch
    (embedding <- lift (Gemini.generateEmbedding (base sv) (embeddingText location)) ;;
     let points :=
       [ {| point_id := StrId (loc_id location);
            vector := embedding;
            point_payload := {| stored := location; originalId := None |} |} ] in
     call (Upsert COLLECTION_NAME points) (upsert sv COLLECTION_NAME points))
    (fun error =>
       console_error "Failed to add location:" ;;;
       throw error).

(** The point built for the location at [index] (lines 105-112). *)
Definition point_of (index : nat) (location : Location) (embedding : Embedding)
    : QdrantPoint :=
  {| point_id := NumId (Z.of_nat index + 1);
     vector := embedding;
     point_payload := {| stored := location; originalId := Some (loc_id location) |} |}.

(** The points of [locations] from [index] on, given their embeddings. *)
Fixpoint points_from (index : nat) (locations : list Location)
    (embeddings : list Embedding) : list QdrantPoint :=
  match locations, embeddings with
  | location :: locations', embedding :: embeddings' =>
      point_of index location embedding :: points_from (S index) locations' embeddings'
  | _, _ => []
  end.

(** What [Promise.all] makes of the outcomes: the values, when every promise
    resolved. *)
Fixpoint all_resolved {A : Type} (outcomes : list (Thrown + A)) : option (list A) :=
  match outcomes with
  | [] => Some []
  | inr a :: rest => option_map (cons a) (all_resolved rest)
  | inl _ :: _ => None
  end.

(** The callbacks of [locations.map] run one after the other up to their
    [await], so that [embedContent] is called for every location, in order,
    before any of the calls settles. *)
Definition start_embeddings (texts : list string) : M unit :=
  fun l => (inr tt, (l ++ List.map (fun text => Old (EvEmbedContent text)) texts)%list).

(** The calls that start the embeddings of [locations]. *)
Definition embedding_calls (locations : list Location) : Log :=
  List.map (fun text => Old (EvEmbedContent text))
    (List.map embeddingText locations).

(** The outcomes that are rejections. *)
Definition rejections {A : Type} (outcomes : list (Thrown + A)) : list Thrown :=
  flat_map (fun outcome => match outcome with inl e => [e] | inr _ => [] end)
    outcomes.

(** [generateEmbedding] logs every call that fails ([gemini.ts], line 114). *)
Definition embedding_errors {A : Type} (outcomes : list (Thrown + A)) : M unit :=
  fun l => (inr tt,
            (l ++ List.map (fun _ => Old (EvConsoleError "Gemini embedding error:"))
                    (rejections outcomes))%list).

(** [bulkAddLocations] (lines 93-126).  When embedding calls fail,
    [generateEmbedding] logs each of them and rejects with its own [Error],
    [Promise.all] rejects with the first rejection, and the [catch] block logs
    and rethrows.  The calls are taken to have settled by the time the
    rejection reaches the [catch] block, so that every failing call has logged
    its line before it. *)
Definition bulkAddLocations (sv : Services) (locations : list Location) : M unit :=
  try_catch
    (let texts := List.map embeddingText locations in
     start_embeddings texts ;;;
     let outcomes := List.map (embedContent (base sv)) texts in
     match all_resolved outcomes with
     | None =>
         embedding_errors outcomes ;;;
         throw (ErrorObj "Failed to generate embedding")
     | Some embeddings =>
         let points := points_from 0 locations embeddings in
         call (Upsert COLLECTION_NAME points) (upsert sv COLLECTION_NAME points)
     end)
    (fun error =>
       console_error "Failed to bulk add locations:" ;;;
       throw error).

(** The lines the failing embedding calls of [locations] log. *)
Definition embedding_error_lines (sv : Services) (locations : list Location) : Log :=
  List.map (fun _ => Old (EvConsoleError "Gemini embedding error:"))
    (rejections (List.map (embedContent (base sv))
                   (List.map embeddingText locations))).

(** [getLocationById] (lines 235-253). *)
Definition getLocationById (sv : Services) (id : string) : M (option StoredLocation) :=
  try_catch
    (result <- call (Retrieve COLLECTION_NAME [StrId id])
                    (retrieve sv COLLECTION_NAME [StrId id]) ;;
     match result with
     | [] => ret None
     | first :: _ => ret (Some (retrieved_payload first))
     end)
    (fun _ =>
       console_error "Failed to get location:" ;;;
       ret None).

End QdrantAdmin.

(* ================================================================== *)
(** * The set-up script ([scripts/init-qdrant.ts]) *)
(* ================================================================== *)

Module InitScript.
Import Sys.
Local Open Scope sys_scope.

(** [initializeQdrant] (lines 17-58); what it prints with [console.log] is
    left out. *)
Definition initializeQdrant (sv : Services) : M unit :=
  try_catch
    (QdrantAdmin.initializeCollection sv ;;;
     locations <- call (Old EvGetAllLocations) (inr (getAllLocations (base sv))) ;;
     QdrantAdmin.bulkAddLocations sv locations)
    (fun _ =>
       console_error "❌ Initialization failed:" ;;;
       console_error (GeminiService.LF ++ "Please check:") ;;;
       console_error "1. Your QDRANT_URL and QDRANT_API_KEY in .env.local" ;;;
       console_error "2. Your Qdrant cluster is running" ;;;
       console_error "3. Your GEMINI_API_KEY is valid (for embeddings)" ;;;
       call (ProcessExit 1) (inr tt)).

(** What the script prints and does when a step fails (lines 51-56). *)
Definition failure_report : Log :=
  [Old (EvConsoleError "❌ Initialization failed:");
   Old (EvConsoleError (GeminiService.LF ++ "Please check:"));
   Old (EvConsoleError "1. Your QDRANT_URL and QDRANT_API_KEY in .env.local");
   Old (EvConsoleError "2. Your Qdrant cluster is running");
   Old (EvConsoleError "3. Your GEMINI_API_KEY is valid (for embeddings)");
   ProcessExit 1].

End InitScript.

(* ================================================================== *)
(** * A small world for the other services *)
(* ================================================================== *)

Module SampleServices.
Import JsNumber.

(** A JSON text: an object of three members. *)
Definition assessment_json : string :=
  let DQ := GeminiService.DQ in
  "{" ++ DQ ++ "risk_score" ++ DQ ++ ": 250, "
      ++ DQ ++ "risk_level" ++ DQ ++ ": " ++ DQ ++ "high" ++ DQ ++ ", "
      ++ DQ ++ "message" ++ DQ ++ ": " ++ DQ ++ "Remote industrial zone." ++ DQ
      ++ "}".

(** What the stand-in model answers: the JSON text wrapped in prose. *)
Definition reply : string :=
  "Here is the assessment: " ++ assessment_json ++ " Stay safe.".

(** [JSON.parse] on the one text the examples need, where it gives what the
    engine's parser gives; every other text is taken as rejected. *)
Definition parse (text : string) : Thrown + Json.Value :=
  if String.eqb text assessment_json then
    inr (Json.Object [("risk_score", Json.Number 250);
                      ("risk_level", Json.Str "high");
                      ("message", Json.Str "Remote industrial zone.")])
  else inl (ErrorObj "Unexpected token").

Definition services : Services :=
  {| base := Sample.host;
     generateContent := fun _ _ => inr reply;
     generateContentWithImage := fun _ _ _ => inr "A photo of the Dubai Frame.";
     JSON_stringify := fun _ => "{}";
     JSON_parse := parse;
     Math_random_toString36 := fun _ => "0.4fzyo82mvyr";
     Number_toString := fun _ => "25.2";
     hour_of := fun _ => "9 PM";
     chatRateLimiter_check := fun _ => {| allowed := true; resetTime := 0 |};
     safetyRateLimiter_check := fun _ => {| allowed := true; resetTime := 0 |};
     getCollections := inr ["other"];
     createCollection := fun _ _ _ => inr tt;
     upsert := fun _ _ => inr tt;
     retrieve := fun _ _ => inr [] |}.

(** The same services on another host. *)
Definition on_host (h : Host) : Services :=
  {| base := h;
     generateContent := generateContent services;
     generateContentWithImage := generateContentWithImage services;
     JSON_stringify := JSON_stringify services;
     JSON_parse := JSON_parse services;
     Math_random_toString36 := Math_random_toString36 services;
     Number_toString := Number_toString services;
     hour_of := hour_of services;
     chatRateLimiter_check := chatRateLimiter_check services;
     safetyRateLimiter_check := safetyRateLimiter_check services;
     getCollections := getCollections services;
     createCollection := createCollection services;
     upsert := upsert services;
     retrieve := retrieve services |}.

(** The same services with the language model down. *)
Definition model_down : Services :=
  {| base := Sample.host;
     generateContent := fun _ _ => inl (ErrorObj "503 Service Unavailable");
     generateContentWithImage := fun _ _ _ => inl (ErrorObj "503 Service Unavailable");
     JSON_stringify := JSON_stringify services;
     JSON_parse := JSON_parse services;
     Math_random_toString36 := Math_random_toString36 services;
     Number_toString := Number_toString services;
     hour_of := hour_of services;
     chatRateLimiter_check := chatRateLimiter_check services;
     safetyRateLimiter_check := safetyRateLimiter_check services;
     getCollections := getCollections services;
     createCollection := createCollection services;
     upsert := upsert services;
     retrieve := retrieve services |}.

(** The same services with every rate limit used up. *)
Definition limits_reached : Services :=
  {| base :=
       {| getAllLocations := Sample.catalogue;
          embedContent := embedContent Sample.host;
          qdrant_search := qdrant_search Sample.host;
          Date_now := Date_now Sample.host;
          auth := auth Sample.host;
          searchRateLimiter_check := fun _ => {| allowed := false; resetTime := 3600000 |};
          toLocaleTimeString := toLocaleTimeString Sample.host |};
     generateContent := generateContent services;
     generateContentWithImage := generateContentWithImage services;
     JSON_stringify := JSON_stringify services;
     JSON_parse := JSON_parse services;
     Math_random_toString36 := Math_random_toString36 services;
     Number_toString := Number_toString services;
     hour_of := hour_of services;
     chatRateLimiter_check := fun _ => {| allowed := false; resetTime := 3600000 |};
     safetyRateLimiter_check := fun _ => {| allowed := false; resetTime := 3600000 |};
     getCollections := getCollections services;
     createCollection := createCollection services;
     upsert := upsert services;
     retrieve := retrieve services |}.

(** A host nobody is signed in to. *)
Definition anonymous : Host :=
  {| getAllLocations := Sample.catalogue;
     embedContent := embedContent Sample.host;
     qdrant_search := qdrant_search Sample.host;
     Date_now := Date_now Sample.host;
     auth := inr None;
     searchRateLimiter_check := searchRateLimiter_check Sample.host;
     toLocaleTimeString := toLocaleTimeString Sample.host |}.

(** A host whose session lookup fails. *)
Definition auth_down : Host :=
  {| getAllLocations := Sample.catalogue;
     embedContent := embedContent Sample.host;
     qdrant_search := qdrant_search Sample.host;
     Date_now := Date_now Sample.host;
     auth := inl (ErrorObj "Clerk: session lookup failed");
     searchRateLimiter_check := searchRateLimiter_check Sample.host;
     toLocaleTimeString := toLocaleTimeString Sample.host |}.

End SampleServices.

(* ================================================================== *)
(** * Facts about strings and arrays *)
(* ================================================================== *)

Module StringFacts.
Import JsString.

Lemma prefix_spec (sub s : string) :
  String.prefix sub s = true <-> exists post, s = sub ++ post.
Proof.
  revert s; induction sub as [|c sub IH]; intros s; simpl.
  - split; [intros _; now exists s | intros _; destruct s; reflexivity].
  - destruct s as [|d s]; simpl.
    + split; [discriminate | intros [post H]; discriminate].
    + destruct (Ascii.ascii_dec c d) as [->|Hne].
      * rewrite IH. split; intros [post H]; exists post.
        -- now rewrite H.
        -- now injection H.
      * split; [discriminate | intros [post H]; injection H; congruence].
Qed.

Lemma includes_nil (sub : string) :
  includes EmptyString sub = String.prefix sub EmptyString.
Proof. unfold includes. apply orb_false_r. Qed.

Lemma includes_cons (d : ascii) (s sub : string) :
  includes (String d s) sub = String.prefix sub (String d s) || includes s sub.
Proof. reflexivity. Qed.

Lemma includes_spec (s sub : string) :
  includes s sub = true <-> Substring sub s.
Proof.
  unfold Substring.
  induction s as [|d s IH].
  - rewrite includes_nil, prefix_spec. split.
    + intros [post H]. now exists EmptyString, post.
    + intros [pre [post H]]. destruct pre; simpl in H.
      * now exists post.
      * discriminate.
  - rewrite includes_cons, orb_true_iff, IH, prefix_spec. split.
    + intros [[post H] | [pre [post H]]].
      * now exists EmptyString, post.
      * exists (String d pre), post. simpl. now rewrite H.
    + intros [pre [post H]]. destruct pre as [|e pre]; simpl in H.
      * left. now exists post.
      * right. exists pre, post. now injection H.
Qed.

Lemma includes_empty (s : string) : includes s EmptyString = true.
Proof. destruct s; reflexivity. Qed.

Lemma split_not_nil (sep : ascii) (s : string) : split sep s <> [].
Proof.
  induction s as [|c s IH]; simpl; [discriminate|].
  destruct (Ascii.eqb c sep); [discriminate|].
  destruct (split sep s); discriminate.
Qed.

Lemma split_length_pos (sep : ascii) (s : string) :
  (0 < List.length (split sep s))%nat.
Proof.
  pose proof (split_not_nil sep s) as H.
  destruct (split sep s); [congruence | simpl; lia].
Qed.

End StringFacts.

Module ArrayFacts.
Import JsArray.

Lemma firstn_In {A : Type} (n : nat) (l : list A) (a : A) :
  In a (firstn n l) -> In a l.
Proof.
  intros H. rewrite <- (firstn_skipn n l). apply in_or_app. now left.
Qed.

Section ByKey.
Context {A : Type} (key : A -> Q).

(** The comparator [(a, b) => key(b) - key(a)]. *)
Let cmp (a b : A) : Q := key b - key a.

Lemma cmp_le (x y : A) : Qle_bool (cmp x y) 0 = true <-> key y <= key x.
Proof.
  unfold cmp. rewrite Qle_bool_iff. split; intros H.
  - apply Qplus_le_l with (z := - key x). 
    rewrite Qplus_opp_r. exact H.
  - apply Qplus_le_l with (z := - key x) in H.
    rewrite Qplus_opp_r in H. exact H.
Qed.

Lemma insert_In (x y : A) (l : list A) :
  In y (insert cmp x l) <-> y = x \/ In y l.
Proof.
  induction l as [|z l IH]; simpl.
  - intuition.
  - destruct (Qle_bool (cmp x z) 0); simpl; [intuition|].
    rewrite IH. intuition.
Qed.

Lemma sort_In (y : A) (l : list A) : In y (sort cmp l) <-> In y l.
Proof.
  induction l as [|x l IH]; simpl; [reflexivity|].
  rewrite insert_In, IH. intuition.
Qed.

Lemma insert_Permutation (x : A) (l : list A) :
  Permutation (x :: l) (insert cmp x l).
Proof.
  induction l as [|z l IH]; simpl; [reflexivity|].
  destruct (Qle_bool (cmp x z) 0); [reflexivity|].
  rewrite perm_swap. now apply perm_skip.
Qed.

(** Sorting neither loses nor duplicates an element. *)
Lemma sort_Permutation (l : list A) : Permutation l (sort cmp l).
Proof.
  induction l as [|x l IH]; simpl; [reflexivity|].
  rewrite <- insert_Permutation. now apply perm_skip.
Qed.

Lemma insert_length (x : A) (l : list A) :
  List.length (insert cmp x l) = S (List.length l).
Proof.
  induction l as [|z l IH]; simpl; [reflexivity|].
  destruct (Qle_bool (cmp x z) 0); simpl; congruence.
Qed.

Lemma sort_length (l : list A) : List.length (sort cmp l) = List.length l.
Proof.
  induction l as [|x l IH]; simpl; [reflexivity|].
  now rewrite insert_length, IH.
Qed.

Lemma insert_Descending (x : A) (l : list A) :
  Descending key l -> Descending key (insert cmp x l).
Proof.
  unfold Descending.
  induction l as [|z l IH]; intros Hs; simpl.
  - constructor; constructor.
  - destruct (Qle_bool (cmp x z) 0) eqn:E.
    + apply cmp_le in E. constructor; [exact Hs|].
      constructor; [exact E|].
      apply StronglySorted_inv in Hs. destruct Hs as [_ Hall].
      eapply Forall_impl; [|exact Hall].
      intros a Ha. simpl in Ha. eapply Qle_trans; eassumption.
    + assert (Hlt : key x <= key z).
      { destruct (Qlt_le_dec (key x) (key z)) as [Hl|Hl].
        - now apply Qlt_le_weak.
        - apply cmp_le in Hl. congruence. }
      apply StronglySorted_inv in Hs. destruct Hs as [Hs Hall].
      constructor; [now apply IH|].
      apply Forall_forall. intros a Ha.
      apply insert_In in Ha. destruct Ha as [->|Ha]; [exact Hlt|].
      rewrite Forall_forall in Hall. now apply Hall.
Qed.

Lemma sort_Descending (l : list A) : Descending key (sort cmp l).
Proof.
  induction l as [|x l IH]; simpl.
  - constructor.
  - now apply insert_Descending.
Qed.

Lemma firstn_Descending (n : nat) (l : list A) :
  Descending key l -> Descending key (firstn n l).
Proof.
  unfold Descending. revert l.
  induction n as [|n IH]; intros l Hs; simpl; [constructor|].
  destruct l as [|x l]; [constructor|].
  apply StronglySorted_inv in Hs. destruct Hs as [Hs Hall].
  constructor; [now apply IH|].
  apply Forall_forall. intros a Ha.
  rewrite Forall_forall in Hall. apply Hall.
  now apply firstn_In in Ha.
Qed.

End ByKey.

End ArrayFacts.

(* ================================================================== *)
(** * Facts about binary64 arithmetic *)
(* ================================================================== *)

(** Sign symmetry and signs of the IEEE operations, proved on the
    specification of the primitive floats ([SpecFloat]). *)
Module FloatFacts.
Import JsNumber.
Local Open Scope float_scope.

Abbreviation emin := (SpecFloat.emin prec emax).

(** ** Negation commutes with multiplication, division and subtraction *)

Lemma Prim2SF_inj (x y : float) : Prim2SF x = Prim2SF y -> x = y.
Proof.
  intros H. rewrite <- (SF2Prim_Prim2SF x), <- (SF2Prim_Prim2SF y). now rewrite H.
Qed.

Lemma SFopp_involutive (x : spec_float) : SFopp (SFopp x) = x.
Proof. destruct x as [s|s| |s m e]; simpl; try rewrite negb_involutive; reflexivity. Qed.

Lemma opp_involutive (x : float) : - - x = x.
Proof. apply Prim2SF_inj. rewrite !opp_spec. apply SFopp_involutive. Qed.

Lemma binary_round_aux_negb (s : bool) (m e : Z) (l : location) :
  binary_round_aux prec emax (negb s) m e l
  = SFopp (binary_round_aux prec emax s m e l).
Proof.
  unfold binary_round_aux.
  destruct (shr_fexp prec emax m e l) as [mrs' e'].
  destruct (shr_fexp prec emax _ e' loc_Exact) as [mrs'' e''].
  destruct (shr_m mrs'') as [|p|p]; try reflexivity.
  destruct (Z.leb e'' (emax - prec)); reflexivity.
Qed.

Lemma SFmul_opp_l (x y : spec_float) :
  SF64mul (SFopp x) y = SFopp (SF64mul x y).
Proof.
  unfold SF64mul.
  destruct x as [sx|sx| |sx mx ex], y as [sy|sy| |sy my ey]; simpl;
    try reflexivity; try (now destruct sx, sy).
  rewrite <- binary_round_aux_negb. now destruct sx, sy.
Qed.

Lemma SFmul_comm (x y : spec_float) : SF64mul x y = SF64mul y x.
Proof.
  unfold SF64mul.
  destruct x as [sx|sx| |sx mx ex], y as [sy|sy| |sy my ey]; simpl;
    try reflexivity; try (now rewrite xorb_comm).
  now rewrite xorb_comm, Pos.mul_comm, Z.add_comm.
Qed.

Lemma SFdiv_opp_l (x y : spec_float) :
  SF64div (SFopp x) y = SFopp (SF64div x y).
Proof.
  unfold SF64div.
  destruct x as [sx|sx| |sx mx ex], y as [sy|sy| |sy my ey]; simpl;
    try reflexivity; try (now destruct sx, sy).
  destruct (SFdiv_core_binary prec emax (Z.pos mx) ex (Z.pos my) ey) as [[mz ez] lz].
  rewrite <- binary_round_aux_negb. now destruct sx, sy.
Qed.

Lemma mul_opp_l (x y : float) : (- x) * y = - (x * y).
Proof. apply Prim2SF_inj. rewrite opp_spec, !mul_spec, opp_spec. apply SFmul_opp_l. Qed.

Lemma mul_comm (x y : float) : x * y = y * x.
Proof. apply Prim2SF_inj. rewrite !mul_spec. apply SFmul_comm. Qed.

Lemma mul_opp_r (x y : float) : x * (- y) = - (x * y).
Proof. rewrite (mul_comm x (- y)), mul_opp_l. now rewrite (mul_comm y x). Qed.

Lemma mul_opp_opp (x y : float) : (- x) * (- y) = x * y.
Proof. now rewrite mul_opp_l, mul_opp_r, opp_involutive. Qed.

Lemma div_opp_l (x y : float) : (- x) / y = - (x / y).
Proof. apply Prim2SF_inj. rewrite opp_spec, !div_spec, opp_spec. apply SFdiv_opp_l. Qed.

Lemma binary_normalize_opp (m e : Z) :
  m <> 0%Z ->
  binary_normalize prec emax (- m) e false
  = SFopp (binary_normalize prec emax m e false).
Proof.
  intros Hm. unfold binary_normalize, binary_round.
  destruct m as [|p|p]; [congruence| |]; simpl;
    destruct (shl_align p e _) as [mz ez];
    now rewrite <- binary_round_aux_negb.
Qed.

Lemma SFsub_swap (x y : spec_float) :
  SF64sub y x = SFopp (SF64sub x y) \/ SF64sub y x = SF64sub x y.
Proof.
  unfold SF64sub.
  destruct x as [sx|sx| |sx mx ex], y as [sy|sy| |sy my ey]; simpl;
    try (left; reflexivity); try (right; reflexivity);
    try (destruct sx, sy; simpl; auto; fail);
    try (left; now rewrite negb_involutive).
  rewrite (Z.min_comm ey ex).
  set (a := cond_Zopp sx (Z.pos (fst (shl_align mx ex (Z.min ex ey))))).
  set (b := cond_Zopp sy (Z.pos (fst (shl_align my ey (Z.min ex ey))))).
  destruct (Z.eq_dec (a - b) 0) as [E|E].
  - right. replace (b - a)%Z with 0%Z by lia. now rewrite E.
  - left. replace (b - a)%Z with (- (a - b))%Z by lia.
    now apply binary_normalize_opp.
Qed.

Lemma sub_swap (x y : float) : y - x = - (x - y) \/ y - x = x - y.
Proof.
  destruct (SFsub_swap (Prim2SF x) (Prim2SF y)) as [H|H]; [left|right];
    apply Prim2SF_inj; rewrite ?opp_spec, !sub_spec; exact H.
Qed.

(** ** Rounding never turns a non-zero sum into a zero *)

Lemma shr_1_m (r : shr_record) :
  (0 <= shr_m r)%Z -> shr_m (shr_1 r) = Z.div2 (shr_m r).
Proof.
  destruct r as [m rb sb]. simpl.
  destruct m as [|[p|p|]|p]; simpl; intros H; try reflexivity; lia.
Qed.

Lemma iter_pos_nat {A : Type} (f : A -> A) (p : positive) (x : A) :
  iter_pos f p x = Nat.iter (Pos.to_nat p) f x.
Proof.
  revert x. induction p as [p IH|p IH|]; intros x; cbn [iter_pos].
  - rewrite !IH, Pos2Nat.inj_xI.
    replace (S (2 * Pos.to_nat p)) with (Pos.to_nat p + S (Pos.to_nat p))%nat by lia.
    rewrite Nat.iter_add, Nat.iter_succ_r. reflexivity.
  - rewrite !IH, Pos2Nat.inj_xO.
    replace (2 * Pos.to_nat p)%nat with (Pos.to_nat p + Pos.to_nat p)%nat by lia.
    now rewrite Nat.iter_add.
  - reflexivity.
Qed.

Lemma iter_shr_1_pos (n : nat) (r : shr_record) :
  (2 ^ Z.of_nat n <= shr_m r)%Z ->
  (1 <= shr_m (Nat.iter n shr_1 r))%Z.
Proof.
  revert r. induction n as [|n IH]; intros r H.
  - simpl in *. lia.
  - rewrite Nat.iter_succ_r. apply IH.
    rewrite Nat2Z.inj_succ, Z.pow_succ_r in H by lia.
    assert (H0 : (0 <= shr_m r)%Z).
    { pose proof (Z.pow_pos_nonneg 2 (Z.of_nat n)). lia. }
    rewrite shr_1_m by exact H0.
    rewrite Z.div2_div. apply Z.div_le_lower_bound; lia.
Qed.

Lemma digits2_pos_le (p : positive) :
  (2 ^ (Z.pos (digits2_pos p) - 1) <= Z.pos p)%Z.
Proof.
  induction p as [p IH|p IH|]; simpl digits2_pos.
  - rewrite Pos2Z.inj_succ.
    replace (Z.succ (Z.pos (digits2_pos p)) - 1)%Z
      with (Z.succ (Z.pos (digits2_pos p) - 1))%Z by lia.
    rewrite Z.pow_succ_r by lia. lia.
  - rewrite Pos2Z.inj_succ.
    replace (Z.succ (Z.pos (digits2_pos p)) - 1)%Z
      with (Z.succ (Z.pos (digits2_pos p) - 1))%Z by lia.
    rewrite Z.pow_succ_r by lia. lia.
  - simpl. lia.
Qed.

Lemma shr_record_of_loc_m (m : Z) (l : location) :
  shr_m (shr_record_of_loc m l) = m.
Proof. destruct l as [|[]]; reflexivity. Qed.

(** Rounding a mantissa of at least [1] at an exponent of at least [emin]
    leaves a mantissa of at least [1]. *)
Lemma shr_fexp_pos (m e : Z) (l : location) :
  (1 <= m)%Z -> (emin <= e)%Z ->
  (1 <= shr_m (fst (shr_fexp prec emax m e l)))%Z
  /\ (emin <= snd (shr_fexp prec emax m e l))%Z.
Proof.
  intros Hm He. unfold shr_fexp, shr.
  destruct (fexp prec emax (Zdigits2 m + e) - e)%Z as [|p|p] eqn:En; simpl;
    rewrite ?shr_record_of_loc_m; try (split; lia).
  split; [|lia].
  rewrite iter_pos_nat. apply iter_shr_1_pos.
  rewrite shr_record_of_loc_m, positive_nat_Z.
  destruct m as [|pm|pm]; try lia.
  simpl Zdigits2 in En. unfold fexp in En.
  pose proof (digits2_pos_le pm) as Hd.
  assert (Hp : (Z.pos p <= Z.pos (digits2_pos pm) - 1)%Z).
  { change (SpecFloat.emin prec emax) with (-1074)%Z in *.
    change prec with 53%Z in En. change IntDef.Z.max with Z.max in En. lia. }
  eapply Z.le_trans; [|exact Hd].
  apply Z.pow_le_mono_r; lia.
Qed.

Lemma round_nearest_even_ge (m : Z) (l : location) :
  (m <= round_nearest_even m l)%Z.
Proof.
  unfold round_nearest_even. destruct l as [|[]]; try lia.
  destruct (Z.even m); lia.
Qed.

Lemma binary_round_aux_nonzero (s : bool) (m e : Z) (l : location) :
  (1 <= m)%Z -> (emin <= e)%Z ->
  SFis_zero (binary_round_aux prec emax s m e l) = false.
Proof.
  intros Hm He. unfold binary_round_aux.
  pose proof (shr_fexp_pos m e l Hm He) as [H1 H2].
  destruct (shr_fexp prec emax m e l) as [mrs' e']. simpl in H1, H2.
  pose proof (round_nearest_even_ge (shr_m mrs') (loc_of_shr_record mrs')) as Hr.
  pose proof (shr_fexp_pos (round_nearest_even (shr_m mrs') (loc_of_shr_record mrs'))
                e' loc_Exact ltac:(lia) H2) as [H3 _].
  destruct (shr_fexp prec emax _ e' loc_Exact) as [mrs'' e'']. simpl in H3.
  destruct (shr_m mrs'') as [|q|q]; try lia; try reflexivity.
  destruct (Z.leb e'' (emax - prec)); reflexivity.
Qed.

Lemma binary_round_nonzero (s : bool) (m : positive) (e : Z) :
  (emin <= e)%Z -> SFis_zero (binary_round prec emax s m e) = false.
Proof.
  intros He. unfold binary_round.
  destruct (shl_align m e (fexp prec emax (Z.pos (digits2_pos m) + e))) as [mz ez] eqn:Es.
  apply binary_round_aux_nonzero; [lia|].
  unfold shl_align in Es.
  destruct (fexp prec emax (Z.pos (digits2_pos m) + e) - e)%Z as [|d|d] eqn:Ed;
    injection Es as <- <-; try lia.
  unfold fexp. lia.
Qed.

(** A sum or difference of mantissas, normalised at an exponent of at least
    [emin] with [+0] for an exact zero, is never [-0]. *)
Lemma binary_normalize_not_negzero (m e : Z) :
  (emin <= e)%Z -> binary_normalize prec emax m e false <> S754_zero true.
Proof.
  intros He. unfold binary_normalize.
  destruct m as [|p|p]; [discriminate| |];
    pose proof (binary_round_nonzero false p e He) as H1;
    pose proof (binary_round_nonzero true p e He) as H2;
    intros E; rewrite E in *; discriminate.
Qed.

Lemma valid_exponent (s : bool) (m : positive) (e : Z) :
  valid_binary (S754_finite s m e) = true -> (emin <= e)%Z.
Proof.
  simpl. unfold bounded, canonical_mantissa. intros H.
  apply andb_prop in H. destruct H as [H _].
  apply Z.eqb_eq in H. unfold fexp in H. lia.
Qed.

(** ** Signs of products, quotients, sums and square roots *)

Lemma NotNegative_spec (x : float) :
  NotNegative x <-> SFnotneg (Prim2SF x) = true.
Proof.
  unfold NotNegative. rewrite ltb_spec.
  change (Prim2SF 0) with (S754_zero false).
  destruct (Prim2SF x) as [[]|[]| |[] m e]; cbv; split; congruence.
Qed.

Lemma binary_round_aux_signclear (m e : Z) (l : location) :
  SFsignclear (binary_round_aux prec emax false m e l) = true.
Proof.
  unfold binary_round_aux.
  destruct (shr_fexp prec emax m e l) as [mrs' e'].
  destruct (shr_fexp prec emax _ e' loc_Exact) as [mrs'' e''].
  destruct (shr_m mrs'') as [|p|p]; try reflexivity.
  destruct (Z.leb e'' (emax - prec)); reflexivity.
Qed.

Lemma SFsignclear_notneg (x : spec_float) :
  SFsignclear x = true -> SFnotneg x = true.
Proof. destruct x as [[]|[]| |[] m e]; simpl; congruence. Qed.

Lemma SFmul_notneg (x y : spec_float) :
  SFnotneg x = true -> SFnotneg y = true -> SFnotneg (SF64mul x y) = true.
Proof.
  unfold SF64mul.
  destruct x as [[]|[]| |[] mx ex], y as [[]|[]| |[] my ey]; simpl;
    try reflexivity; try discriminate.
  intros _ _. apply SFsignclear_notneg, binary_round_aux_signclear.
Qed.

Lemma SFdiv_notneg (x : spec_float) (my : positive) (ey : Z) :
  SFnotneg x = true -> SFnotneg (SF64div x (S754_finite false my ey)) = true.
Proof.
  unfold SF64div.
  destruct x as [[]|[]| |[] mx ex]; simpl; try reflexivity; try discriminate.
  intros _.
  destruct (SFdiv_core_binary prec emax (Z.pos mx) ex (Z.pos my) ey) as [[mz ez] lz].
  apply SFsignclear_notneg, binary_round_aux_signclear.
Qed.

Lemma SFsquare_signclear (x : spec_float) : SFsignclear (SF64mul x x) = true.
Proof.
  unfold SF64mul.
  destruct x as [[]|[]| |[] mx ex]; simpl; try reflexivity;
    apply binary_round_aux_signclear.
Qed.

Lemma SFadd_not_negzero (x y : spec_float) :
  valid_binary x = true -> valid_binary y = true ->
  SFsignclear x = true -> SF64add x y <> S754_zero true.
Proof.
  unfold SF64add. intros Vx Vy.
  destruct x as [[]|[]| |[] mx ex], y as [[]|[]| |[] my ey];
    try solve [simpl; discriminate]; intros _;
    unfold SFadd;
    apply binary_normalize_not_negzero;
    apply valid_exponent in Vx; apply valid_exponent in Vy; lia.
Qed.

Lemma SFsub_not_negzero (mx : positive) (ex : Z) (y : spec_float) :
  valid_binary (S754_finite false mx ex) = true -> valid_binary y = true ->
  SF64sub (S754_finite false mx ex) y <> S754_zero true.
Proof.
  unfold SF64sub. intros Vx Vy.
  destruct y as [[]|[]| |[] my ey]; try solve [simpl; discriminate];
    unfold SFsub;
    apply binary_normalize_not_negzero;
    apply valid_exponent in Vx; apply valid_exponent in Vy; lia.
Qed.

Lemma SFsqrt_signclear (x : spec_float) :
  x <> S754_zero true -> SFsignclear (SF64sqrt x) = true.
Proof.
  unfold SF64sqrt, SFsqrt. intros Hx.
  destruct x as [[]|[]| |[] mx ex]; simpl; try reflexivity; try congruence.
  destruct (SFsqrt_core_binary prec emax (Z.pos mx) ex) as [[mz ez] lz].
  apply binary_round_aux_signclear.
Qed.

Lemma mul_NotNegative (x y : float) :
  NotNegative x -> NotNegative y -> NotNegative (x * y).
Proof. rewrite !NotNegative_spec, mul_spec. apply SFmul_notneg. Qed.

Lemma div_ten_NotNegative (x : float) : NotNegative x -> NotNegative (x / 10).
Proof.
  rewrite !NotNegative_spec, div_spec.
  change (Prim2SF 10) with (S754_finite false 5629499534213120 (-49)).
  apply SFdiv_notneg.
Qed.

(** The square root of a sum whose first term is a square. *)
Lemma sqrt_sum_SignClear (s t : float) : SignClear (sqrt (s * s + t)).
Proof.
  unfold SignClear. rewrite sqrt_spec, add_spec, mul_spec.
  apply SFsqrt_signclear, SFadd_not_negzero.
  - rewrite <- mul_spec. apply Prim2SF_valid.
  - apply Prim2SF_valid.
  - apply SFsquare_signclear.
Qed.

Lemma sqrt_one_minus_SignClear (a : float) : SignClear (sqrt (1 - a)).
Proof.
  unfold SignClear. rewrite sqrt_spec, sub_spec.
  apply SFsqrt_signclear.
  change (Prim2SF 1) with (S754_finite false 4503599627370496 (-52)).
  apply SFsub_not_negzero.
  - reflexivity.
  - apply Prim2SF_valid.
Qed.


Lemma SFdiv_signclear_notneg (x y : spec_float) :
  SFsignclear x = true -> SFsignclear y = true ->
  SFnotneg (SF64div x y) = true.
Proof.
  unfold SF64div.
  destruct x as [[]|[]| |[] mx ex], y as [[]|[]| |[] my ey]; simpl;
    try reflexivity; try discriminate.
  intros _ _.
  destruct (SFdiv_core_binary prec emax (Z.pos mx) ex (Z.pos my) ey) as [[mz ez] lz].
  apply SFsignclear_notneg, binary_round_aux_signclear.
Qed.

Lemma div_SignClear_NotNegative (x y : float) :
  SignClear x -> SignClear y -> NotNegative (x / y).
Proof.
  unfold SignClear. rewrite NotNegative_spec, div_spec.
  apply SFdiv_signclear_notneg.
Qed.

(** ** Zeros *)

(** [x - x] is [+0] for every finite [x]. *)
Lemma sub_diag (x : float) : is_finite x = true -> x - x = 0.
Proof.
  intros Hf. apply Prim2SF_inj. rewrite sub_spec.
  change (Prim2SF 0) with (S754_zero false).
  unfold is_finite, is_nan, is_infinity in Hf.
  rewrite !eqb_spec, abs_spec in Hf.
  change (Prim2SF infinity) with (S754_infinity false) in Hf.
  unfold SF64sub.
  destruct (Prim2SF x) as [[]|[]| |s m e]; try reflexivity; try discriminate.
  unfold SFsub. cbv zeta. now rewrite Z.sub_diag.
Qed.

(** A square of at most [1], multiplied by [+0], is [+0]. *)
Lemma square_mul_zero (c : float) : (c * c <=? 1) = true -> c * c * 0 = 0.
Proof.
  intros Hle. apply Prim2SF_inj. rewrite mul_spec.
  rewrite leb_spec in Hle.
  pose proof (SFsquare_signclear (Prim2SF c)) as Hs.
  rewrite <- mul_spec in Hs.
  change (Prim2SF 0) with (S754_zero false).
  change (Prim2SF 1) with (S754_finite false 4503599627370496 (-52)) in Hle.
  destruct (Prim2SF (c * c)) as [[]|[]| |[] m e]; try discriminate; reflexivity.
Qed.

(** ** NaN *)

Lemma div_nan_r (y : float) : y / nan = nan.
Proof.
  apply Prim2SF_inj. rewrite div_spec.
  change (Prim2SF nan) with S754_nan.
  unfold SF64div, SFdiv. destruct (Prim2SF y) as [[]|[]| |[] m e]; reflexivity.
Qed.

End FloatFacts.

(* ================================================================== *)
(** * Facts about the in-memory search *)
(* ================================================================== *)

Module RouteFacts.
Import JsString JsNumber JsArray Eff Route.

Lemma matchCount_acc (text : string) (words : list string) (n : nat) :
  fold_left (fun count word => if includes text word then S count else count)
            words n
  = (n + List.length (List.filter (includes text) words))%nat.
Proof.
  revert n; induction words as [|w words IH]; intros n; simpl.
  - lia.
  - rewrite IH. destruct (includes text w); simpl; lia.
Qed.

(** The loop counts the words that occur in the text. *)
Lemma matchCount_filter (text : string) (words : list string) :
  matchCount text words = List.length (List.filter (includes text) words).
Proof. unfold matchCount. now rewrite matchCount_acc. Qed.

Lemma matchCount_le (text : string) (words : list string) :
  (matchCount text words <= List.length words)%nat.
Proof. rewrite matchCount_filter. apply filter_length_le. Qed.

Lemma matchCount_zero (text : string) (words : list string) :
  matchCount text words = 0%nat <->
  forall word, In word words -> includes text word = false.
Proof.
  rewrite matchCount_filter. split.
  - intros H word Hin.
    destruct (includes text word) eqn:E; [|reflexivity].
    assert (Hf : In word (List.filter (includes text) words))
      by (apply filter_In; auto).
    apply length_zero_iff_nil in H. rewrite H in Hf. contradiction.
  - intros H. apply length_zero_iff_nil.
    destruct (List.filter (includes text) words) as [|w l] eqn:E; [reflexivity|].
    assert (Hf : In w (List.filter (includes text) words))
      by (rewrite E; now left).
    apply filter_In in Hf. destruct Hf as [Hin Hw].
    rewrite (H w Hin) in Hw. discriminate.
Qed.

(** A quotient of two counts, the first at most the second and the second
    positive, lies in the unit interval and vanishes with its numerator. *)
Lemma ratio_bounds (m n : nat) :
  (m <= n)%nat -> (0 < n)%nat ->
  0 <= inject_Z (Z.of_nat m) / inject_Z (Z.of_nat n)
  /\ inject_Z (Z.of_nat m) / inject_Z (Z.of_nat n) <= 1.
Proof.
  intros Hmn Hn.
  assert (Hpos : 0 < inject_Z (Z.of_nat n)).
  { change 0 with (inject_Z 0). rewrite <- Zlt_Qlt. lia. }
  split.
  - apply Qle_shift_div_l; [exact Hpos|].
    rewrite Qmult_0_l. change 0 with (inject_Z 0). rewrite <- Zle_Qle. lia.
  - apply Qle_shift_div_r; [exact Hpos|].
    rewrite Qmult_1_l. rewrite <- Zle_Qle. lia.
Qed.

Lemma ratio_zero (m n : nat) :
  (0 < n)%nat ->
  (inject_Z (Z.of_nat m) / inject_Z (Z.of_nat n) == 0 <-> m = 0%nat).
Proof.
  intros Hn.
  assert (Hpos : 0 < inject_Z (Z.of_nat n)).
  { change 0 with (inject_Z 0). rewrite <- Zlt_Qlt. lia. }
  split.
  - intros H.
    destruct m as [|m]; [reflexivity|exfalso].
    assert (Hm : 0 < inject_Z (Z.of_nat (S m)) / inject_Z (Z.of_nat n)).
    { apply Qlt_shift_div_l; [exact Hpos|].
      rewrite Qmult_0_l. change 0 with (inject_Z 0). rewrite <- Zlt_Qlt. lia. }
    rewrite H in Hm. now apply Qlt_irrefl in Hm.
  - intros ->. simpl. unfold Qdiv. now rewrite Qmult_0_l.
Qed.

Lemma queryWords_pos (lowercaseQuery : string) :
  (0 < List.length (queryWords lowercaseQuery))%nat.
Proof. apply StringFacts.split_length_pos. Qed.

Lemma score_of_bounds (lowercaseQuery : string) (location : Location) :
  0 <= score_of lowercaseQuery location /\ score_of lowercaseQuery location <= 1.
Proof.
  unfold score_of. apply ratio_bounds.
  - apply matchCount_le.
  - apply queryWords_pos.
Qed.

(** The score is zero exactly when no query word occurs in the text. *)
Lemma score_of_zero (lowercaseQuery : string) (location : Location) :
  score_of lowercaseQuery location == 0 <->
  forall word, In word (queryWords lowercaseQuery) ->
               includes (searchText location) word = false.
Proof.
  unfold score_of. rewrite ratio_zero by apply queryWords_pos.
  apply matchCount_zero.
Qed.

(** The score is positive exactly when some query word occurs in the text. *)
Lemma score_of_pos (lowercaseQuery : string) (location : Location) :
  0 < score_of lowercaseQuery location <->
  exists word, In word (queryWords lowercaseQuery)
               /\ includes (searchText location) word = true.
Proof.
  split.
  - intros Hpos.
    destruct (existsb (includes (searchText location)) (queryWords lowercaseQuery)) eqn:E.
    + apply existsb_exists in E. exact E.
    + exfalso.
      assert (Hz : score_of lowercaseQuery location == 0).
      { apply score_of_zero. intros word Hin.
        destruct (includes (searchText location) word) eqn:Ew; [|reflexivity].
        assert (Hex : existsb (includes (searchText location))
                        (queryWords lowercaseQuery) = true)
          by (apply existsb_exists; eauto).
        congruence. }
      rewrite Hz in Hpos. now apply Qlt_irrefl in Hpos.
  - intros [word [Hin Hw]].
    destruct (score_of_bounds lowercaseQuery location) as [H0 _].
    apply Qle_lteq in H0. destruct H0 as [H0|H0]; [exact H0|exfalso].
    symmetry in H0. apply score_of_zero with (word := word) in H0; [|exact Hin].
    congruence.
Qed.

Lemma strict_eq_Some (a : option bool) (b : bool) :
  strict_eq a (Some b) = true <-> a = Some b.
Proof. destruct a as [[]|], b; simpl; split; intros; congruence. Qed.

Lemma category_differs_false (filters : option SearchFilters) (r : SearchResult) :
  category_differs filters r = false <->
  forall c, filters_category filters = Some c -> truthy c = true ->
            res_category r = c.
Proof.
  unfold category_differs. destruct (filters_category filters) as [c|].
  - destruct (truthy c) eqn:Et; simpl.
    + rewrite negb_false_iff, String.eqb_eq. split.
      * intros H c' Hc _. congruence.
      * intros H. now apply H.
    + split; [|reflexivity]. intros _ c' Hc Ht. congruence.
  - split; [|reflexivity]. intros _ c' Hc. discriminate.
Qed.

Lemma halalCertified_differs_false (filters : option SearchFilters) (r : SearchResult) :
  halalCertified_differs filters r = false <->
  forall b, filters_halalCertified filters = Some b -> res_halalCertified r = Some b.
Proof.
  unfold halalCertified_differs. destruct (filters_halalCertified filters) as [b|].
  - rewrite negb_false_iff, strict_eq_Some. split.
    + intros H b' Hb. congruence.
    + intros H. now apply H.
  - split; [|reflexivity]. intros _ b' Hb. discriminate.
Qed.

Lemma familyFriendly_differs_false (filters : option SearchFilters) (r : SearchResult) :
  familyFriendly_differs filters r = false <->
  forall b, filters_familyFriendly filters = Some b -> res_familyFriendly r = Some b.
Proof.
  unfold familyFriendly_differs. destruct (filters_familyFriendly filters) as [b|].
  - rewrite negb_false_iff, strict_eq_Some. split.
    + intros H b' Hb. congruence.
    + intros H. now apply H.
  - split; [|reflexivity]. intros _ b' Hb. discriminate.
Qed.

Lemma truthyQ_true (q : Q) : truthyQ q = true <-> ~ q == 0.
Proof.
  unfold truthyQ. rewrite negb_true_iff. split.
  - intros H Hq. apply Qeq_bool_iff in Hq. congruence.
  - intros H. destruct (Qeq_bool q 0) eqn:E; [|reflexivity].
    apply Qeq_bool_iff in E. contradiction.
Qed.

Lemma Qltb_false (a b : Q) : Qltb a b = false <-> b <= a.
Proof. unfold Qltb. rewrite negb_false_iff. apply Qle_bool_iff. Qed.

Lemma rating_below_false (filters : option SearchFilters) (r : SearchResult) :
  rating_below filters r = false <->
  forall q, filters_rating filters = Some q -> ~ q == 0 -> q <= res_rating r.
Proof.
  unfold rating_below. destruct (filters_rating filters) as [q|].
  - destruct (truthyQ q) eqn:Et; simpl.
    + apply truthyQ_true in Et. rewrite Qltb_false. split.
      * intros H q' Hq _. injection Hq as <-. exact H.
      * intros H. now apply H.
    + split; [|reflexivity]. intros _ q' Hq Hn. injection Hq as <-.
      apply truthyQ_true in Hn. congruence.
  - split; [|reflexivity]. intros _ q' Hq. discriminate.
Qed.

(** What passing the [.filter] callback means, condition by condition. *)
Lemma keep_true (filters : option SearchFilters) (r : SearchResult) :
  keep filters r = true <->
  ~ similarityScore r == 0
  /\ category_differs filters r = false
  /\ halalCertified_differs filters r = false
  /\ familyFriendly_differs filters r = false
  /\ rating_below filters r = false.
Proof.
  unfold keep.
  destruct (Qeq_bool (similarityScore r) 0) eqn:Es.
  - apply Qeq_bool_iff in Es. split; [discriminate|]. intros [H _]. contradiction.
  - assert (Hs : ~ similarityScore r == 0).
    { intros H. apply Qeq_bool_iff in H. congruence. }
    destruct (category_differs filters r), (halalCertified_differs filters r),
      (familyFriendly_differs filters r), (rating_below filters r);
      split; intros H; try discriminate; try reflexivity;
      try (repeat split; solve [exact Hs | reflexivity]);
      destruct H as (_ & H1 & H2 & H3 & H4); discriminate.
Qed.

(** The ranked list: every element is the image of a catalogue entry that
    passed the filter. *)
Lemma rank_In (locations : list Location) (q : string)
    (filters : option SearchFilters) (r : SearchResult) :
  In r (rank locations q filters) ->
  exists location,
    In location locations
    /\ r = toResult (toLowerCase q) location
    /\ keep filters r = true.
Proof.
  unfold rank, slice0. intros H.
  apply ArrayFacts.firstn_In in H.
  apply (proj1 (ArrayFacts.sort_In similarityScore r _)) in H.
  apply filter_In in H. destruct H as [H Hk].
  apply in_map_iff in H. destruct H as [location [Heq Hin]].
  exists location. auto.
Qed.

Lemma rank_length (locations : list Location) (q : string)
    (filters : option SearchFilters) :
  (List.length (rank locations q filters) <= 10)%nat.
Proof. unfold rank, slice0. apply firstn_le_length. Qed.

Lemma rank_Descending (locations : list Location) (q : string)
    (filters : option SearchFilters) :
  JsArray.Descending similarityScore (rank locations q filters).
Proof.
  unfold rank, slice0. apply ArrayFacts.firstn_Descending.
  apply (ArrayFacts.sort_Descending similarityScore).
Qed.

(** [performInMemorySearch] never throws: it reads the clock, the catalogue
    and the clock again, and returns the ranked list. *)
Lemma performInMemorySearch_run (h : Host) (q : string)
    (filters : option SearchFilters) (t : Trace) :
  performInMemorySearch h q filters t =
  (inr {| results := rank (getAllLocations h) q filters;
          total := List.length (rank (getAllLocations h) q filters);
          queryTimeMs :=
            (Date_now h (S (List.length (List.filter is_now t)))
             - Date_now h (List.length (List.filter is_now t)))%Z;
          suggestions := generateSuggestions q |},
   (t ++ [EvNow; EvGetAllLocations; EvNow])%list).
Proof.
  unfold performInMemorySearch, bind, now, call, ret. simpl.
  repeat rewrite <- app_assoc. simpl.
  repeat rewrite filter_app. simpl.
  repeat rewrite length_app. simpl.
  repeat rewrite Nat.add_0_r. rewrite Nat.add_1_r.
  reflexivity.
Qed.

End RouteFacts.

(* ================================================================== *)
(** * Facts about the Qdrant service *)
(* ================================================================== *)

Module QdrantFacts.
Import JsString JsNumber Eff Qdrant.

(** The three ways [searchLocations] can run: the embedding call throws,
    the index call throws, or both resolve.  Each external call is made at
    most once. *)
Lemma searchLocations_run {Math : MathObject} (h : Host) (request : SearchRequest)
    (t : Trace) :
  searchLocations h request t =
  let q := query request in
  let l := limitParam request in
  let f := filterParam (buildFilter (filters request)) in
  let n := List.length (List.filter is_now t) in
  match embedContent h q with
  | inl _ =>
      (inl (ErrorObj "Failed to generate embedding"),
       (t ++ [EvNow; EvEmbedContent q;
              EvConsoleError "Gemini embedding error:";
              EvConsoleError "Search failed:"])%list)
  | inr v =>
      match qdrant_search h v l f with
      | inl e =>
          (inl e,
           (t ++ [EvNow; EvEmbedContent q; EvQdrantSearch v l f;
                  EvConsoleError "Search failed:"])%list)
      | inr hits =>
          (inr {| results := List.map (mapHit request) hits;
                  total := List.length (List.map (mapHit request) hits);
                  queryTimeMs := (Date_now h (S n) - Date_now h n)%Z;
                  suggestions := generateSearchSuggestions q |},
           (t ++ [EvNow; EvEmbedContent q; EvQdrantSearch v l f; EvNow])%list)
      end
  end.
Proof.
  unfold searchLocations, Gemini.generateEmbedding, try_catch, bind, now,
    call, console_error, throw, ret, call.
  cbv zeta.
  destruct (embedContent h (query request)) as [e|v].
  - repeat rewrite <- app_assoc. reflexivity.
  - destruct (qdrant_search h v (limitParam request)
                (filterParam (buildFilter (filters request)))) as [e|hits].
    + repeat rewrite <- app_assoc. reflexivity.
    + repeat rewrite <- app_assoc. simpl.
      repeat rewrite filter_app. simpl.
      repeat rewrite length_app. simpl.
      repeat rewrite Nat.add_0_r. rewrite Nat.add_1_r.
      reflexivity.
Qed.

(** A response of [searchLocations] is the image of one answer of the index
    to the parameters built from the request. *)
Lemma searchLocations_inr {Math : MathObject} (h : Host) (request : SearchRequest)
    (t t' : Trace) (resp : SearchResponse) :
  searchLocations h request t = (inr resp, t') ->
  exists v hits,
    embedContent h (query request) = inr v
    /\ qdrant_search h v (limitParam request)
         (filterParam (buildFilter (filters request))) = inr hits
    /\ results resp = List.map (mapHit request) hits
    /\ total resp = List.length (results resp)
    /\ suggestions resp = generateSearchSuggestions (query request).
Proof.
  rewrite searchLocations_run. cbv zeta.
  destruct (embedContent h (query request)) as [e|v]; [discriminate|].
  destruct (qdrant_search h v (limitParam request)
              (filterParam (buildFilter (filters request)))) as [e|hits] eqn:Eh;
    [discriminate|].
  intros H. injection H as <- _. exists v, hits. simpl. auto.
Qed.

(** The conditions on [must], read off the four [if]s. *)
Lemma buildFilter_In (filters : option SearchFilters) (c : Condition) :
  In c (must (buildFilter filters)) <->
  (exists s, Route.filters_category filters = Some s /\ truthy s = true
             /\ c = Match "category" (VString s))
  \/ (exists b, Route.filters_halalCertified filters = Some b
                /\ c = Match "halalCertified" (VBool b))
  \/ (exists b, Route.filters_familyFriendly filters = Some b
                /\ c = Match "familyFriendly" (VBool b))
  \/ (exists r, Route.filters_rating filters = Some r /\ truthyQ r = true
                /\ c = Range "rating" r).
Proof.
  unfold buildFilter. cbn [must]. rewrite !in_app_iff.
  assert (H1 : In c match Route.filters_category filters with
                    | Some s => if truthy s then [Match "category" (VString s)] else []
                    | None => []
                    end <->
               exists s, Route.filters_category filters = Some s /\ truthy s = true
                         /\ c = Match "category" (VString s)).
  { destruct (Route.filters_category filters) as [s|].
    - destruct (truthy s) eqn:Es; simpl; split.
      + intros [<-|[]]. eauto.
      + intros (s' & Hs & _ & ->). injection Hs as <-. now left.
      + intros [].
      + intros (s' & Hs & Ht & _). injection Hs as <-. congruence.
    - simpl. split; [intros [] | intros (s' & Hs & _); discriminate]. }
  assert (H2 : forall (o : option bool) (key : string),
             In c match o with
                  | Some b => [Match key (VBool b)]
                  | None => []
                  end <->
             exists b, o = Some b /\ c = Match key (VBool b)).
  { intros [b|] key; simpl; split.
    - intros [<-|[]]. eauto.
    - intros (b' & Hb & ->). injection Hb as <-. now left.
    - intros [].
    - intros (b' & Hb & _). discriminate. }
  assert (H4 : In c match Route.filters_rating filters with
                    | Some r => if truthyQ r then [Range "rating" r] else []
                    | None => []
                    end <->
               exists r, Route.filters_rating filters = Some r /\ truthyQ r = true
                         /\ c = Range "rating" r).
  { destruct (Route.filters_rating filters) as [r|].
    - destruct (truthyQ r) eqn:Er; simpl; split.
      + intros [<-|[]]. eauto.
      + intros (r' & Hr & _ & ->). injection Hr as <-. now left.
      + intros [].
      + intros (r' & Hr & Ht & _). injection Hr as <-. congruence.
    - simpl. split; [intros [] | intros (r' & Hr & _); discriminate]. }
  rewrite H1, !H2, H4. reflexivity.
Qed.

(** A filter with a condition is sent to the index. *)
Lemma filterParam_Some (f : Filter) (c : Condition) :
  In c (must f) -> filterParam f = Some f.
Proof. unfold filterParam. destruct (must f); [contradiction|reflexivity]. Qed.

(** A hit that passes the filter built from [filters] satisfies each of its
    conditions. *)
Lemma passes_buildFilter (filters : option SearchFilters) (hit : ScoredPoint)
    (c : Condition) :
  Index.passes (filterParam (buildFilter filters)) hit = true ->
  In c (must (buildFilter filters)) ->
  Index.cond_holds (payload hit) c = true.
Proof.
  intros Hp Hin. rewrite (filterParam_Some _ c Hin) in Hp.
  unfold Index.passes in Hp. rewrite forallb_forall in Hp. now apply Hp.
Qed.

End QdrantFacts.

(* ================================================================== *)
(** * Facts about the HTTP handler *)
(* ================================================================== *)

Module HandlerFacts.
Import JsString JsNumber Eff Handler.

(** A signed-in user within the rate limit who sends a JSON object: the
    handler validates [query], and only then runs the search step. *)
Lemma handle_object (h : Host) (search : string -> JsonBody -> M SearchResponse)
    (request : NextRequest) (t : Trace) (userId : option string)
    (q : JsValue) (f : option SearchFilters) (l : option Z)
    (u : option UserLocation) :
  auth h = inr userId ->
  signed_in userId = true ->
  allowed (searchRateLimiter_check h (uid_of userId)) = true ->
  json request = inr (BodyObject q f l u) ->
  handle h search request t =
  let t0 := (t ++ [EvAuth; EvRateLimitCheck (uid_of userId); EvRequestJson])%list in
  if negb (truthy_value q) || negb (is_string q) then (inr invalid_request, t0)
  else match search (string_of q) (BodyObject q f l u) t0 with
       | (inl e, t') =>
           (inr (internal_error e), (t' ++ [EvConsoleError "Search API error:"])%list)
       | (inr resp, t') => (inr (ok resp), t')
       end.
Proof.
  intros Ha Hs Hr Hj.
  unfold handle, try_catch, bind, call, console_error, call, ret, throw.
  rewrite Ha, Hs, Hr, Hj. cbn [negb]. cbv beta iota zeta.
  repeat rewrite <- app_assoc. cbn [app].
  destruct (negb (truthy_value q) || negb (is_string q)); cbv beta iota;
    [reflexivity|].
  destruct (search (string_of q) (BodyObject q f l u)
              (t ++ [EvAuth; EvRateLimitCheck (uid_of userId); EvRequestJson])%list)
    as [[e|resp] t']; reflexivity.
Qed.

(** The validation of line 138 lets through the non-empty strings and
    nothing else. *)
Lemma validation_passes (q : JsValue) :
  negb (truthy_value q) || negb (is_string q) = false <->
  exists s, q = JString s /\ s <> EmptyString.
Proof.
  destruct q as [| |b|n|s| |]; simpl;
    try (split; [try discriminate; rewrite ?orb_true_r; discriminate
                | intros (s' & H & _); discriminate]).
  destruct s as [|c s]; simpl; split.
  - discriminate.
  - intros (s' & H & Hne). injection H as <-. congruence.
  - intros _. exists (String c s). split; [reflexivity|discriminate].
  - reflexivity.
Qed.

End HandlerFacts.

(* ================================================================== *)
(** * The sample index keeps the contract *)
(* ================================================================== *)

Module SampleFacts.
Import Sample.

Lemma index_inv (v : Embedding) (l : Z) (f : option Filter) (hits : list ScoredPoint) :
  qdrant_search host v l f = inr hits ->
  hits = firstn (Z.to_nat l) (List.filter (Index.passes f) stored).
Proof. simpl. unfold index. intros H. now injection H. Qed.

Lemma host_honours_filter : Index.HonoursFilter host.
Proof.
  intros v l f hits H. apply index_inv in H. subst hits.
  apply Forall_forall. intros hit Hin.
  apply ArrayFacts.firstn_In in Hin. apply filter_In in Hin. tauto.
Qed.

Lemma host_honours_limit : Index.HonoursLimit host.
Proof.
  intros v l f hits H Hl. apply index_inv in H. subst hits.
  pose proof (firstn_le_length (Z.to_nat l)
                (List.filter (Index.passes f) stored)) as Hlen.
  lia.
Qed.

Lemma stored_ranked : Index.Ranked stored.
Proof.
  unfold Index.Ranked, stored.
  repeat (constructor; [|repeat (constructor; [simpl; unfold Qle; simpl; lia|])]);
    constructor.
Qed.

Lemma filter_ranked (p : ScoredPoint -> bool) (l : list ScoredPoint) :
  Index.Ranked l -> Index.Ranked (List.filter p l).
Proof.
  unfold Index.Ranked. induction l as [|x l IH]; intros Hs; simpl; [constructor|].
  apply StronglySorted_inv in Hs. destruct Hs as [Hs Hall].
  destruct (p x); [|now apply IH].
  constructor; [now apply IH|].
  apply Forall_forall. intros a Ha. apply filter_In in Ha.
  rewrite Forall_forall in Hall. now apply Hall.
Qed.

Lemma host_ranks : Index.Ranks host.
Proof.
  intros v l f hits H. apply index_inv in H. subst hits.
  apply (ArrayFacts.firstn_Descending score), filter_ranked, stored_ranked.
Qed.

Lemma host_scores_in_unit : Index.ScoresInUnit host.
Proof.
  intros v l f hits H. apply index_inv in H. subst hits.
  apply Forall_forall. intros hit Hin.
  apply ArrayFacts.firstn_In in Hin. apply filter_In in Hin.
  destruct Hin as [Hin _]. unfold stored in Hin. simpl in Hin.
  repeat (destruct Hin as [<-|Hin]; [simpl; unfold Qle; simpl; lia|]).
  contradiction.
Qed.

End SampleFacts.

(* ================================================================== *)
(** * Claims *)
(* ================================================================== *)

Module Claims.
Import JsString JsNumber JsArray Eff.

(** A run of the in-memory search that returned [resp], read as the ranked
    list; a run of [searchLocations] that returned, read as the image of the
    answer [hits] of the index, with [Hs] the call that gave it. *)
Ltac invert_route H :=
  rewrite RouteFacts.performInMemorySearch_run in H;
  injection H as <- _; cbn [results].

Ltac invert_qdrant H v hits Hs :=
  apply QdrantFacts.searchLocations_inr in H;
  destruct H as (v & hits & _ & Hs & -> & _); simpl in Hs.

(** C1.  Explicit-false boolean filtering.  For [halalCertified] and for
    [familyFriendly] alike: when the field is present in [filters], with
    [true] or with [false], the filter builder of [searchLocations] puts the
    equality condition on [must]; when it is absent no condition on that key
    is built and the in-memory filter rejects nothing on it.  Every result
    of the in-memory search carries the requested value, and so does every
    result of [searchLocations] when the index honours the filter it is
    sent.  With [b := false]: a request for [halalCertified === false] gets
    only results with [halalCertified === false]. *)
Theorem explicit_boolean_filters {Math : MathObject} (h : Host)
    (filters : option SearchFilters) :
  (forall b, Route.filters_halalCertified filters = Some b ->
     In (Match "halalCertified" (VBool b)) (must (Qdrant.buildFilter filters)))
  /\ (forall b, Route.filters_familyFriendly filters = Some b ->
     In (Match "familyFriendly" (VBool b)) (must (Qdrant.buildFilter filters)))
  /\ (Route.filters_halalCertified filters = None ->
      (forall c, In c (must (Qdrant.buildFilter filters)) ->
                 cond_key c <> "halalCertified")
      /\ forall r, Route.halalCertified_differs filters r = false)
  /\ (Route.filters_familyFriendly filters = None ->
      (forall c, In c (must (Qdrant.buildFilter filters)) ->
                 cond_key c <> "familyFriendly")
      /\ forall r, Route.familyFriendly_differs filters r = false)
  /\ (forall q t resp t',
        Route.performInMemorySearch h q filters t = (inr resp, t') ->
        (forall b, Route.filters_halalCertified filters = Some b ->
           Forall (fun r => res_halalCertified r = Some b) (results resp))
        /\ (forall b, Route.filters_familyFriendly filters = Some b ->
           Forall (fun r => res_familyFriendly r = Some b) (results resp)))
  /\ (Index.HonoursFilter h ->
      forall q l u t resp t',
        Qdrant.searchLocations h
          {| query := q; filters := filters; limit := l; userLocation := u |} t
        = (inr resp, t') ->
        (forall b, Route.filters_halalCertified filters = Some b ->
           Forall (fun r => res_halalCertified r = Some b) (results resp))
        /\ (forall b, Route.filters_familyFriendly filters = Some b ->
           Forall (fun r => res_familyFriendly r = Some b) (results resp))).
Proof.
  assert (Hh : forall b, Route.filters_halalCertified filters = Some b ->
     In (Match "halalCertified" (VBool b)) (must (Qdrant.buildFilter filters))).
  { intros b Hb. apply QdrantFacts.buildFilter_In. right; left. eauto. }
  assert (Hf : forall b, Route.filters_familyFriendly filters = Some b ->
     In (Match "familyFriendly" (VBool b)) (must (Qdrant.buildFilter filters))).
  { intros b Hb. apply QdrantFacts.buildFilter_In. right; right; left. eauto. }
  split; [exact Hh|]. split; [exact Hf|].
  split; [|split; [|split]].
  - intros Hnone. split.
    + intros c Hc. apply QdrantFacts.buildFilter_In in Hc.
      destruct Hc as [(s & _ & _ & ->)|[(b & Hb & _)|[(b & _ & ->)|(r & _ & _ & ->)]]];
        simpl; congruence.
    + intros r. unfold Route.halalCertified_differs. now rewrite Hnone.
  - intros Hnone. split.
    + intros c Hc. apply QdrantFacts.buildFilter_In in Hc.
      destruct Hc as [(s & _ & _ & ->)|[(b & _ & ->)|[(b & Hb & _)|(r & _ & _ & ->)]]];
        simpl; congruence.
    + intros r. unfold Route.familyFriendly_differs. now rewrite Hnone.
  - intros q t resp t' Hrun.
    invert_route Hrun.
    split; intros b Hb; apply Forall_forall; intros r Hr;
      apply RouteFacts.rank_In in Hr; destruct Hr as (loc & _ & _ & Hk);
      apply RouteFacts.keep_true in Hk; destruct Hk as (_ & _ & H2 & H3 & _).
    + now apply RouteFacts.halalCertified_differs_false with (b := b) in H2.
    + now apply RouteFacts.familyFriendly_differs_false with (b := b) in H3.
  - intros Hidx q l u t resp t' Hrun.
    invert_qdrant Hrun v hits Hs.
    apply Hidx in Hs.
    split; intros b Hb; apply Forall_forall; intros r Hr;
      apply in_map_iff in Hr; destruct Hr as (hit & <- & Hin);
      rewrite Forall_forall in Hs; specialize (Hs hit Hin); cbn.
    + pose proof (QdrantFacts.passes_buildFilter _ _ _ Hs (Hh b Hb)) as Hc.
      unfold Index.cond_holds, Index.payload_get in Hc. simpl in Hc.
      destruct (p_halalCertified (payload hit)) as [b'|]; simpl in Hc;
        [|discriminate].
      apply Bool.eqb_prop in Hc. now subst.
    + pose proof (QdrantFacts.passes_buildFilter _ _ _ Hs (Hf b Hb)) as Hc.
      unfold Index.cond_holds, Index.payload_get in Hc. simpl in Hc.
      destruct (p_familyFriendly (payload hit)) as [b'|]; simpl in Hc;
        [|discriminate].
      apply Bool.eqb_prop in Hc. now subst.
Qed.

Lemma explicit_boolean_filters_witness :
  Index.HonoursFilter Sample.host
  /\ exists resp t',
       Qdrant.searchLocations (Math := Sample.firstOrderMath) Sample.host
         (Sample.mkRequest "dubai" (Some (Sample.halalOnly false)) None None) []
       = (inr resp, t')
       /\ List.map name (results resp) = ["Skyline Lounge"]
       /\ Forall (fun r => res_halalCertified r = Some false) (results resp).
Proof.
  split; [exact SampleFacts.host_honours_filter|].
  eexists. eexists. split; [reflexivity|]. split; [reflexivity|].
  destruct (@explicit_boolean_filters Sample.firstOrderMath Sample.host
              (Some (Sample.halalOnly false))) as (_ & _ & _ & _ & _ & Hv).
  eapply Hv;
    [exact SampleFacts.host_honours_filter | reflexivity | reflexivity].
Defined.

(** The score of a result of [searchLocations] is the score of its hit. *)
Lemma mapHit_Descending {Math : MathObject} (request : SearchRequest)
    (hits : list ScoredPoint) :
  Index.Ranked hits ->
  JsArray.Descending similarityScore (List.map (Qdrant.mapHit request) hits).
Proof.
  unfold Index.Ranked, JsArray.Descending.
  induction hits as [|x hits IH]; intros Hs; simpl; [constructor|].
  apply StronglySorted_inv in Hs. destruct Hs as [Hs Hall].
  constructor; [now apply IH|].
  apply Forall_forall. intros r Hr.
  apply in_map_iff in Hr. destruct Hr as (hit & <- & Hin).
  rewrite Forall_forall in Hall. simpl. now apply Hall.
Qed.

(** C5.  Scores and ranking.  The in-memory search always answers, every
    score it reports lies in [[0, 1]] and its results are in descending
    order of [similarityScore].  [searchLocations] reports the scores of the
    index in the order of the index: when the index keeps its contract
    (scores in [[0, 1]], best first) the same holds of its responses. *)
Theorem scores_in_unit_and_descending {Math : MathObject} (h : Host) :
  (forall q filters t,
     exists resp t',
       Route.performInMemorySearch h q filters t = (inr resp, t')
       /\ Forall (fun r => 0 <= similarityScore r /\ similarityScore r <= 1)
                 (results resp)
       /\ JsArray.Descending similarityScore (results resp))
  /\ (Index.ScoresInUnit h -> Index.Ranks h ->
      forall request t resp t',
        Qdrant.searchLocations h request t = (inr resp, t') ->
        Forall (fun r => 0 <= similarityScore r /\ similarityScore r <= 1)
               (results resp)
        /\ JsArray.Descending similarityScore (results resp)).
Proof.
  split.
  - intros q filters t. eexists. eexists.
    split; [apply RouteFacts.performInMemorySearch_run|]. cbn [results]. split.
    + apply Forall_forall. intros r Hr.
      apply RouteFacts.rank_In in Hr. destruct Hr as (loc & _ & -> & _).
      apply RouteFacts.score_of_bounds.
    + apply RouteFacts.rank_Descending.
  - intros Hunit Hranks request t resp t' Hrun.
    invert_qdrant Hrun v hits Hs. split.
    + apply Hunit in Hs. apply Forall_forall. intros r Hr.
      apply in_map_iff in Hr. destruct Hr as (hit & <- & Hin).
      rewrite Forall_forall in Hs. simpl. now apply Hs.
    + apply mapHit_Descending. eapply Hranks. exact Hs.
Qed.

Lemma scores_in_unit_and_descending_witness :
  Index.ScoresInUnit Sample.host /\ Index.Ranks Sample.host
  /\ exists resp t',
       Qdrant.searchLocations (Math := Sample.firstOrderMath) Sample.host
         (Sample.mkRequest "romantic sunset spots" None (Some 3%Z) None) []
       = (inr resp, t')
       /\ List.map similarityScore (results resp) = [9 # 10; 7 # 10; 7 # 10]
       /\ Forall (fun r => 0 <= similarityScore r /\ similarityScore r <= 1)
                 (results resp)
       /\ JsArray.Descending similarityScore (results resp).
Proof.
  split; [exact SampleFacts.host_scores_in_unit|].
  split; [exact SampleFacts.host_ranks|].
  eexists. eexists. split; [reflexivity|]. split; [reflexivity|].
  destruct (@scores_in_unit_and_descending Sample.firstOrderMath Sample.host)
    as [_ Hv].
  eapply Hv;
    [exact SampleFacts.host_scores_in_unit | exact SampleFacts.host_ranks
    | reflexivity].
Defined.




(** C7.  Failure atomicity.  When the embedding call throws,
    [searchLocations] throws (the error [generateEmbedding] builds) after
    exactly one embedding call and no index call; when the embedding call
    resolves and the index call throws, [searchLocations] rethrows that very
    error after exactly one call of each.  In both cases no response is
    returned and no call is repeated.  A response, when there is one, holds
    the image of the whole answer of the index.  One level up, a search step
    that throws makes the handler answer the [500] error envelope, without
    data. *)
Theorem search_failure_is_atomic {Math : MathObject} (h : Host)
    (request : SearchRequest) (t : Trace) :
  (forall e, embedContent h (query request) = inl e ->
     Qdrant.searchLocations h request t =
     (inl (ErrorObj "Failed to generate embedding"),
      (t ++ [EvNow; EvEmbedContent (query request);
             EvConsoleError "Gemini embedding error:";
             EvConsoleError "Search failed:"])%list))
  /\ (forall v e,
       embedContent h (query request) = inr v ->
       qdrant_search h v (Qdrant.limitParam request)
         (Qdrant.filterParam (Qdrant.buildFilter (filters request))) = inl e ->
       Qdrant.searchLocations h request t =
       (inl e,
        (t ++ [EvNow; EvEmbedContent (query request);
               EvQdrantSearch v (Qdrant.limitParam request)
                 (Qdrant.filterParam (Qdrant.buildFilter (filters request)));
               EvConsoleError "Search failed:"])%list))
  /\ (forall resp t',
       Qdrant.searchLocations h request t = (inr resp, t') ->
       exists v hits,
         embedContent h (query request) = inr v
         /\ qdrant_search h v (Qdrant.limitParam request)
              (Qdrant.filterParam (Qdrant.buildFilter (filters request)))
            = inr hits
         /\ results resp = List.map (Qdrant.mapHit request) hits)
  /\ (forall search http userId q f l u e t',
       auth h = inr userId ->
       Handler.signed_in userId = true ->
       allowed (searchRateLimiter_check h (Handler.uid_of userId)) = true ->
       Handler.json http = inr (Handler.BodyObject q f l u) ->
       negb (Handler.truthy_value q) || negb (Handler.is_string q) = false ->
       search (Handler.string_of q) (Handler.BodyObject q f l u)
         (t ++ [EvAuth; EvRateLimitCheck (Handler.uid_of userId); EvRequestJson])%list
       = (inl e, t') ->
       Handler.handle h search http t =
       (inr (Handler.internal_error e),
        (t' ++ [EvConsoleError "Search API error:"])%list)).
Proof.
  split; [|split; [|split]].
  - intros e He. rewrite QdrantFacts.searchLocations_run. cbv zeta.
    now rewrite He.
  - intros v e Hv He. rewrite QdrantFacts.searchLocations_run. cbv zeta.
    now rewrite Hv, He.
  - intros resp t' Hrun. apply QdrantFacts.searchLocations_inr in Hrun.
    destruct Hrun as (v & hits & Hv & Hs & Hr & _). eauto.
  - intros search http userId q f l u e t' Ha Hs Hr Hj Hq Hrun.
    rewrite (HandlerFacts.handle_object h search http t userId q f l u Ha Hs Hr Hj).
    cbv zeta. now rewrite Hq, Hrun.
Qed.

Lemma search_failure_is_atomic_witness :
  Qdrant.searchLocations (Math := Sample.firstOrderMath) Sample.host_embedding_down
    (Sample.mkRequest "romantic sunset spots" None None None) []
  = (inl (ErrorObj "Failed to generate embedding"),
     [EvNow; EvEmbedContent "romantic sunset spots";
      EvConsoleError "Gemini embedding error:"; EvConsoleError "Search failed:"])
  /\ Qdrant.searchLocations (Math := Sample.firstOrderMath) Sample.host_index_down
       (Sample.mkRequest "romantic sunset spots" None None None) []
     = (inl (ErrorObj "connect ECONNREFUSED"),
        [EvNow; EvEmbedContent "romantic sunset spots";
         EvQdrantSearch [0.5%float; 0.25%float] 10 None;
         EvConsoleError "Search failed:"])
  /\ Handler.POST_production (Math := Sample.firstOrderMath) Sample.host_index_down
       (Sample.mkHttp (Handler.JString "romantic sunset spots") None None) []
     = (inr (Handler.internal_error (ErrorObj "connect ECONNREFUSED")),
        [EvAuth; EvRateLimitCheck "user_1"; EvRequestJson; EvNow;
         EvEmbedContent "romantic sunset spots";
         EvQdrantSearch [0.5%float; 0.25%float] 10 None;
         EvConsoleError "Search failed:"; EvConsoleError "Search API error:"]).
Proof.
  split; [|split].
  - apply (proj1 (@search_failure_is_atomic Sample.firstOrderMath
                    Sample.host_embedding_down
                    (Sample.mkRequest "romantic sunset spots" None None None) [])
             (ErrorObj "fetch failed")).
    reflexivity.
  - apply (proj1 (proj2 (@search_failure_is_atomic Sample.firstOrderMath
                           Sample.host_index_down
                           (Sample.mkRequest "romantic sunset spots" None None None) []))
             [0.5%float; 0.25%float] (ErrorObj "connect ECONNREFUSED"));
      reflexivity.
  - exact (proj2 (proj2 (proj2 (@search_failure_is_atomic Sample.firstOrderMath
                                   Sample.host_index_down
                                   (Sample.mkRequest "x" None None None) [])))
             _ (Sample.mkHttp (Handler.JString "romantic sunset spots") None None)
             (Some "user_1") (Handler.JString "romantic sunset spots")
             None None None (ErrorObj "connect ECONNREFUSED")
             [EvAuth; EvRateLimitCheck "user_1"; EvRequestJson; EvNow;
              EvEmbedContent "romantic sunset spots";
              EvQdrantSearch [0.5%float; 0.25%float] 10 None;
              EvConsoleError "Search failed:"]
             eq_refl eq_refl eq_refl eq_refl eq_refl eq_refl).
Defined.

(** C8, as amended.  For a signed-in user within the rate limit who sends a
    JSON object: when [query] is missing, falsy (the empty string included)
    or not a string, the handler answers [400] with [INVALID_REQUEST] after
    reading the body, and the search is never started (no clock read, no
    catalogue read); when [query] is a non-empty string the search runs and
    the answer is [200] whatever [limit] is, for [limit] is not validated. *)
Theorem invalid_query_is_rejected (h : Host) (http : Handler.NextRequest)
    (t : Trace) (userId : option string) (q : Handler.JsValue)
    (f : option SearchFilters) (l : option Z) (u : option UserLocation) :
  auth h = inr userId ->
  Handler.signed_in userId = true ->
  allowed (searchRateLimiter_check h (Handler.uid_of userId)) = true ->
  Handler.json http = inr (Handler.BodyObject q f l u) ->
  ((forall s, q = Handler.JString s -> s = EmptyString) ->
     Handler.POST h http t =
     (inr Handler.invalid_request,
      (t ++ [EvAuth; EvRateLimitCheck (Handler.uid_of userId); EvRequestJson])%list)
     /\ Handler.status Handler.invalid_request = 400%nat
     /\ Handler.body Handler.invalid_request =
        Handler.Failure "INVALID_REQUEST" "Query is required and must be a string")
  /\ (forall s, q = Handler.JString s -> s <> EmptyString ->
      exists resp,
        Handler.POST h http t =
        (inr (Handler.ok resp),
         (t ++ [EvAuth; EvRateLimitCheck (Handler.uid_of userId); EvRequestJson;
                EvNow; EvGetAllLocations; EvNow])%list)
        /\ Handler.status (Handler.ok resp) = 200%nat
        /\ results resp = Route.rank (getAllLocations h) s f).
Proof.
  intros Ha Hs Hr Hj. unfold Handler.POST.
  rewrite (HandlerFacts.handle_object h _ http t userId q f l u Ha Hs Hr Hj).
  cbv zeta. split.
  - intros Hq.
    destruct (negb (Handler.truthy_value q) || negb (Handler.is_string q)) eqn:E.
    + auto.
    + apply HandlerFacts.validation_passes in E. destruct E as (s & -> & Hne).
      exfalso. apply Hne. now apply Hq.
  - intros s -> Hne.
    assert (E : negb (Handler.truthy_value (Handler.JString s))
                || negb (Handler.is_string (Handler.JString s)) = false).
    { apply HandlerFacts.validation_passes. eauto. }
    rewrite E. rewrite RouteFacts.performInMemorySearch_run.
    eexists. split.
    + rewrite <- app_assoc. reflexivity.
    + split; reflexivity.
Qed.

Lemma invalid_query_is_rejected_witness :
  Handler.POST Sample.host (Sample.mkHttp (Handler.JNumber 42) None (Some 5%Z)) []
  = (inr Handler.invalid_request, [EvAuth; EvRateLimitCheck "user_1"; EvRequestJson])
  /\ Handler.POST Sample.host (Sample.mkHttp (Handler.JString "") None (Some 5%Z)) []
     = (inr Handler.invalid_request, [EvAuth; EvRateLimitCheck "user_1"; EvRequestJson])
  /\ Handler.POST Sample.host (Sample.mkHttp Handler.JUndefined None None) []
     = (inr Handler.invalid_request, [EvAuth; EvRateLimitCheck "user_1"; EvRequestJson]).
Proof.
  split; [|split].
  - apply (invalid_query_is_rejected Sample.host
             (Sample.mkHttp (Handler.JNumber 42) None (Some 5%Z)) []
             (Some "user_1") (Handler.JNumber 42) None (Some 5%Z) None
             eq_refl eq_refl eq_refl eq_refl).
    intros s Hs. discriminate.
  - apply (invalid_query_is_rejected Sample.host
             (Sample.mkHttp (Handler.JString "") None (Some 5%Z)) []
             (Some "user_1") (Handler.JString "") None (Some 5%Z) None
             eq_refl eq_refl eq_refl eq_refl).
    intros s Hs. now injection Hs as <-.
  - apply (invalid_query_is_rejected Sample.host
             (Sample.mkHttp Handler.JUndefined None None) []
             (Some "user_1") Handler.JUndefined None None None
             eq_refl eq_refl eq_refl eq_refl).
    intros s Hs. discriminate.
Defined.

(** C8 as stated fails: a request with a valid query and [limit] zero or
    negative is not rejected; it is answered [200] and the search runs. *)
Lemma nonpositive_limit_is_accepted :
  (exists resp t',
     Handler.POST Sample.host
       (Sample.mkHttp (Handler.JString "dubai") None (Some 0%Z)) []
     = (inr resp, t')
     /\ Handler.status resp = 200%nat /\ In EvGetAllLocations t')
  /\ (exists resp t',
     Handler.POST Sample.host
       (Sample.mkHttp (Handler.JString "dubai") None (Some (-5)%Z)) []
     = (inr resp, t')
     /\ Handler.status resp = 200%nat /\ In EvGetAllLocations t').
Proof.
  split; eexists; eexists; (split; [reflexivity|]);
    (split; [reflexivity|simpl; tauto]).
Qed.

(** C2, at a failing input.  The shipped route drops [body.limit]: a
    request with [limit: 1] against a catalogue with four matching locations
    is answered with four results, [total] being their number. *)
Theorem route_ignores_limit :
  exists resp t',
    Handler.POST Sample.host
      (Sample.mkHttp (Handler.JString "dubai") None (Some 1%Z)) []
    = (inr (Handler.ok resp), t')
    /\ List.length (results resp) = 4%nat
    /\ total resp = 4%nat.
Proof. eexists. eexists. split; [reflexivity|]. split; reflexivity. Qed.

(** C3, at a failing input.  A stored location on the equator has valid
    coordinates, latitude [0] and longitude [32.5], and the request supplies
    [userLocation]; the truthiness test of line 187 takes the latitude [0] for
    a missing one and the result carries no [distance], whatever the engine's
    [Math] is.  The same happens on the prime meridian. *)
Theorem distance_omitted_at_zero_coordinate {Math : MathObject} :
  let request := Sample.mkRequest "landmark" None None (Some Sample.dubaiMarina) in
  let hit := {| hit_id := NumId 5; score := 1 # 10;
                payload := Sample.payload_of Sample.equator |} in
  userLocation request = Some Sample.dubaiMarina
  /\ latitude (Qdrant.mapHit request hit) = Some 0%float
  /\ longitude (Qdrant.mapHit request hit) = Some 32.5%float
  /\ distance (Qdrant.mapHit request hit) = None.
Proof. cbv zeta. repeat split. Qed.

(** Both suggestion generators follow their rule table. *)
Lemma generateSearchSuggestions_rules (q : string) :
  Qdrant.generateSearchSuggestions q =
  SuggestionRules.firstMatch SuggestionRules.searchRules
    SuggestionRules.searchDefault (toLowerCase q).
Proof.
  unfold Qdrant.generateSearchSuggestions, SuggestionRules.firstMatch,
    SuggestionRules.searchRules, SuggestionRules.searchDefault, existsb.
  cbv zeta. repeat rewrite orb_false_r. reflexivity.
Qed.

Lemma generateSuggestions_rules (q : string) :
  Route.generateSuggestions q =
  SuggestionRules.firstMatch SuggestionRules.routeRules
    SuggestionRules.routeDefault (toLowerCase q).
Proof.
  unfold Route.generateSuggestions, SuggestionRules.firstMatch,
    SuggestionRules.routeRules, SuggestionRules.routeDefault, existsb.
  cbv zeta. repeat rewrite orb_false_r. reflexivity.
Qed.

(** The outcome of a rule table is the set of one rule or the default. *)
Lemma firstMatch_one_set (rules : list SuggestionRules.Rule)
    (default : list string) (lq : string) :
  In (SuggestionRules.firstMatch rules default lq)
     (default :: List.map snd rules).
Proof.
  induction rules as [|[keywords set] rules IH]; simpl.
  - now left.
  - destruct (existsb (includes lq) keywords).
    + right. now left.
    + destruct IH as [IH|IH]; [now left | right; now right].
Qed.

(** A rule fires when one of its keywords occurs and no earlier rule has
    fired. *)
Lemma firstMatch_fires (before : list SuggestionRules.Rule)
    (keywords set : list string) (after : list SuggestionRules.Rule)
    (default : list string) (lq : string) :
  (forall rule kw, In rule before -> In kw (fst rule) -> ~ Substring kw lq) ->
  (exists kw, In kw keywords /\ Substring kw lq) ->
  SuggestionRules.firstMatch (before ++ (keywords, set) :: after)%list default lq
  = set.
Proof.
  intros Hbefore (kw & Hin & Hsub).
  induction before as [|[ks st] before IH]; simpl.
  - assert (E : existsb (includes lq) keywords = true).
    { apply existsb_exists. exists kw. split; [exact Hin|].
      now apply StringFacts.includes_spec. }
    now rewrite E.
  - assert (E : existsb (includes lq) ks = false).
    { destruct (existsb (includes lq) ks) eqn:E; [|reflexivity].
      apply existsb_exists in E. destruct E as (k & Hk & Hi).
      apply StringFacts.includes_spec in Hi.
      exfalso. apply (Hbefore (ks, st) k); simpl; auto. }
    rewrite E. apply IH.
    intros rule k Hr Hk. apply (Hbefore rule k); simpl; auto.
Qed.

(** No rule fires when no keyword occurs. *)
Lemma firstMatch_default (rules : list SuggestionRules.Rule)
    (default : list string) (lq : string) :
  (forall rule kw, In rule rules -> In kw (fst rule) -> ~ Substring kw lq) ->
  SuggestionRules.firstMatch rules default lq = default.
Proof.
  induction rules as [|[ks st] rules IH]; intros Hno; simpl; [reflexivity|].
  assert (E : existsb (includes lq) ks = false).
  { destruct (existsb (includes lq) ks) eqn:E; [|reflexivity].
    apply existsb_exists in E. destruct E as (k & Hk & Hi).
    apply StringFacts.includes_spec in Hi.
    exfalso. apply (Hno (ks, st) k); simpl; auto. }
  rewrite E. apply IH.
  intros rule k Hr Hk. apply (Hno rule k); simpl; auto.
Qed.

Lemma follows_table (g : string -> list string)
    (rules : list SuggestionRules.Rule) (default : list string) :
  (forall q, g q = SuggestionRules.firstMatch rules default (toLowerCase q)) ->
  Forall (fun set => List.length set = 3%nat) (default :: List.map snd rules) ->
  g "x" = default ->
  SuggestionRules.FollowsTable g rules default.
Proof.
  intros Heq Hlen Hx. unfold SuggestionRules.FollowsTable.
  split; [exact Heq|]. split; [|split; [|split; [|split; [|split; [|split]]]]].
  - intros q q' H. now rewrite !Heq, H.
  - intros q. rewrite Heq. rewrite Forall_forall in Hlen. apply Hlen.
    apply firstMatch_one_set.
  - intros q. rewrite Heq. apply firstMatch_one_set.
  - intros q before keywords set after -> Hb Hk. rewrite Heq.
    now apply firstMatch_fires.
  - intros q Hno. rewrite Heq. now apply firstMatch_default.
  - exact Hx.
  - apply Forall_inv in Hlen. intros ->. discriminate.
Qed.

(** C4, as amended.  [generateSearchSuggestions], the generator of the
    Qdrant service, is as the claim says: it follows the table
    romantic/sunset, family/kids, luxury/expensive, cheap/budget, in this
    order, with a generic default.  [generateSuggestions], the generator the
    route uses, has the same shape over another table: romantic, family,
    luxury, traditional, one keyword each, with its own default. *)
Theorem suggestion_generators_follow_their_tables :
  SuggestionRules.FollowsTable Qdrant.generateSearchSuggestions
    SuggestionRules.searchRules SuggestionRules.searchDefault
  /\ SuggestionRules.FollowsTable Route.generateSuggestions
       SuggestionRules.routeRules SuggestionRules.routeDefault.
Proof.
  split; apply follows_table;
    try exact generateSearchSuggestions_rules;
    try exact generateSuggestions_rules;
    try reflexivity;
    repeat (constructor; [reflexivity|]); constructor.
Qed.

Lemma suggestion_generators_follow_their_tables_witness :
  Qdrant.generateSearchSuggestions "Kids and LUXURY"
  = ["family-friendly attractions"; "water parks Dubai"; "kid-friendly restaurants"]
  /\ Route.generateSuggestions "Traditional Souk"
     = ["traditional souks"; "cultural museums"; "heritage sites"].
Proof.
  destruct suggestion_generators_follow_their_tables
    as [(_ & _ & _ & _ & Hs & _) (_ & _ & _ & _ & Hr & _)].
  split.
  - apply (Hs "Kids and LUXURY"
              [(["romantic"; "sunset"],
                ["romantic dinner with view"; "sunset beach spots";
                 "couples activities Dubai"])]
              ["family"; "kids"] _
              [(["luxury"; "expensive"],
                ["luxury shopping malls"; "fine dining Dubai"; "5-star experiences"]);
               (["cheap"; "budget"],
                ["budget-friendly activities"; "affordable restaurants";
                 "free attractions Dubai"])]
              eq_refl).
    + intros rule kw [<-|[]] [<-|[<-|[]]] H;
        apply StringFacts.includes_spec in H; discriminate.
    + exists "kids". split; [simpl; tauto|].
      apply StringFacts.includes_spec. reflexivity.
  - apply (Hr "Traditional Souk"
              [(["romantic"],
                ["romantic dinner spots"; "sunset viewing points"; "couples activities"]);
               (["family"],
                ["family restaurants"; "kid-friendly attractions"; "water parks"]);
               (["luxury"], ["luxury hotels"; "fine dining"; "high-end shopping"])]
              ["traditional"] _ [] eq_refl).
    + intros rule kw [<-|[<-|[<-|[]]]] [<-|[]] H;
        apply StringFacts.includes_spec in H; discriminate.
    + exists "traditional". split; [simpl; tauto|].
      apply StringFacts.includes_spec. reflexivity.
Defined.

(** C4 as stated fails on the route's generator: ["sunset"], ["kids"],
    ["expensive"], ["cheap"] and ["budget"] are no keywords of
    [generateSuggestions].  Such queries get the default set, the one of
    ["x"], not the set of the theme. *)
Lemma route_suggestions_miss_keywords :
  Route.generateSuggestions "sunset" = Route.generateSuggestions "x"
  /\ Route.generateSuggestions "sunset" <> Route.generateSuggestions "romantic"
  /\ Route.generateSuggestions "kids" = Route.generateSuggestions "x"
  /\ Route.generateSuggestions "kids" <> Route.generateSuggestions "family"
  /\ Route.generateSuggestions "expensive" = Route.generateSuggestions "x"
  /\ Route.generateSuggestions "expensive" <> Route.generateSuggestions "luxury"
  /\ Route.generateSuggestions "cheap" = Route.generateSuggestions "x"
  /\ Route.generateSuggestions "budget" = Route.generateSuggestions "x".
Proof. repeat split; try reflexivity; discriminate. Qed.

(** C6, as amended.  When [filters.rating] is present and not zero, the
    filter builder puts the range condition [rating >= filters.rating] (a
    lower bound only) on [must], every result of the in-memory search has a
    rating at least the requested one, and so has every result of
    [searchLocations] when the index honours the filter it is sent.  When
    [filters.rating] is absent or zero, no condition on the rating is built
    and the in-memory filter rejects nothing on it. *)
Theorem rating_filter_when_nonzero {Math : MathObject} (h : Host)
    (filters : option SearchFilters) :
  (forall r, Route.filters_rating filters = Some r -> ~ r == 0 ->
     In (Range "rating" r) (must (Qdrant.buildFilter filters))
     /\ (forall q t resp t',
           Route.performInMemorySearch h q filters t = (inr resp, t') ->
           Forall (fun x => r <= res_rating x) (results resp))
     /\ (Index.HonoursFilter h ->
         forall q l u t resp t',
           Qdrant.searchLocations h
             {| query := q; filters := filters; limit := l; userLocation := u |} t
           = (inr resp, t') ->
           Forall (fun x => r <= res_rating x) (results resp)))
  /\ (Route.filters_rating filters = None
      \/ (exists r, Route.filters_rating filters = Some r /\ r == 0) ->
      (forall c, In c (must (Qdrant.buildFilter filters)) ->
                 cond_key c <> "rating")
      /\ forall x, Route.rating_below filters x = false).
Proof.
  split.
  - intros r Hr Hnz.
    assert (Hin : In (Range "rating" r) (must (Qdrant.buildFilter filters))).
    { apply QdrantFacts.buildFilter_In. right; right; right.
      exists r. split; [exact Hr|]. split; [|reflexivity].
      now apply RouteFacts.truthyQ_true. }
    split; [exact Hin|]. split.
    + intros q t resp t' Hrun.
      invert_route Hrun.
      apply Forall_forall. intros x Hx.
      apply RouteFacts.rank_In in Hx. destruct Hx as (loc & _ & _ & Hk).
      apply RouteFacts.keep_true in Hk. destruct Hk as (_ & _ & _ & _ & H4).
      now apply RouteFacts.rating_below_false with (q := r) in H4.
    + intros Hidx q l u t resp t' Hrun.
      invert_qdrant Hrun v hits Hs.
      apply Hidx in Hs.
      apply Forall_forall. intros x Hx.
      apply in_map_iff in Hx. destruct Hx as (hit & <- & Hhit).
      rewrite Forall_forall in Hs. specialize (Hs hit Hhit). cbn.
      pose proof (QdrantFacts.passes_buildFilter _ _ _ Hs Hin) as Hc.
      unfold Index.cond_holds, Index.payload_get in Hc. simpl in Hc.
      now apply Qle_bool_iff.
  - intros Hz.
    assert (Hf : forall r, Route.filters_rating filters = Some r ->
                           truthyQ r = false).
    { intros r Hr. destruct Hz as [Hn|(r' & Hr' & H0)]; [congruence|].
      assert (r = r') by congruence. subst r'.
      destruct (truthyQ r) eqn:E; [|reflexivity].
      apply RouteFacts.truthyQ_true in E. contradiction. }
    split.
    + intros c Hc. apply QdrantFacts.buildFilter_In in Hc.
      destruct Hc as [(s & _ & _ & ->)|[(b & _ & ->)|[(b & _ & ->)|(r & Hr & Ht & _)]]];
        simpl; try congruence.
      rewrite (Hf r Hr) in Ht. discriminate.
    + intros x. unfold Route.rating_below.
      destruct (Route.filters_rating filters) as [r|] eqn:Er; [|reflexivity].
      now rewrite (Hf r eq_refl).
Qed.

Lemma rating_filter_when_nonzero_witness :
  In (Range "rating" (45 # 10))
     (must (Qdrant.buildFilter (Some (Sample.ratingOnly (45 # 10)))))
  /\ exists resp t',
       Qdrant.searchLocations (Math := Sample.firstOrderMath) Sample.host
         (Sample.mkRequest "dubai" (Some (Sample.ratingOnly (45 # 10))) None None) []
       = (inr resp, t')
       /\ List.map res_rating (results resp) = [46 # 10; 45 # 10]
       /\ Forall (fun x => 45 # 10 <= res_rating x) (results resp).
Proof.
  destruct (@rating_filter_when_nonzero Sample.firstOrderMath Sample.host
              (Some (Sample.ratingOnly (45 # 10)))) as [H _].
  destruct (H (45 # 10) eq_refl) as (Hin & _ & Hv); [discriminate|].
  split; [exact Hin|].
  eexists. eexists. split; [reflexivity|]. split; [reflexivity|].
  eapply Hv; [exact SampleFacts.host_honours_filter | reflexivity].
Defined.

(** C6 as stated fails at [filters = { rating: 0 }]: the field is present,
    no range condition is built, and the in-memory search returns a location
    whose stored rating, [-1], is below the requested [0]. *)
Lemma rating_zero_adds_no_constraint :
  Route.filters_rating (Some (Sample.ratingOnly 0)) = Some 0
  /\ must (Qdrant.buildFilter (Some (Sample.ratingOnly 0))) = []
  /\ exists resp t',
       Route.performInMemorySearch Sample.host "dubai"
         (Some (Sample.ratingOnly 0)) [] = (inr resp, t')
       /\ exists x, In x (results resp) /\ res_rating x < 0.
Proof.
  split; [reflexivity|]. split; [reflexivity|].
  eexists. eexists.
  split; [apply RouteFacts.performInMemorySearch_run|].
  exists (Route.toResult "dubai" Sample.kiosk). split.
  - vm_compute. tauto.
  - reflexivity.
Qed.

End Claims.

(* ================================================================== *)
(** * Further properties of the code *)
(* ================================================================== *)

Module Further.
Import JsString JsNumber JsArray Eff.

(** X1.  [searchLocations] asks the index for [request.limit || 10] hits and
    returns one result per hit: for a request whose limit is absent or
    positive, and an index that honours the limit it is given, the response
    holds at most [limit] results (at most [10] without a limit), and [total]
    is their number. *)
Theorem searchLocations_respects_limit {Math : MathObject} (h : Host)
    (request : SearchRequest) (t t' : Trace) (resp : SearchResponse) :
  Index.HonoursLimit h ->
  (forall l, limit request = Some l -> (0 < l)%Z) ->
  Qdrant.searchLocations h request t = (inr resp, t') ->
  (Z.of_nat (List.length (results resp))
   <= match limit request with Some l => l | None => 10 end)%Z
  /\ total resp = List.length (results resp).
Proof.
  intros Hlim Hvalid Hrun.
  apply QdrantFacts.searchLocations_inr in Hrun.
  destruct Hrun as (v & hits & _ & Hs & Hr & Ht & _).
  split; [|exact Ht].
  rewrite Hr, length_map.
  assert (El : Qdrant.limitParam request
               = match limit request with Some l => l | None => 10%Z end).
  { unfold Qdrant.limitParam. destruct (limit request) as [l|]; [|reflexivity].
    specialize (Hvalid l eq_refl). unfold truthyZ.
    destruct (Z.eqb_spec l 0); [lia|reflexivity]. }
  rewrite <- El. apply (Hlim v _ _ hits Hs).
  rewrite El. destruct (limit request) as [l|]; [specialize (Hvalid l eq_refl)|]; lia.
Qed.

Lemma searchLocations_respects_limit_witness :
  exists resp t',
    Qdrant.searchLocations (Math := Sample.firstOrderMath) Sample.host
      (Sample.mkRequest "dubai" None (Some 2%Z) None) [] = (inr resp, t')
    /\ List.map name (results resp) = ["Jumeirah Beach"; "Al Ustad Kebab"]
    /\ (Z.of_nat (List.length (results resp)) <= 2)%Z
    /\ total resp = List.length (results resp).
Proof.
  eexists. eexists. split; [reflexivity|]. split; [reflexivity|].
  eapply (@searchLocations_respects_limit Sample.firstOrderMath Sample.host
            (Sample.mkRequest "dubai" None (Some 2%Z) None) [] _ _
            SampleFacts.host_honours_limit).
  - intros l Hl. injection Hl as <-. reflexivity.
  - reflexivity.
Defined.

(** X2.  The in-memory search always answers, with at most ten results whatever
    the request says, and [total] is their number. *)
Theorem in_memory_search_returns_at_most_ten (h : Host) (q : string)
    (filters : option SearchFilters) (t : Trace) :
  exists resp,
    Route.performInMemorySearch h q filters t
    = (inr resp, (t ++ [EvNow; EvGetAllLocations; EvNow])%list)
    /\ (List.length (results resp) <= 10)%nat
    /\ total resp = List.length (results resp)
    /\ suggestions resp = Route.generateSuggestions q.
Proof.
  eexists. split; [apply RouteFacts.performInMemorySearch_run|].
  cbn [results total suggestions].
  split; [apply RouteFacts.rank_length|]. split; reflexivity.
Qed.

(** X3.  When [searchLocations] attaches a distance: exactly when the request has
    a [userLocation] and the payload has a latitude and a longitude that are
    both truthy, that is neither [0], [-0] nor [NaN]; the distance is then
    [calculateDistance] from the user's position to the stored one. *)
Theorem distance_attached_iff {Math : MathObject} (request : SearchRequest)
    (hit : ScoredPoint) (d : float) :
  distance (Qdrant.mapHit request hit) = Some d <->
  exists u la lo,
    userLocation request = Some u
    /\ p_latitude (payload hit) = Some la
    /\ p_longitude (payload hit) = Some lo
    /\ truthyF la = true /\ truthyF lo = true
    /\ d = Qdrant.calculateDistance (lat u) (lng u) la lo.
Proof.
  cbn [distance Qdrant.mapHit]. unfold Qdrant.distance_of.
  destruct (userLocation request) as [u|];
    [destruct (p_latitude (payload hit)) as [la|];
     [destruct (p_longitude (payload hit)) as [lo|]|]|].
  - destruct (truthyF la) eqn:Ea, (truthyF lo) eqn:Eo; simpl; split;
      try discriminate;
      try (intros (u' & la' & lo' & Hu & Hla & Hlo & Hta & Hto & _);
           injection Hla as <-; injection Hlo as <-; congruence).
    + intros H. injection H as <-. exists u, la, lo. auto 10.
    + intros (u' & la' & lo' & Hu & Hla & Hlo & _ & _ & ->).
      injection Hu as <-. injection Hla as <-. injection Hlo as <-. reflexivity.
  - split; [discriminate|]. intros (u' & la' & lo' & _ & _ & Hlo & _). discriminate.
  - split; [discriminate|]. intros (u' & la' & lo' & _ & Hla & _). discriminate.
  - split; [discriminate|]. intros (u' & la' & lo' & Hu & _). discriminate.
Qed.

(** X4.  An empty query word, as a doubled or a trailing space leaves one, occurs
    in every text: such a query gives every location a positive score. *)
Theorem empty_word_matches_every_location (lowercaseQuery : string)
    (location : Location) :
  In EmptyString (Route.queryWords lowercaseQuery) ->
  0 < Route.score_of lowercaseQuery location.
Proof.
  intros Hin. apply RouteFacts.score_of_pos.
  exists EmptyString. split; [exact Hin|]. apply StringFacts.includes_empty.
Qed.

Lemma empty_word_matches_every_location_witness :
  Route.queryWords "souk  gold" = ["souk"; ""; "gold"]
  /\ 0 < Route.score_of "souk  gold" Sample.jumeirah.
Proof.
  split; [reflexivity|].
  apply empty_word_matches_every_location. simpl. tauto.
Defined.

End Further.

(* ================================================================== *)
(** * The distance helper *)
(* ================================================================== *)

(** [calculateDistance] runs on the engine's [Math.sin], [Math.cos],
    [Math.atan2] and [Math.round].  What follows holds for every engine with
    the property named in each section; the arithmetic in between is the IEEE
    arithmetic of the primitive floats.  Equality is equality of values: a
    NaN result is equal to itself here. *)
Module Distance.
Import JsNumber Qdrant FloatFacts.
Local Open Scope float_scope.

Section OddSine.
Context {Math : MathObject}.

(** The sine of the engine is odd, as the fdlibm routine of the common
    engines is; ECMAScript itself only fixes [sin] at the zeros, NaN and the
    infinities. *)
Hypothesis sin_odd : forall x, Math_sin (- x) = - Math_sin x.

Lemma toRad_opp (d : float) : toRad (- d) = - toRad d.
Proof. unfold toRad. now rewrite mul_opp_l, div_opp_l. Qed.

Lemma half_sine_square (d d' : float) :
  d' = - d \/ d' = d ->
  Math_sin (toRad d' / 2) * Math_sin (toRad d' / 2)
  = Math_sin (toRad d / 2) * Math_sin (toRad d / 2).
Proof.
  intros [-> | ->]; [|reflexivity].
  now rewrite toRad_opp, div_opp_l, sin_odd, mul_opp_opp.
Qed.

Lemma haversine_term (c d d' : float) :
  d' = - d \/ d' = d ->
  c * Math_sin (toRad d' / 2) * Math_sin (toRad d' / 2)
  = c * Math_sin (toRad d / 2) * Math_sin (toRad d / 2).
Proof.
  intros [-> | ->]; [|reflexivity].
  now rewrite toRad_opp, div_opp_l, sin_odd, (mul_opp_r c), mul_opp_opp.
Qed.

(** X5.  With an odd sine, [calculateDistance] is symmetric: swapping the
    two points does not change the result, for all floats, NaN and the
    infinities included. *)
Theorem calculateDistance_symmetric (lat1 lon1 lat2 lon2 : float) :
  calculateDistance lat1 lon1 lat2 lon2 = calculateDistance lat2 lon2 lat1 lon1.
Proof.
  unfold calculateDistance. cbv zeta.
  rewrite (half_sine_square (lat1 - lat2) (lat2 - lat1) (sub_swap lat1 lat2)).
  rewrite (haversine_term (Math_cos (toRad lat1) * Math_cos (toRad lat2))
             (lon1 - lon2) (lon2 - lon1) (sub_swap lon1 lon2)).
  now rewrite (mul_comm (Math_cos (toRad lat1)) (Math_cos (toRad lat2))).
Qed.

End OddSine.

Lemma calculateDistance_symmetric_witness :
  @calculateDistance Sample.firstOrderMath 25 55.125 25.25 55.5
  = @calculateDistance Sample.firstOrderMath 25.25 55.5 25 55.125.
Proof.
  apply (@calculateDistance_symmetric Sample.firstOrderMath).
  intros x. reflexivity.
Defined.

Section Signs.
Context {Math : MathObject}.

(** The engine's [atan2] of two arguments that are NaN or have their sign
    bit clear is not negative (it lies between [+0] and pi/2, or is NaN),
    and [Math.round] of a value that is not negative is not negative. *)
Hypothesis atan2_sign :
  forall y x, SignClear y -> SignClear x -> NotNegative (Math_atan2 y x).
Hypothesis round_sign : forall x, NotNegative x -> NotNegative (Math_round x).

(** X6.  With such an engine [calculateDistance] is never negative, for
    all floats: the result is NaN, a zero or positive. *)
Theorem calculateDistance_never_negative (lat1 lon1 lat2 lon2 : float) :
  (calculateDistance lat1 lon1 lat2 lon2 <? 0) = false.
Proof.
  unfold calculateDistance, Math_sqrt. cbv zeta.
  apply div_ten_NotNegative.
  apply round_sign. apply mul_NotNegative; [|reflexivity].
  apply mul_NotNegative; [reflexivity|].
  apply mul_NotNegative; [reflexivity|].
  apply atan2_sign.
  - apply sqrt_sum_SignClear.
  - apply sqrt_one_minus_SignClear.
Qed.

End Signs.

Lemma calculateDistance_never_negative_witness :
  (@calculateDistance Sample.unroundedMath 25 55.125 25.25 55.5 <? 0) = false.
Proof.
  apply (@calculateDistance_never_negative Sample.unroundedMath).
  - intros y x. apply div_SignClear_NotNegative.
  - intros x Hx. exact Hx.
Defined.

Section Zero.
Context {Math : MathObject}.

(** The values ECMAScript fixes: [sin(+0)], [atan2(+0, 1)] and
    [round(+0)] are [+0]. *)
Hypothesis sin_zero : Math_sin 0 = 0.
Hypothesis atan2_zero : Math_atan2 0 1 = 0.
Hypothesis round_zero : Math_round 0 = 0.

(** X7.  With such an engine the distance from a point to itself is [0],
    for finite coordinates at whose latitude the engine's cosine has a
    square of at most [1]. *)
Theorem calculateDistance_self (lat lon : float) :
  is_finite lat = true -> is_finite lon = true ->
  (Math_cos (toRad lat) * Math_cos (toRad lat) <=? 1) = true ->
  calculateDistance lat lon lat lon = 0.
Proof.
  intros Hlat Hlon Hcos.
  unfold calculateDistance, Math_sqrt. cbv zeta.
  rewrite (sub_diag lat Hlat), (sub_diag lon Hlon).
  change (toRad 0 / 2) with 0.
  rewrite sin_zero, (square_mul_zero _ Hcos).
  change (sqrt (0 * 0 + 0 * 0)) with 0.
  change (sqrt (1 - (0 * 0 + 0 * 0))) with 1.
  rewrite atan2_zero.
  change (6371 * (2 * 0) * 10) with 0.
  now rewrite round_zero.
Qed.

End Zero.

Lemma calculateDistance_self_witness :
  @calculateDistance Sample.firstOrderMath 25.25 55.5 25.25 55.5 = 0.
Proof.
  apply (@calculateDistance_self Sample.firstOrderMath); reflexivity.
Defined.

Section Antipodal.
Context {Math : MathObject}.

(** The engine returns the doubles nearest to the exact values of
    [sin(-8 deg)], [cos(8 deg)], [cos(-8 deg)] and [sin(90 deg)] at the
    arguments the code computes, and NaN goes through [atan2] and [round], as
    ECMAScript requires. *)
Hypothesis sin_8 : Math_sin (-0x1.1df46a2529d39p-3) = -0x1.1d06c968d9e19p-3.
Hypothesis cos_8 : Math_cos 0x1.1df46a2529d39p-3 = 0x1.fb046a930947ap-1.
Hypothesis cos_m8 : Math_cos (-0x1.1df46a2529d39p-3) = 0x1.fb046a930947ap-1.
Hypothesis sin_90 : Math_sin 0x1.921fb54442d18p+0 = 1.
Hypothesis atan2_nan : forall y, Math_atan2 y nan = nan.
Hypothesis round_nan : Math_round nan = nan.

(** X8.  With such an engine the distance between the antipodal points
    (8, 0) and (-8, 180) is NaN: the rounded sum [a] is [1 + 2^-52], and
    [Math.sqrt(1 - a)] is NaN.  The comparison [0 <= distance] is false. *)
Theorem calculateDistance_antipodal_nan :
  calculateDistance 8 0 (-8) 180 = nan
  /\ (0 <=? calculateDistance 8 0 (-8) 180) = false.
Proof.
  assert (E : calculateDistance 8 0 (-8) 180 = nan).
  { unfold calculateDistance, Math_sqrt. cbv zeta.
    change (toRad (-8 - 8) / 2) with (-0x1.1df46a2529d39p-3).
    change (toRad (180 - 0) / 2) with 0x1.921fb54442d18p+0.
    change (toRad 8) with 0x1.1df46a2529d39p-3.
    change (toRad (-8)) with (-0x1.1df46a2529d39p-3).
    rewrite sin_8, cos_8, cos_m8, sin_90.
    change (sqrt (1 - _)) with nan.
    rewrite atan2_nan. change (6371 * (2 * nan) * 10) with nan.
    rewrite round_nan. reflexivity. }
  split; [exact E|]. rewrite E. reflexivity.
Qed.

End Antipodal.

Lemma calculateDistance_antipodal_nan_witness :
  @calculateDistance Sample.tableMath 8 0 (-8) 180 = nan
  /\ (0 <=? @calculateDistance Sample.tableMath 8 0 (-8) 180) = false.
Proof.
  apply (@calculateDistance_antipodal_nan Sample.tableMath); try reflexivity.
  intros y. apply div_nan_r.
Defined.

Section Engine.
Context {Math : MathObject}.

(** The three assumptions on the engine made above, together. *)
Hypothesis sin_odd : forall x, Math_sin (- x) = - Math_sin x.
Hypothesis atan2_sign :
  forall y x, SignClear y -> SignClear x -> NotNegative (Math_atan2 y x).
Hypothesis round_sign : forall x, NotNegative x -> NotNegative (Math_round x).
Hypothesis sin_zero : Math_sin 0 = 0.
Hypothesis atan2_zero : Math_atan2 0 1 = 0.
Hypothesis round_zero : Math_round 0 = 0.


End Engine.



End Distance.

(* ================================================================== *)
(** * Facts about the log *)
(* ================================================================== *)

Module SysFacts.
Import Sys.

Lemma olds_app (l l' : Log) : olds (l ++ l')%list = (olds l ++ olds l')%list.
Proof.
  induction l as [|c l IH]; [reflexivity|].
  destruct c; simpl; rewrite IH; reflexivity.
Qed.

Lemma clock_app (l l' : Log) : clock (l ++ l')%list = (clock l + clock l')%nat.
Proof.
  unfold clock. rewrite olds_app, filter_app, length_app. reflexivity.
Qed.

Lemma now_run (sv : Services) (l : Log) :
  now sv l = (inr (Date_now (base sv) (clock l)), (l ++ [Old EvNow])%list).
Proof. reflexivity. Qed.

Lemma skipn_length_app {A : Type} (l l' : list A) :
  skipn (List.length l) (l ++ l')%list = l'.
Proof. induction l as [|a l IH]; [reflexivity|exact IH]. Qed.

(** A computation of the search code that only appends to the trace does
    the same when run on the longer log. *)
Lemma lift_run {A : Type} (c : Eff.M A) (l : Log) (r : Thrown + A) (new : Trace) :
  c (olds l) = (r, (olds l ++ new)%list) ->
  lift c l = (r, (l ++ List.map Old new)%list).
Proof.
  intros H. unfold lift. rewrite H, skipn_length_app. reflexivity.
Qed.

Lemma lift_generateEmbedding (sv : Services) (text : string) (l : Log) :
  lift (Gemini.generateEmbedding (base sv) text) l =
  match embedContent (base sv) text with
  | inl _ =>
      (inl (ErrorObj "Failed to generate embedding"),
       (l ++ [Old (EvEmbedContent text);
              Old (EvConsoleError "Gemini embedding error:")])%list)
  | inr embedding => (inr embedding, (l ++ [Old (EvEmbedContent text)])%list)
  end.
Proof.
  destruct (embedContent (base sv) text) as [e|v] eqn:He.
  - apply (lift_run _ _ _ [EvEmbedContent text;
                           EvConsoleError "Gemini embedding error:"]).
    unfold Gemini.generateEmbedding, Eff.try_catch, Eff.call, Eff.bind,
      Eff.console_error, Eff.call, Eff.throw.
    rewrite He. rewrite <- app_assoc. reflexivity.
  - apply (lift_run _ _ _ [EvEmbedContent text]).
    unfold Gemini.generateEmbedding, Eff.try_catch, Eff.call.
    rewrite He. reflexivity.
Qed.

End SysFacts.

(* ================================================================== *)
(** * The three route handlers *)
(* ================================================================== *)

Module Routes.
Import JsString JsNumber Http.

(** What a handler's run ends in: an answer with one of the five statuses,
    which is 200 exactly when the body carries data. *)
Ltac answer :=
  do 2 eexists; split; [reflexivity|];
  split; [simpl; tauto|];
  split; [first [discriminate | intros _; eexists; reflexivity]
         | first [intros [? ?]; discriminate | reflexivity]].

(** X9.  None of the three [POST] handlers ever throws: whatever the
    session lookup, the rate limiter, the request body, the search step, the
    language model and the clock do, the run ends in a response whose status
    is 200, 400, 401, 429 or 500, and the status is 200 exactly when the body
    is the success envelope. *)
Theorem route_handlers_never_throw (sv : Services)
    (search : string -> Handler.JsonBody -> Eff.M SearchResponse)
    (searchRequest : Handler.NextRequest) (chatRequest : ChatRoute.NextRequest)
    (safetyRequest : SafetyRoute.NextRequest) (t : Trace) (l : Log) :
  (exists resp t',
      Handler.handle (base sv) search searchRequest t = (inr resp, t')
      /\ In (Handler.status resp) [200; 400; 401; 429; 500]%nat
      /\ (Handler.status resp = 200%nat
          <-> exists data, Handler.body resp = Handler.Success data))
  /\ (exists resp l',
      ChatRoute.POST sv chatRequest l = (inr resp, l')
      /\ In (status resp) [200; 400; 401; 429; 500]%nat
      /\ (status resp = 200%nat <-> exists data, body resp = Success data))
  /\ (exists resp l',
      SafetyRoute.POST sv safetyRequest l = (inr resp, l')
      /\ In (status resp) [200; 400; 401; 429; 500]%nat
      /\ (status resp = 200%nat <-> exists data, body resp = Success data)).
Proof.
  split; [|split].
  - unfold Handler.handle, Eff.try_catch, Eff.bind, Eff.console_error, Eff.call,
      Eff.ret, Eff.throw.
    destruct (auth (base sv)) as [e|userId]; [answer|].
    destruct (negb (Handler.signed_in userId)); [answer|].
    destruct (negb (allowed _)); [answer|].
    destruct (Handler.json searchRequest) as [e|[|q f lim u]]; [answer|answer|].
    destruct (negb (Handler.truthy_value q) || negb (Handler.is_string q));
      [answer|].
    destruct (search _ _ _) as [[e|resp] t']; answer.
  - unfold ChatRoute.POST, Sys.try_catch, Sys.bind, Sys.console_error, Sys.call,
      Sys.ret, Sys.throw.
    destruct (auth (base sv)) as [e|userId]; [answer|].
    destruct (negb (Handler.signed_in userId)); [answer|].
    destruct (negb (allowed _)); [answer|].
    destruct (ChatRoute.json chatRequest) as [e|[|m c u]]; [answer|answer|].
    destruct (negb (Handler.truthy_value m) || negb (Handler.is_string m));
      [answer|].
    destruct (GeminiService.generateChatResponse _ _ _) as [[e|resp] l']; answer.
  - unfold SafetyRoute.POST, Sys.try_catch, Sys.bind, Sys.console_error, Sys.call,
      Sys.ret, Sys.throw.
    destruct (auth (base sv)) as [e|userId]; [answer|].
    destruct (negb (Handler.signed_in userId)); [answer|].
    destruct (negb (allowed _)); [answer|].
    destruct (SafetyRoute.json safetyRequest) as [e|[|la lo a]]; [answer|answer|].
    destruct (negb (SafetyRoute.is_number la) || negb (SafetyRoute.is_number lo));
      [answer|].
    unfold Sys.now at 1.
    destruct (GeminiService.generateSafetyAssessment _ _ _ _) as [[e|a'] l'];
      [answer|].
    unfold Sys.now, Sys.random_toString36. answer.
Qed.

(** X10.  A request without a signed-in user ([userId] is [null] or the
    empty string) is answered 401 [UNAUTHORIZED] by each of the three [POST]
    handlers, and nothing but the session lookup has happened by then: the
    rate limiter is not charged, the body is not read, neither the search nor
    the language model runs. *)
Theorem anonymous_request_is_turned_away_first (sv : Services)
    (search : string -> Handler.JsonBody -> Eff.M SearchResponse)
    (searchRequest : Handler.NextRequest) (chatRequest : ChatRoute.NextRequest)
    (safetyRequest : SafetyRoute.NextRequest) (t : Trace) (l : Log)
    (userId : option string) :
  auth (base sv) = inr userId ->
  Handler.signed_in userId = false ->
  Handler.handle (base sv) search searchRequest t
    = (inr Handler.unauthorized, (t ++ [EvAuth])%list)
  /\ ChatRoute.POST sv chatRequest l
    = (inr ChatRoute.unauthorized, (l ++ [Old EvAuth])%list)
  /\ SafetyRoute.POST sv safetyRequest l
    = (inr SafetyRoute.unauthorized, (l ++ [Old EvAuth])%list)
  /\ Handler.status Handler.unauthorized = 401%nat
  /\ status ChatRoute.unauthorized = 401%nat
  /\ status SafetyRoute.unauthorized = 401%nat.
Proof.
  intros Ha Hs.
  unfold Handler.handle, Eff.try_catch, Eff.bind, Eff.console_error, Eff.call,
    Eff.ret, Eff.throw.
  unfold ChatRoute.POST, SafetyRoute.POST, Sys.try_catch, Sys.bind,
    Sys.console_error, Sys.call, Sys.ret, Sys.throw.
  rewrite Ha, Hs. cbn [negb]. repeat split.
Qed.

Lemma anonymous_request_is_turned_away_first_witness :
  Handler.handle SampleServices.anonymous
    (fun text b => Route.performInMemorySearch SampleServices.anonymous text None)
    (Sample.mkHttp (Handler.JString "beach") None None) []
  = (inr Handler.unauthorized, [EvAuth]).
Proof.
  exact (proj1 (anonymous_request_is_turned_away_first
                  (SampleServices.on_host SampleServices.anonymous)
                  (fun text b =>
                     Route.performInMemorySearch SampleServices.anonymous text None)
                  (Sample.mkHttp (Handler.JString "beach") None None)
                  {| ChatRoute.json := inr ChatRoute.BodyNull |}
                  {| SafetyRoute.json := inr SafetyRoute.BodyNull |}
                  [] [] None eq_refl eq_refl)).
Defined.

(** X11.  A signed-in user whose rate limit is used up is answered 429
    with the error code [RATE_LIMIT_EXCEEDED], a message that names the
    route's hourly limit and the reset time, and the three [X-RateLimit-*]
    headers, the limit being 30 for search, 20 for chat and 10 for safety
    checks; the request body has not been read by then and no search or model
    call is made.  Each route consults its own limiter. *)
Theorem rate_limited_request_is_not_read (sv : Services)
    (search : string -> Handler.JsonBody -> Eff.M SearchResponse)
    (searchRequest : Handler.NextRequest) (chatRequest : ChatRoute.NextRequest)
    (safetyRequest : SafetyRoute.NextRequest) (t : Trace) (l : Log)
    (userId : option string) :
  auth (base sv) = inr userId ->
  Handler.signed_in userId = true ->
  let uid := Handler.uid_of userId in
  (allowed (searchRateLimiter_check (base sv) uid) = false ->
   exists resp,
     Handler.handle (base sv) search searchRequest t
       = (inr resp, (t ++ [EvAuth; EvRateLimitCheck uid])%list)
     /\ Handler.status resp = 429%nat
     /\ Handler.body resp
        = Handler.Failure "RATE_LIMIT_EXCEEDED"
            ("Rate limit exceeded. You can make 30 searches per hour. Try again at "
             ++ toLocaleTimeString (base sv)
                  (resetTime (searchRateLimiter_check (base sv) uid)) ++ ".")
     /\ Handler.headers resp
        = [("X-RateLimit-Limit", "30"); ("X-RateLimit-Remaining", "0");
           ("X-RateLimit-Reset",
            Z_toString (resetTime (searchRateLimiter_check (base sv) uid)))])
  /\ (allowed (chatRateLimiter_check sv uid) = false ->
      exists resp,
        ChatRoute.POST sv chatRequest l
          = (inr resp, (l ++ [Old EvAuth; ChatRateLimitCheck uid])%list)
        /\ status resp = 429%nat
        /\ body resp
           = Failure "RATE_LIMIT_EXCEEDED"
               ("Rate limit exceeded. You can make 20 chat requests per hour. Try again at "
                ++ toLocaleTimeString (base sv)
                     (resetTime (chatRateLimiter_check sv uid)) ++ ".")
        /\ headers resp
           = [("X-RateLimit-Limit", "20"); ("X-RateLimit-Remaining", "0");
              ("X-RateLimit-Reset",
               Z_toString (resetTime (chatRateLimiter_check sv uid)))])
  /\ (allowed (safetyRateLimiter_check sv uid) = false ->
      exists resp,
        SafetyRoute.POST sv safetyRequest l
          = (inr resp, (l ++ [Old EvAuth; SafetyRateLimitCheck uid])%list)
        /\ status resp = 429%nat
        /\ body resp
           = Failure "RATE_LIMIT_EXCEEDED"
               ("Rate limit exceeded. You can make 10 safety checks per hour. Try again at "
                ++ toLocaleTimeString (base sv)
                     (resetTime (safetyRateLimiter_check sv uid)) ++ ".")
        /\ headers resp
           = [("X-RateLimit-Limit", "10"); ("X-RateLimit-Remaining", "0");
              ("X-RateLimit-Reset",
               Z_toString (resetTime (safetyRateLimiter_check sv uid)))]).
Proof.
  intros Ha Hs uid.
  unfold Handler.handle, Eff.try_catch, Eff.bind, Eff.console_error, Eff.call,
    Eff.ret, Eff.throw.
  unfold ChatRoute.POST, SafetyRoute.POST, Sys.try_catch, Sys.bind,
    Sys.console_error, Sys.call, Sys.ret, Sys.throw.
  rewrite Ha, Hs. cbn [negb]. fold uid.
  split; [|split]; intros Hr; rewrite Hr; cbn [negb];
    eexists; (split; [rewrite <- app_assoc; reflexivity|]); repeat split.
Qed.

Lemma rate_limited_request_is_not_read_witness :
  (exists resp,
     Handler.handle (base SampleServices.limits_reached)
       (fun text b =>
          Route.performInMemorySearch (base SampleServices.limits_reached) text None)
       (Sample.mkHttp (Handler.JString "beach") None None) []
       = (inr resp, [EvAuth; EvRateLimitCheck "user_1"])
     /\ Handler.status resp = 429%nat
     /\ Handler.body resp
        = Handler.Failure "RATE_LIMIT_EXCEEDED"
            "Rate limit exceeded. You can make 30 searches per hour. Try again at 12:00:00 AM.")
  /\ (exists resp,
        ChatRoute.POST SampleServices.limits_reached
          {| ChatRoute.json := inr ChatRoute.BodyNull |} []
          = (inr resp, [Old EvAuth; ChatRateLimitCheck "user_1"])
        /\ status resp = 429%nat)
  /\ (exists resp,
        SafetyRoute.POST SampleServices.limits_reached
          {| SafetyRoute.json := inr SafetyRoute.BodyNull |} []
          = (inr resp, [Old EvAuth; SafetyRateLimitCheck "user_1"])
        /\ status resp = 429%nat).
Proof.
  destruct (rate_limited_request_is_not_read SampleServices.limits_reached
              (fun text b =>
                 Route.performInMemorySearch (base SampleServices.limits_reached)
                   text None)
              (Sample.mkHttp (Handler.JString "beach") None None)
              {| ChatRoute.json := inr ChatRoute.BodyNull |}
              {| SafetyRoute.json := inr SafetyRoute.BodyNull |}
              [] [] (Some "user_1") eq_refl eq_refl) as (H1 & H2 & H3).
  destruct (H1 eq_refl) as (r1 & E1 & S1 & B1 & _).
  destruct (H2 eq_refl) as (r2 & E2 & S2 & _).
  destruct (H3 eq_refl) as (r3 & E3 & S3 & _).
  split; [|split]; eexists.
  - split; [exact E1|]. split; [exact S1|exact B1].
  - split; [exact E2|exact S2].
  - split; [exact E3|exact S3].
Defined.

(** The session lookup throws. *)
Lemma session_failure_run (sv : Services)
    (search : string -> Handler.JsonBody -> Eff.M SearchResponse)
    (searchRequest : Handler.NextRequest) (chatRequest : ChatRoute.NextRequest)
    (safetyRequest : SafetyRoute.NextRequest) (t : Trace) (l : Log)
    (error : Thrown) :
  auth (base sv) = inl error ->
  Handler.handle (base sv) search searchRequest t
    = (inr {| Handler.body :=
                Handler.Failure "INTERNAL_ERROR"
                  (message_or error "Failed to process search request");
              Handler.status := 500; Handler.headers := [] |},
       (t ++ [EvAuth; EvConsoleError "Search API error:"])%list)
  /\ ChatRoute.POST sv chatRequest l
    = (inr {| body := Failure "INTERNAL_ERROR"
                        (message_or error "Failed to process chat request");
              status := 500; headers := [] |},
       (l ++ [Old EvAuth; Old (EvConsoleError "Chat API error:")])%list)
  /\ SafetyRoute.POST sv safetyRequest l
    = (inr {| body := Failure "INTERNAL_ERROR"
                        (message_or error "Failed to process safety check request");
              status := 500; headers := [] |},
       (l ++ [Old EvAuth; Old (EvConsoleError "Safety API error:")])%list).
Proof.
  intros Ha.
  unfold Handler.handle, Eff.try_catch, Eff.bind, Eff.console_error, Eff.call,
    Eff.ret, Eff.throw.
  unfold ChatRoute.POST, SafetyRoute.POST, Sys.try_catch, Sys.bind,
    Sys.console_error, Sys.call, Sys.ret, Sys.throw.
  rewrite Ha. rewrite <- !app_assoc. repeat split.
Qed.


(** The body cannot be read, or is [null]. *)
Lemma unreadable_body_run (sv : Services)
    (search : string -> Handler.JsonBody -> Eff.M SearchResponse)
    (searchRequest : Handler.NextRequest) (chatRequest : ChatRoute.NextRequest)
    (safetyRequest : SafetyRoute.NextRequest) (t : Trace) (l : Log)
    (userId : option string) :
  auth (base sv) = inr userId ->
  Handler.signed_in userId = true ->
  let uid := Handler.uid_of userId in
  (allowed (searchRateLimiter_check (base sv) uid) = true ->
   forall error,
     Handler.json searchRequest = inl error
     \/ (Handler.json searchRequest = inr Handler.BodyNull
         /\ error = ErrorObj "Cannot read properties of null (reading 'query')") ->
     Handler.handle (base sv) search searchRequest t
     = (inr {| Handler.body :=
                 Handler.Failure "INTERNAL_ERROR"
                   (message_or error "Failed to process search request");
               Handler.status := 500; Handler.headers := [] |},
        (t ++ [EvAuth; EvRateLimitCheck uid; EvRequestJson;
               EvConsoleError "Search API error:"])%list))
  /\ (allowed (chatRateLimiter_check sv uid) = true ->
      forall error,
        ChatRoute.json chatRequest = inl error
        \/ (ChatRoute.json chatRequest = inr ChatRoute.BodyNull
            /\ error = ErrorObj "Cannot read properties of null (reading 'message')") ->
        ChatRoute.POST sv chatRequest l
        = (inr {| body := Failure "INTERNAL_ERROR"
                            (message_or error "Failed to process chat request");
                  status := 500; headers := [] |},
           (l ++ [Old EvAuth; ChatRateLimitCheck uid; Old EvRequestJson;
                  Old (EvConsoleError "Chat API error:")])%list))
  /\ (allowed (safetyRateLimiter_check sv uid) = true ->
      forall error,
        SafetyRoute.json safetyRequest = inl error
        \/ (SafetyRoute.json safetyRequest = inr SafetyRoute.BodyNull
            /\ error = ErrorObj "Cannot read properties of null (reading 'latitude')") ->
        SafetyRoute.POST sv safetyRequest l
        = (inr {| body := Failure "INTERNAL_ERROR"
                            (message_or error "Failed to process safety check request");
                  status := 500; headers := [] |},
           (l ++ [Old EvAuth; SafetyRateLimitCheck uid; Old EvRequestJson;
                  Old (EvConsoleError "Safety API error:")])%list)).
Proof.
  intros Ha Hs uid.
  unfold Handler.handle, Eff.try_catch, Eff.bind, Eff.console_error, Eff.call,
    Eff.ret, Eff.throw.
  unfold ChatRoute.POST, SafetyRoute.POST, Sys.try_catch, Sys.bind,
    Sys.console_error, Sys.call, Sys.ret, Sys.throw.
  rewrite Ha, Hs. cbn [negb]. fold uid.
  split; [|split]; intros Hr error [Hj|[Hj ->]]; rewrite Hr, Hj; cbn [negb];
    rewrite <- !app_assoc; reflexivity.
Qed.


(** X12.  What goes wrong before the work starts is answered 500
    [INTERNAL_ERROR] by each of the three [POST] handlers, after one line in
    the server log, with the message of the thrown [Error] sent to the client
    (or the route's own fixed text when the thrown value is not an [Error]):
    so it is when the session lookup throws, when [request.json()] rejects, as
    on malformed JSON, and when the body is the JSON value [null], which is
    answered 500 with the text of the engine's [TypeError], not 400.  The
    search and the language model are not reached. *)
Theorem early_failures_are_answered_500 (sv : Services)
    (search : string -> Handler.JsonBody -> Eff.M SearchResponse)
    (searchRequest : Handler.NextRequest) (chatRequest : ChatRoute.NextRequest)
    (safetyRequest : SafetyRoute.NextRequest) (t : Trace) (l : Log) :
  (forall error,
     auth (base sv) = inl error ->
     Handler.handle (base sv) search searchRequest t
       = (inr {| Handler.body :=
                   Handler.Failure "INTERNAL_ERROR"
                     (message_or error "Failed to process search request");
                 Handler.status := 500; Handler.headers := [] |},
          (t ++ [EvAuth; EvConsoleError "Search API error:"])%list)
     /\ ChatRoute.POST sv chatRequest l
       = (inr {| body := Failure "INTERNAL_ERROR"
                           (message_or error "Failed to process chat request");
                 status := 500; headers := [] |},
          (l ++ [Old EvAuth; Old (EvConsoleError "Chat API error:")])%list)
     /\ SafetyRoute.POST sv safetyRequest l
       = (inr {| body := Failure "INTERNAL_ERROR"
                           (message_or error "Failed to process safety check request");
                 status := 500; headers := [] |},
          (l ++ [Old EvAuth; Old (EvConsoleError "Safety API error:")])%list))
  /\ (forall userId,
        auth (base sv) = inr userId ->
        Handler.signed_in userId = true ->
        let uid := Handler.uid_of userId in
        (allowed (searchRateLimiter_check (base sv) uid) = true ->
         forall error,
           Handler.json searchRequest = inl error
           \/ (Handler.json searchRequest = inr Handler.BodyNull
               /\ error = ErrorObj "Cannot read properties of null (reading 'query')") ->
           Handler.handle (base sv) search searchRequest t
           = (inr {| Handler.body :=
                       Handler.Failure "INTERNAL_ERROR"
                         (message_or error "Failed to process search request");
                     Handler.status := 500; Handler.headers := [] |},
              (t ++ [EvAuth; EvRateLimitCheck uid; EvRequestJson;
                     EvConsoleError "Search API error:"])%list))
        /\ (allowed (chatRateLimiter_check sv uid) = true ->
            forall error,
              ChatRoute.json chatRequest = inl error
              \/ (ChatRoute.json chatRequest = inr ChatRoute.BodyNull
                  /\ error
                     = ErrorObj "Cannot read properties of null (reading 'message')") ->
              ChatRoute.POST sv chatRequest l
              = (inr {| body := Failure "INTERNAL_ERROR"
                                  (message_or error "Failed to process chat request");
                        status := 500; headers := [] |},
                 (l ++ [Old EvAuth; ChatRateLimitCheck uid; Old EvRequestJson;
                        Old (EvConsoleError "Chat API error:")])%list))
        /\ (allowed (safetyRateLimiter_check sv uid) = true ->
            forall error,
              SafetyRoute.json safetyRequest = inl error
              \/ (SafetyRoute.json safetyRequest = inr SafetyRoute.BodyNull
                  /\ error
                     = ErrorObj "Cannot read properties of null (reading 'latitude')") ->
              SafetyRoute.POST sv safetyRequest l
              = (inr {| body := Failure "INTERNAL_ERROR"
                                  (message_or error
                                     "Failed to process safety check request");
                        status := 500; headers := [] |},
                 (l ++ [Old EvAuth; SafetyRateLimitCheck uid; Old EvRequestJson;
                        Old (EvConsoleError "Safety API error:")])%list))).
Proof.
  split.
  - intros error Ha. now apply session_failure_run.
  - intros userId Ha Hs. now apply unreadable_body_run.
Qed.

Lemma early_failures_are_answered_500_witness :
  (exists t',
     Handler.handle SampleServices.auth_down
       (fun text b => Route.performInMemorySearch SampleServices.auth_down text None)
       (Sample.mkHttp (Handler.JString "beach") None None) []
     = (inr {| Handler.body :=
                 Handler.Failure "INTERNAL_ERROR" "Clerk: session lookup failed";
               Handler.status := 500; Handler.headers := [] |}, t'))
  /\ (exists t',
        Handler.handle Sample.host
          (fun text b => Route.performInMemorySearch Sample.host text None)
          {| Handler.json := inr Handler.BodyNull |} []
        = (inr {| Handler.body :=
                    Handler.Failure "INTERNAL_ERROR"
                      "Cannot read properties of null (reading 'query')";
                  Handler.status := 500; Handler.headers := [] |}, t'))
  /\ (exists l',
        ChatRoute.POST SampleServices.services
          {| ChatRoute.json := inl (ErrorObj "Unexpected end of JSON input") |} []
        = (inr {| body := Failure "INTERNAL_ERROR" "Unexpected end of JSON input";
                  status := 500; headers := [] |}, l'))
  /\ (exists l',
        SafetyRoute.POST SampleServices.services
          {| SafetyRoute.json := inl NonError |} []
        = (inr {| body := Failure "INTERNAL_ERROR"
                            "Failed to process safety check request";
                  status := 500; headers := [] |}, l')).
Proof.
  split.
  - eexists.
    exact (proj1 (proj1 (early_failures_are_answered_500
                           (SampleServices.on_host SampleServices.auth_down)
                           (fun text b =>
                              Route.performInMemorySearch SampleServices.auth_down
                                text None)
                           (Sample.mkHttp (Handler.JString "beach") None None)
                           {| ChatRoute.json := inr ChatRoute.BodyNull |}
                           {| SafetyRoute.json := inr SafetyRoute.BodyNull |}
                           [] [])
                        (ErrorObj "Clerk: session lookup failed") eq_refl)).
  - destruct (proj2 (early_failures_are_answered_500 SampleServices.services
                       (fun text b => Route.performInMemorySearch Sample.host text None)
                       {| Handler.json := inr Handler.BodyNull |}
                       {| ChatRoute.json :=
                            inl (ErrorObj "Unexpected end of JSON input") |}
                       {| SafetyRoute.json := inl NonError |}
                       [] [])
                    (Some "user_1") eq_refl eq_refl) as (H1 & H2 & H3).
    split; [|split]; eexists.
    + exact (H1 eq_refl _ (or_intror (conj eq_refl eq_refl))).
    + exact (H2 eq_refl _ (or_introl eq_refl)).
    + exact (H3 eq_refl _ (or_introl eq_refl)).
Defined.

End Routes.

(* ================================================================== *)
(** * The chat service and its route *)
(* ================================================================== *)

Module Chat.
Import JsString JsNumber Http GeminiService Sys SysFacts.

(** X13.  [estimateTokens] counts one token for every started group of
    four characters: the estimate [n] of a text of [len] characters is the
    only integer with [4 * (n - 1) < len <= 4 * n], that is
    [(len + 3) / 4] rounded down; the empty text counts zero tokens. *)
Theorem estimateTokens_is_a_ceiling (text : string) :
  let len := Z.of_nat (String.length text) in
  (4 * (estimateTokens text - 1) < len <= 4 * estimateTokens text)%Z
  /\ estimateTokens text = ((len + 3) / 4)%Z
  /\ (estimateTokens text = 0%Z <-> text = EmptyString).
Proof.
  intros len. unfold estimateTokens. fold len.
  assert (E : Qceiling (inject_Z len / 4) = ((len + 3) / 4)%Z).
  { unfold Qceiling, Qfloor, Qdiv, Qmult, Qinv, Qopp, inject_Z. simpl.
    rewrite Z.mul_1_r.
    assert (H := Z.div_mod (- len) 4 ltac:(lia)).
    assert (H' := Z.mod_pos_bound (- len) 4 ltac:(lia)).
    apply Z.div_unique with (r := (len + 3 + 4 * (- len / 4))%Z); lia. }
  rewrite E.
  assert (H := Z.div_mod (len + 3) 4 ltac:(lia)).
  assert (H' := Z.mod_pos_bound (len + 3) 4 ltac:(lia)).
  assert (Hlen : (0 <= len)%Z) by (unfold len; lia).
  split; [lia|]. split; [reflexivity|].
  split.
  - intros H0. assert (len = 0)%Z by lia.
    destruct text; [reflexivity|]. unfold len in *. simpl in *. lia.
  - intros ->. reflexivity.
Qed.

Lemma chat_generateSuggestions_rules (message : string) :
  generateSuggestions message =
  SuggestionRules.firstMatch chatRules chatDefault (toLowerCase message).
Proof.
  unfold generateSuggestions, SuggestionRules.firstMatch, chatRules, chatDefault,
    existsb.
  cbv zeta. repeat rewrite orb_false_r. reflexivity.
Qed.

(** A text that contains ['safety'] contains ['safe']. *)
Lemma includes_safety (s : string) :
  includes s "safety" = true -> includes s "safe" = true.
Proof.
  rewrite !StringFacts.includes_spec. intros (pre & post & ->).
  exists pre, ("ty" ++ post). reflexivity.
Qed.

Lemma chat_generateSuggestions_rules_without_safety (message : string) :
  generateSuggestions message =
  SuggestionRules.firstMatch chatRules_without_safety chatDefault
    (toLowerCase message).
Proof.
  rewrite chat_generateSuggestions_rules.
  unfold SuggestionRules.firstMatch, chatRules, chatRules_without_safety, existsb.
  repeat rewrite orb_false_r.
  destruct (includes (toLowerCase message) "safe") eqn:Hs; [reflexivity|].
  destruct (includes (toLowerCase message) "safety") eqn:Hy; [|reflexivity].
  apply includes_safety in Hy. congruence.
Qed.

(** X14.  The follow-up questions of a chat answer follow the table of
    [generateSuggestions]: food or restaurant, then visit or see, then safe,
    each keyword looked for anywhere in the lower-cased message, the first
    rule that matches winning (so a message about safe food gets the food
    questions), and the customs questions when nothing matches; always three
    questions.  The fourth keyword of the source, ['safety'], never decides
    anything: the table without it gives the same function. *)
Theorem chat_suggestions_follow_their_table :
  SuggestionRules.FollowsTable generateSuggestions chatRules chatDefault
  /\ SuggestionRules.FollowsTable generateSuggestions chatRules_without_safety
       chatDefault
  /\ generateSuggestions "Is the street FOOD safe?"
     = ["Where can I find authentic Emirati food?";
        "Best restaurants with a view?";
        "Halal dining options near me"].
Proof.
  split; [|split].
  - apply Claims.follows_table.
    + exact chat_generateSuggestions_rules.
    + repeat constructor.
    + reflexivity.
  - apply Claims.follows_table.
    + exact chat_generateSuggestions_rules_without_safety.
    + repeat constructor.
    + reflexivity.
  - reflexivity.
Qed.


Lemma substring_length (n m : nat) (s : string) :
  (String.length (String.substring n m s) <= m)%nat.
Proof.
  revert n m. induction s as [|c s IH]; intros n m.
  - destruct n, m; simpl; lia.
  - destruct n as [|n]; [destruct m as [|m]|]; simpl.
    + lia.
    + specialize (IH 0%nat m). lia.
    + apply IH.
Qed.

Lemma generateConversationId_run (sv : Services) (l : Log) :
  generateConversationId sv l =
  (inr ("conv_" ++ Z_toString (Date_now (base sv) (clock l)) ++ "_"
        ++ substr_2_9 (Math_random_toString36 sv (draws l))),
   (l ++ [Old EvNow; MathRandom])%list).
Proof.
  unfold generateConversationId, Sys.bind, Sys.random_toString36, Sys.ret.
  rewrite now_run. unfold draws.
  rewrite filter_app, length_app. simpl. rewrite Nat.add_0_r, <- app_assoc.
  reflexivity.
Qed.

(** One run of [generateChatResponse], by what the model call does. *)
Lemma generateChatResponse_run (sv : Services) (request : ChatRequest) (l : Log) :
  let prompt := message request ++ context_of sv request in
  let l1 := (l ++ [Old EvNow; GenerateContent "gemini-2.5-flash" prompt])%list in
  generateChatResponse sv request l =
  match generateContent sv "gemini-2.5-flash" prompt with
  | inl _ =>
      (inl (ErrorObj "Failed to generate chat response"),
       (l1 ++ [Old (EvConsoleError "Gemini chat error:")])%list)
  | inr text =>
      (inr {| response := text;
              chat_conversationId :=
                if keeps_id request
                then or_else (conversationId request) EmptyString
                else "conv_" ++ Z_toString (Date_now (base sv) (S (S (clock l))))
                     ++ "_" ++ substr_2_9 (Math_random_toString36 sv (draws l));
              chat_suggestions := generateSuggestions (message request);
              metadata :=
                {| model := "gemini-2.5-flash";
                   tokensUsed := estimateTokens (prompt ++ text);
                   processingTimeMs :=
                     (Date_now (base sv) (S (clock l))
                      - Date_now (base sv) (clock l))%Z |} |},
       if keeps_id request then (l1 ++ [Old EvNow])%list
       else (l1 ++ [Old EvNow; Old EvNow; MathRandom])%list)
  end.
Proof.
  intros prompt l1.
  unfold generateChatResponse, Sys.bind at 1. rewrite now_run.
  unfold Sys.try_catch, Sys.bind at 1, Sys.call at 1. fold prompt.
  rewrite <- app_assoc. cbn [app]. fold l1.
  destruct (generateContent sv "gemini-2.5-flash" prompt) as [e|text].
  - reflexivity.
  - unfold Sys.bind at 1. rewrite now_run.
    assert (Hc : clock l1 = S (clock l)).
    { unfold l1. rewrite clock_app. unfold clock at 2. simpl. lia. }
    assert (Hc' : clock (l1 ++ [Old EvNow])%list = S (S (clock l))).
    { rewrite clock_app, Hc. unfold clock at 2. simpl. lia. }
    assert (Hd : draws (l1 ++ [Old EvNow])%list = draws l).
    { unfold draws, l1. rewrite !filter_app, !length_app. simpl. lia. }
    rewrite Hc. unfold Sys.bind, keeps_id, or_else.
    destruct (conversationId request) as [c|].
    + destruct (truthy c).
      * reflexivity.
      * rewrite generateConversationId_run, Hc', Hd, <- app_assoc. reflexivity.
    + rewrite generateConversationId_run, Hc', Hd, <- app_assoc. reflexivity.
Qed.

(** X15.  A chat answer keeps the caller's conversation: when the model
    answers, [generateChatResponse] returns the model's text and, if the
    request carries a non-empty [conversationId], exactly that id, without
    drawing a random number.  Only when the id is missing or the empty string
    is a new one made, of the form [conv_<clock>_<suffix>] with a suffix of at
    most nine characters cut from the base-36 rendering of one random draw. *)
Theorem chat_keeps_the_conversation_id (sv : Services) (request : ChatRequest)
    (l : Log) (text : string) :
  generateContent sv "gemini-2.5-flash" (message request ++ context_of sv request)
    = inr text ->
  exists resp l',
    generateChatResponse sv request l = (inr resp, l')
    /\ response resp = text
    /\ (forall c, conversationId request = Some c -> c <> EmptyString ->
          chat_conversationId resp = c /\ draws l' = draws l)
    /\ (conversationId request = None \/ conversationId request = Some EmptyString ->
          exists suffix,
            chat_conversationId resp
              = "conv_" ++ Z_toString (Date_now (base sv) (S (S (clock l))))
                ++ "_" ++ suffix
            /\ (String.length suffix <= 9)%nat
            /\ draws l' = S (draws l)).
Proof.
  intros Hg. assert (H := generateChatResponse_run sv request l).
  cbv zeta in H. rewrite Hg in H. do 2 eexists. split; [exact H|].
  split; [reflexivity|]. cbn [chat_conversationId]. split.
  - intros c Hc Hne. unfold keeps_id, or_else. rewrite Hc.
    destruct c as [|a c]; [congruence|]. cbn [truthy]. split; [reflexivity|].
    unfold draws. rewrite !filter_app, !length_app. simpl. lia.
  - intros Hc. assert (Hk : keeps_id request = false).
    { unfold keeps_id. destruct Hc as [-> | ->]; reflexivity. }
    rewrite Hk. eexists. split; [reflexivity|]. split.
    + apply substring_length.
    + unfold draws. rewrite !filter_app, !length_app. simpl. lia.
Qed.

Lemma chat_keeps_the_conversation_id_witness :
  exists resp l',
    generateChatResponse SampleServices.services
      {| message := "Where to eat?"; conversationId := Some "conv_42_abc";
         userContext := None |} [] = (inr resp, l')
    /\ chat_conversationId resp = "conv_42_abc".
Proof.
  destruct (chat_keeps_the_conversation_id SampleServices.services
              {| message := "Where to eat?"; conversationId := Some "conv_42_abc";
                 userContext := None |} [] SampleServices.reply eq_refl)
    as (resp & l' & H & _ & Hk & _).
  exists resp, l'. split; [exact H|].
  apply (Hk "conv_42_abc" eq_refl). discriminate.
Defined.

(** A signed-in user within the limit who sends a JSON object: the route
    validates [message], and only then calls the service. *)
Lemma chat_POST_object (sv : Services) (request : ChatRoute.NextRequest) (l : Log)
    (userId : option string) (m : Handler.JsValue) (c : option string)
    (u : option Json.Value) :
  auth (base sv) = inr userId ->
  Handler.signed_in userId = true ->
  allowed (chatRateLimiter_check sv (Handler.uid_of userId)) = true ->
  ChatRoute.json request = inr (ChatRoute.BodyObject m c u) ->
  ChatRoute.POST sv request l =
  let l0 := (l ++ [Old EvAuth; ChatRateLimitCheck (Handler.uid_of userId);
                   Old EvRequestJson])%list in
  if negb (Handler.truthy_value m) || negb (Handler.is_string m)
  then (inr ChatRoute.invalid_request, l0)
  else match generateChatResponse sv
               {| message := Handler.string_of m; conversationId := c;
                  userContext := u |} l0 with
       | (inl e, l') =>
           (inr (ChatRoute.internal_error e),
            (l' ++ [Old (EvConsoleError "Chat API error:")])%list)
       | (inr resp, l') => (inr (ChatRoute.ok resp), l')
       end.
Proof.
  intros Ha Hs Hr Hj.
  unfold ChatRoute.POST, Sys.try_catch, Sys.bind, Sys.console_error, Sys.call,
    Sys.ret, Sys.throw.
  rewrite Ha, Hs, Hr, Hj. cbn [negb]. cbv beta iota zeta.
  repeat rewrite <- app_assoc. cbn [app].
  destruct (negb (Handler.truthy_value m) || negb (Handler.is_string m));
    cbv beta iota; [reflexivity|].
  destruct (generateChatResponse sv _ _) as [[e|resp] l']; reflexivity.
Qed.

(** X16.  The chat route validates before it spends anything: for a
    signed-in user within the limit, a body whose [message] is missing, not a
    string or the empty string is answered 400 [INVALID_REQUEST], and neither
    the clock nor the language model has been touched; every other [message],
    a string of blanks included, goes on to the model. *)
Theorem chat_message_is_validated_first (sv : Services)
    (request : ChatRoute.NextRequest) (l : Log) (userId : option string)
    (m : Handler.JsValue) (c : option string) (u : option Json.Value) :
  auth (base sv) = inr userId ->
  Handler.signed_in userId = true ->
  allowed (chatRateLimiter_check sv (Handler.uid_of userId)) = true ->
  ChatRoute.json request = inr (ChatRoute.BodyObject m c u) ->
  let l0 := (l ++ [Old EvAuth; ChatRateLimitCheck (Handler.uid_of userId);
                   Old EvRequestJson])%list in
  ((~ exists s, m = Handler.JString s /\ s <> EmptyString) ->
   ChatRoute.POST sv request l = (inr ChatRoute.invalid_request, l0)
   /\ status ChatRoute.invalid_request = 400%nat)
  /\ (forall s, m = Handler.JString s -> s <> EmptyString ->
      exists resp l',
        ChatRoute.POST sv request l = (inr resp, l')
        /\ status resp <> 400%nat
        /\ exists rest,
             l' = (l0 ++ Old EvNow
                      :: GenerateContent "gemini-2.5-flash"
                           (s ++ context_of sv {| message := s; conversationId := c;
                                                  userContext := u |})
                      :: rest)%list).
Proof.
  intros Ha Hs Hr Hj l0.
  rewrite (chat_POST_object sv request l userId m c u Ha Hs Hr Hj). cbv zeta. fold l0.
  split.
  - intros Hno.
    destruct (negb (Handler.truthy_value m) || negb (Handler.is_string m)) eqn:Hv.
    + split; reflexivity.
    + apply HandlerFacts.validation_passes in Hv. contradiction.
  - intros s -> Hne.
    assert (Hv : negb (Handler.truthy_value (Handler.JString s))
                 || negb (Handler.is_string (Handler.JString s)) = false).
    { apply HandlerFacts.validation_passes. now exists s. }
    rewrite Hv, generateChatResponse_run.
    cbn [message Handler.string_of].
    destruct (generateContent sv _ _) as [e|text].
    + do 2 eexists. split; [reflexivity|]. split; [discriminate|].
      eexists. rewrite <- !app_assoc. cbn [app]. reflexivity.
    + do 2 eexists. split; [reflexivity|]. split; [discriminate|].
      destruct (keeps_id _); eexists; rewrite <- !app_assoc; cbn [app];
        reflexivity.
Qed.

Lemma chat_message_is_validated_first_witness :
  ChatRoute.POST SampleServices.services
    {| ChatRoute.json := inr (ChatRoute.BodyObject (Handler.JNumber 7) None None) |} []
  = (inr ChatRoute.invalid_request,
     [Old EvAuth; ChatRateLimitCheck "user_1"; Old EvRequestJson]).
Proof.
  refine (proj1 (proj1 (chat_message_is_validated_first SampleServices.services
                   {| ChatRoute.json :=
                        inr (ChatRoute.BodyObject (Handler.JNumber 7) None None) |}
                   [] (Some "user_1") (Handler.JNumber 7) None None
                   eq_refl eq_refl eq_refl eq_refl) _)).
  intros (s & H & _). discriminate H.
Defined.

(** X17.  The chat route hides the provider's error: for a valid message,
    whatever the model call throws, the route answers 500 [INTERNAL_ERROR]
    with the fixed text ['Failed to generate chat response'], after exactly
    one model call and two log lines; when the model answers, the route
    answers 200 with the model's text, the follow-up questions of the message
    and a token estimate over the prompt and the answer together. *)
Theorem chat_route_masks_model_failure (sv : Services)
    (request : ChatRoute.NextRequest) (l : Log) (userId : option string)
    (s : string) (c : option string) (u : option Json.Value) :
  auth (base sv) = inr userId ->
  Handler.signed_in userId = true ->
  allowed (chatRateLimiter_check sv (Handler.uid_of userId)) = true ->
  ChatRoute.json request = inr (ChatRoute.BodyObject (Handler.JString s) c u) ->
  s <> EmptyString ->
  let prompt := s ++ context_of sv {| message := s; conversationId := c;
                                      userContext := u |} in
  let l1 := (l ++ [Old EvAuth; ChatRateLimitCheck (Handler.uid_of userId);
                   Old EvRequestJson; Old EvNow;
                   GenerateContent "gemini-2.5-flash" prompt])%list in
  (forall error,
     generateContent sv "gemini-2.5-flash" prompt = inl error ->
     ChatRoute.POST sv request l
     = (inr {| body := Failure "INTERNAL_ERROR" "Failed to generate chat response";
               status := 500; headers := [] |},
        (l1 ++ [Old (EvConsoleError "Gemini chat error:");
                Old (EvConsoleError "Chat API error:")])%list))
  /\ (forall text,
        generateContent sv "gemini-2.5-flash" prompt = inr text ->
        exists data l',
          ChatRoute.POST sv request l
          = (inr {| body := Success data; status := 200; headers := [] |}, l')
          /\ response data = text
          /\ chat_suggestions data = generateSuggestions s
          /\ tokensUsed (metadata data) = estimateTokens (prompt ++ text)).
Proof.
  intros Ha Hs Hr Hj Hne prompt l1.
  assert (Hv : negb (Handler.truthy_value (Handler.JString s))
               || negb (Handler.is_string (Handler.JString s)) = false).
  { apply HandlerFacts.validation_passes. now exists s. }
  rewrite (chat_POST_object sv request l userId _ c u Ha Hs Hr Hj). cbv zeta.
  rewrite Hv, generateChatResponse_run.
  cbn [message Handler.string_of]. fold prompt.
  rewrite <- !app_assoc. cbn [app].
  split.
  - intros error He. rewrite He. unfold l1.
    rewrite <- !app_assoc. reflexivity.
  - intros text He. rewrite He. do 2 eexists. split; [reflexivity|].
    repeat split.
Qed.

Lemma chat_route_masks_model_failure_witness :
  exists l',
    ChatRoute.POST SampleServices.model_down
      {| ChatRoute.json :=
           inr (ChatRoute.BodyObject (Handler.JString "Is it safe?") None None) |} []
    = (inr {| body := Failure "INTERNAL_ERROR" "Failed to generate chat response";
              status := 500; headers := [] |}, l').
Proof.
  eexists.
  exact (proj1 (chat_route_masks_model_failure SampleServices.model_down
                  {| ChatRoute.json :=
                       inr (ChatRoute.BodyObject (Handler.JString "Is it safe?")
                              None None) |}
                  [] (Some "user_1") "Is it safe?" None None
                  eq_refl eq_refl eq_refl eq_refl ltac:(discriminate))
               (ErrorObj "503 Service Unavailable") eq_refl).
Defined.

(** X18.  The Gemini wrappers do not pass the provider's error on.  When
    the SDK call throws, whatever it throws, [generateChatResponse],
    [generateEmbedding] and [analyzeImage] each log it once and throw an
    [Error] of their own with a fixed message; the call is made once and not
    repeated.  When the vision call resolves, [analyzeImage] returns its text
    as it is. *)
Theorem gemini_wrappers_mask_provider_errors (sv : Services)
    (request : ChatRequest) (text imageBase64 prompt : string)
    (t : Trace) (l : Log) :
  (forall error,
     generateContent sv "gemini-2.5-flash" (message request ++ context_of sv request)
       = inl error ->
     generateChatResponse sv request l
     = (inl (ErrorObj "Failed to generate chat response"),
        (l ++ [Old EvNow;
               GenerateContent "gemini-2.5-flash"
                 (message request ++ context_of sv request);
               Old (EvConsoleError "Gemini chat error:")])%list))
  /\ (forall error,
        embedContent (base sv) text = inl error ->
        Gemini.generateEmbedding (base sv) text t
        = (inl (ErrorObj "Failed to generate embedding"),
           (t ++ [EvEmbedContent text;
                  EvConsoleError "Gemini embedding error:"])%list))
  /\ (forall error,
        generateContentWithImage sv "gemini-2.5-flash" prompt imageBase64 = inl error ->
        analyzeImage sv imageBase64 prompt l
        = (inl (ErrorObj "Failed to analyze image"),
           (l ++ [GenerateContentWithImage "gemini-2.5-flash" prompt imageBase64;
                  Old (EvConsoleError "Gemini vision error:")])%list))
  /\ (forall answer,
        generateContentWithImage sv "gemini-2.5-flash" prompt imageBase64 = inr answer ->
        analyzeImage sv imageBase64 prompt l
        = (inr answer,
           (l ++ [GenerateContentWithImage "gemini-2.5-flash" prompt
                    imageBase64])%list)).
Proof.
  split; [|split; [|split]].
  - intros error He. rewrite generateChatResponse_run. cbv zeta. rewrite He.
    rewrite <- app_assoc. reflexivity.
  - intros error He.
    unfold Gemini.generateEmbedding, Eff.try_catch, Eff.call, Eff.bind,
      Eff.console_error, Eff.call, Eff.throw.
    rewrite He, <- app_assoc. reflexivity.
  - intros error He.
    unfold analyzeImage, Sys.try_catch, Sys.call, Sys.bind, Sys.console_error,
      Sys.call, Sys.throw.
    rewrite He, <- app_assoc. reflexivity.
  - intros answer He. unfold analyzeImage, Sys.try_catch, Sys.call.
    rewrite He. reflexivity.
Qed.

Lemma gemini_wrappers_mask_provider_errors_witness :
  exists l',
    generateChatResponse SampleServices.model_down
      {| message := "Is it safe?"; conversationId := None; userContext := None |} []
    = (inl (ErrorObj "Failed to generate chat response"), l').
Proof.
  eexists.
  exact (proj1 (gemini_wrappers_mask_provider_errors SampleServices.model_down
                  {| message := "Is it safe?"; conversationId := None;
                     userContext := None |}
                  "beach" "" "What is this?" [] [])
               (ErrorObj "503 Service Unavailable") eq_refl).
Defined.

End Chat.

(* ================================================================== *)
(** * The safety assessment and its route *)
(* ================================================================== *)

Module Safety.
Import JsString JsNumber Http GeminiService Sys SysFacts.

Lemma from_first_spec (c : ascii) (s r : string) :
  from_first c s = Some r <->
  exists pre rest, s = pre ++ String c rest /\ r = String c rest /\ ~ In c (chars pre).
Proof.
  induction s as [|d s IH]; simpl.
  - split; [discriminate|]. intros (pre & rest & H & _). destruct pre; discriminate.
  - destruct (Ascii.eqb d c) eqn:Hd.
    + apply Ascii.eqb_eq in Hd. subst d. split.
      * intros H. injection H as <-. exists EmptyString, s. simpl. tauto.
      * intros (pre & rest & H & -> & Hn). destruct pre as [|e pre]; simpl in H.
        -- now rewrite H.
        -- injection H as -> _. exfalso. apply Hn. now left.
    + apply Ascii.eqb_neq in Hd. rewrite IH. split.
      * intros (pre & rest & -> & -> & Hn). exists (String d pre), rest.
        simpl. repeat split. intros [H|H]; [congruence|contradiction].
      * intros (pre & rest & H & -> & Hn). destruct pre as [|e pre]; simpl in H.
        -- injection H as H _. congruence.
        -- injection H as -> ->. exists pre, rest. repeat split.
           intros Hin. apply Hn. now right.
Qed.

Lemma up_to_last_none (c : ascii) (s : string) :
  ~ In c (chars s) -> up_to_last c s = None.
Proof.
  induction s as [|d s IH]; [reflexivity|]. simpl. intros Hn.
  rewrite IH by tauto.
  destruct (Ascii.eqb d c) eqn:Hd; [|reflexivity].
  apply Ascii.eqb_eq in Hd. tauto.
Qed.

Lemma up_to_last_app (c : ascii) (body post : string) :
  ~ In c (chars post) ->
  up_to_last c (body ++ String c post) = Some (body ++ String c EmptyString).
Proof.
  intros Hn. induction body as [|e body IH]; simpl.
  - rewrite (up_to_last_none c post Hn), Ascii.eqb_refl. reflexivity.
  - rewrite IH. reflexivity.
Qed.

Lemma up_to_last_spec (c : ascii) (s p : string) :
  up_to_last c s = Some p <->
  exists body post,
    s = body ++ String c post /\ p = body ++ String c EmptyString
    /\ ~ In c (chars post).
Proof.
  split.
  - revert p. induction s as [|d s IH]; intros p; simpl; [discriminate|].
    destruct (up_to_last c s) as [q|] eqn:Hq.
    + destruct (IH q eq_refl) as (body & post & -> & -> & Hn).
      intros H. injection H as <-. exists (String d body), post. now simpl.
    + destruct (Ascii.eqb d c) eqn:Hd; [|discriminate].
      apply Ascii.eqb_eq in Hd. subst d.
      intros H. injection H as <-. exists EmptyString, s. repeat split.
      intros Hin. clear IH. revert Hq. 
      induction s as [|a s IHs]; [contradiction|]. simpl in *.
      destruct (up_to_last c s); [discriminate|].
      destruct Hin as [->|Hin]; [now rewrite Ascii.eqb_refl|].
      exfalso. now apply IHs.
  - intros (body & post & -> & -> & Hn). now apply up_to_last_app.
Qed.

(** X19.  What the pattern of line 191 extracts from the model's answer:
    the span from the first opening brace of the text to its last closing
    brace, prose before and after dropped.  There is a match exactly when a
    closing brace follows the first opening brace; an answer that holds two
    objects yields one span over both, up to the last brace. *)
Theorem match_braces_is_first_to_last (responseText m : string) :
  match_braces responseText = Some m <->
  exists pre body post,
    responseText = pre ++ "{" ++ body ++ "}" ++ post
    /\ m = "{" ++ body ++ "}"
    /\ ~ In "{"%char (chars pre)
    /\ ~ In "}"%char (chars post).
Proof.
  unfold match_braces. split.
  - destruct (from_first "{" responseText) as [[|open rest]|] eqn:Hf;
      try discriminate.
    apply from_first_spec in Hf. destruct Hf as (pre & rest' & -> & Hr & Hn).
    injection Hr as -> ->.
    destruct (up_to_last "}" rest') as [p|] eqn:Hp; [|discriminate].
    apply up_to_last_spec in Hp. destruct Hp as (body & post & -> & -> & Hn').
    intros H. injection H as <-. exists pre, body, post. simpl.
    repeat split; assumption.
  - intros (pre & body & post & -> & -> & Hn & Hn').
    rewrite (proj2 (from_first_spec "{" (pre ++ "{" ++ body ++ "}" ++ post)
                      ("{" ++ body ++ "}" ++ post))).
    + simpl. rewrite (proj2 (up_to_last_spec "}" (body ++ String "}" post)
                               (body ++ "}"))).
      * reflexivity.
      * now exists body, post.
    + exists pre, (body ++ "}" ++ post). now simpl.
Qed.

Lemma match_braces_is_first_to_last_witness :
  match_braces "Low: {a} or high: {b}. Done" = Some "{a} or high: {b}".
Proof.
  apply (proj2 (match_braces_is_first_to_last
                  "Low: {a} or high: {b}. Done" "{a} or high: {b}")).
  exists "Low: ", "a} or high: {b", ". Done".
  repeat split; vm_compute; intuition discriminate.
Defined.

(** One run of [generateSafetyAssessment]. *)
Lemma generateSafetyAssessment_run (sv : Services) (location : SafetyLocation)
    (context : option SafetyContext) (l : Log) :
  let prompt := safety_prompt sv location context in
  let l1 := (l ++ [GenerateContent "gemini-2.5-flash" prompt])%list in
  generateSafetyAssessment sv location context l =
  match parsed sv (generateContent sv "gemini-2.5-flash" prompt) with
  | Some assessment => (inr assessment, l1)
  | None =>
      (inr fallback_assessment,
       (l1 ++ [Old (EvConsoleError "Gemini safety assessment error:")])%list)
  end.
Proof.
  intros prompt l1.
  unfold generateSafetyAssessment, Sys.try_catch, Sys.bind at 1, Sys.call.
  fold prompt. fold l1. unfold parsed.
  destruct (generateContent sv "gemini-2.5-flash" prompt) as [e|text];
    [reflexivity|].
  destruct (match_braces text) as [j|]; [|reflexivity].
  unfold Sys.bind, Sys.of_result, Sys.ret.
  destruct (JSON_parse sv j) as [e|[ |b|q|s|items|fields]]; reflexivity.
Qed.

(** X20.  [generateSafetyAssessment] never fails and never retries: it
    makes exactly one model call and always resolves.  Whenever the model
    call throws, or its answer holds no brace span, or [JSON.parse] rejects
    the span or yields [null], the error is logged, in exactly one line, and
    the caller gets the fixed default: risk score 20, risk level ['low'], the
    general message and four recommendations.  When the span parses to
    anything but [null], nothing is logged. *)
Theorem safety_assessment_falls_back (sv : Services) (location : SafetyLocation)
    (context : option SafetyContext) (l : Log) :
  let prompt := safety_prompt sv location context in
  let outcome := generateContent sv "gemini-2.5-flash" prompt in
  exists assessment rest,
    generateSafetyAssessment sv location context l
    = (inr assessment, (l ++ GenerateContent "gemini-2.5-flash" prompt :: rest)%list)
    /\ (rest = []
        \/ (rest = [Old (EvConsoleError "Gemini safety assessment error:")]
            /\ assessment = fallback_assessment))
    /\ ((exists error, outcome = inl error)
        \/ (exists text, outcome = inr text /\ match_braces text = None)
        \/ (exists text span,
              outcome = inr text /\ match_braces text = Some span
              /\ ((exists error, JSON_parse sv span = inl error)
                  \/ JSON_parse sv span = inr Json.Null)) ->
        assessment = fallback_assessment
        /\ rest = [Old (EvConsoleError "Gemini safety assessment error:")]
        /\ riskScore assessment = Some (Json.Number 20)
        /\ riskLevel assessment = Some (Json.Str "low"))
    /\ (forall text span value,
          outcome = inr text -> match_braces text = Some span ->
          JSON_parse sv span = inr value -> value <> Json.Null ->
          rest = []).
Proof.
  intros prompt outcome.
  assert (H := generateSafetyAssessment_run sv location context l).
  cbv zeta in H. fold prompt in H. fold outcome in H.
  destruct (parsed sv outcome) as [a|] eqn:Hp.
  - exists a, []. split; [exact H|]. split; [now left|].
    split; [|reflexivity].
    unfold parsed in Hp.
    intros [[e He] | [(text & He & Hm) | (text & span & He & Hm & Hj)]];
      rewrite He in Hp; try discriminate; rewrite Hm in Hp; try discriminate.
    destruct Hj as [[e Hj]|Hj]; rewrite Hj in Hp; discriminate.
  - eexists _, [_]. split; [rewrite H, <- app_assoc; reflexivity|].
    split; [right; split; reflexivity|].
    split; [intros _; repeat split|].
    intros text span value He Hm Hj Hnull. exfalso.
    unfold parsed in Hp. rewrite He, Hm, Hj in Hp.
    destruct value; try discriminate Hp. now apply Hnull.
Qed.

(** X21.  What the model says is not checked: when the brace span of the
    answer parses to a JSON object, the assessment is made of its fields
    [risk_score], [risk_level], [message] and [recommendations] exactly as
    they are.  A score outside 0-100, a level outside the four known ones, a
    value of the wrong type or a missing field ([undefined]) reaches the
    caller unchanged, and nothing is logged. *)
Theorem safety_assessment_is_not_validated (sv : Services)
    (location : SafetyLocation) (context : option SafetyContext) (l : Log)
    (text span : string) (fields : list (string * Json.Value)) :
  let prompt := safety_prompt sv location context in
  generateContent sv "gemini-2.5-flash" prompt = inr text ->
  match_braces text = Some span ->
  JSON_parse sv span = inr (Json.Object fields) ->
  generateSafetyAssessment sv location context l
  = (inr {| riskScore := Json.lookup "risk_score" fields;
            riskLevel := Json.lookup "risk_level" fields;
            assessment_message := Json.lookup "message" fields;
            recommendations := Json.lookup "recommendations" fields |},
     (l ++ [GenerateContent "gemini-2.5-flash" prompt])%list).
Proof.
  intros prompt Hg Hm Hj.
  rewrite generateSafetyAssessment_run. cbv zeta. fold prompt.
  unfold parsed. rewrite Hg, Hm, Hj. reflexivity.
Qed.

Lemma safety_assessment_is_not_validated_witness :
  exists l',
    generateSafetyAssessment SampleServices.services
      {| sl_latitude := 25; sl_longitude := 55; sl_areaName := None |} None []
    = (inr {| riskScore := Some (Json.Number 250);
              riskLevel := Some (Json.Str "high");
              assessment_message := Some (Json.Str "Remote industrial zone.");
              recommendations := None |}, l').
Proof.
  eexists.
  exact (safety_assessment_is_not_validated SampleServices.services
           {| sl_latitude := 25; sl_longitude := 55; sl_areaName := None |} None []
           SampleServices.reply SampleServices.assessment_json _
           eq_refl eq_refl eq_refl).
Defined.

(** A signed-in user within the limit who sends a JSON object: the route
    checks the two coordinates, and only then reads the clock and asks for the
    assessment. *)
Lemma safety_POST_object (sv : Services) (request : SafetyRoute.NextRequest) (l : Log)
    (userId : option string) (la lo : Handler.JsValue) (a : option string) :
  auth (base sv) = inr userId ->
  Handler.signed_in userId = true ->
  allowed (safetyRateLimiter_check sv (Handler.uid_of userId)) = true ->
  SafetyRoute.json request = inr (SafetyRoute.BodyObject la lo a) ->
  SafetyRoute.POST sv request l =
  let l0 := (l ++ [Old EvAuth; SafetyRateLimitCheck (Handler.uid_of userId);
                   Old EvRequestJson])%list in
  if negb (SafetyRoute.is_number la) || negb (SafetyRoute.is_number lo)
  then (inr SafetyRoute.invalid_request, l0)
  else
    let now := Date_now (base sv) (clock l) in
    let timeOfDay := hour_of sv now in
    let location := {| sl_latitude := SafetyRoute.number_of la;
                       sl_longitude := SafetyRoute.number_of lo;
                       sl_areaName := a |} in
    let context := Some {| timeOfDay := Some timeOfDay; weather := None;
                           incidents := None |} in
    let prompt := safety_prompt sv location context in
    let outcome := parsed sv (generateContent sv "gemini-2.5-flash" prompt) in
    let assessment :=
      match outcome with Some x => x | None => fallback_assessment end in
    let workflowId :=
      "safety_" ++ Z_toString (Date_now (base sv) (S (clock l))) ++ "_"
      ++ substr_2_9 (Math_random_toString36 sv (draws l)) in
    (inr (SafetyRoute.ok
            (SafetyRoute.safetyResponse_of (SafetyRoute.number_of la)
               (SafetyRoute.number_of lo) a now timeOfDay assessment workflowId)),
     (l0 ++ Old EvNow :: GenerateContent "gemini-2.5-flash" prompt
         :: match outcome with
            | Some _ => []
            | None => [Old (EvConsoleError "Gemini safety assessment error:")]
            end ++ [Old EvNow; MathRandom])%list).
Proof.
  intros Ha Hs Hr Hj.
  unfold SafetyRoute.POST, Sys.try_catch, Sys.bind at 1 2 3, Sys.call.
  rewrite Ha, Hs, Hr, Hj. cbn [negb]. cbv beta iota zeta.
  repeat rewrite <- app_assoc. cbn [app].
  destruct (negb (SafetyRoute.is_number la) || negb (SafetyRoute.is_number lo));
    cbv beta iota; [reflexivity|].
  unfold Sys.bind at 1. rewrite now_run.
  assert (Hc : clock (l ++ [Old EvAuth; SafetyRateLimitCheck (Handler.uid_of userId);
                            Old EvRequestJson])%list = clock l).
  { rewrite clock_app. unfold clock at 2. simpl. lia. }
  rewrite Hc. unfold Sys.bind at 1. rewrite generateSafetyAssessment_run.
  cbv zeta.
  set (prompt := safety_prompt sv _ _).
  assert (Hd : forall extra,
             List.filter Eff.is_now (Sys.olds extra) = [] ->
             draws extra = 0%nat ->
             clock (((l ++ [Old EvAuth; SafetyRateLimitCheck (Handler.uid_of userId);
                            Old EvRequestJson]) ++ [Old EvNow])
                    ++ GenerateContent "gemini-2.5-flash" prompt :: extra)%list
             = S (clock l)
             /\ draws ((((l ++ [Old EvAuth;
                                 SafetyRateLimitCheck (Handler.uid_of userId);
                                 Old EvRequestJson]) ++ [Old EvNow])
                         ++ GenerateContent "gemini-2.5-flash" prompt :: extra)
                        ++ [Old EvNow])%list
                = draws l).
  { intros extra He Hx. split.
    - rewrite !clock_app. unfold clock at 2 3 4. simpl. rewrite He. simpl. lia.
    - unfold draws in *. rewrite !filter_app, !length_app. simpl. lia. }
  destruct (parsed sv (generateContent sv "gemini-2.5-flash" prompt)) as [x|].
  - destruct (Hd [] eq_refl eq_refl) as [Hd1 Hd2].
    unfold Sys.bind, Sys.random_toString36, Sys.ret. rewrite now_run.
    rewrite Hd1, Hd2. repeat rewrite <- app_assoc. reflexivity.
  - destruct (Hd [Old (EvConsoleError "Gemini safety assessment error:")]
                eq_refl eq_refl) as [Hd1 Hd2].
    unfold Sys.bind, Sys.random_toString36, Sys.ret. rewrite now_run.
    repeat rewrite <- app_assoc in *. cbn [app] in *.
    rewrite Hd1, Hd2. reflexivity.
Qed.

(** X22.  A safety check does not depend on the language model being up:
    for a signed-in user within the limit who sends two numeric coordinates,
    when every model call fails the route still answers 200, with the default
    assessment (risk score 20, level ['low']), the human-review stage
    ['skipped'], the area named ['Unknown area'] when the request names none,
    and the failure visible only in the server log. *)
Theorem safety_check_survives_model_outage (sv : Services)
    (request : SafetyRoute.NextRequest) (l : Log) (userId : option string)
    (latitude longitude : Q) (areaName : option string) :
  auth (base sv) = inr userId ->
  Handler.signed_in userId = true ->
  allowed (safetyRateLimiter_check sv (Handler.uid_of userId)) = true ->
  SafetyRoute.json request
    = inr (SafetyRoute.BodyObject (Handler.JNumber latitude)
             (Handler.JNumber longitude) areaName) ->
  (forall prompt, exists error,
      generateContent sv "gemini-2.5-flash" prompt = inl error) ->
  exists data l',
    SafetyRoute.POST sv request l
    = (inr {| body := Success data; status := 200; headers := [] |}, l')
    /\ SafetyRoute.riskScore data = Some (Json.Number 20)
    /\ SafetyRoute.riskLevel data = Some (Json.Str "low")
    /\ SafetyRoute.recommendations data = recommendations fallback_assessment
    /\ SafetyRoute.statuses data = ["completed"; "completed"; "completed"; "skipped"; "completed"]
    /\ SafetyRoute.audit_areaName (SafetyRoute.audit_location (SafetyRoute.jsonData data))
       = or_else areaName "Unknown area"
    /\ In (Old (EvConsoleError "Gemini safety assessment error:")) l'.
Proof.
  intros Ha Hs Hr Hj Hdown.
  rewrite (safety_POST_object sv request l userId _ _ areaName Ha Hs Hr Hj).
  cbv zeta. cbn [SafetyRoute.is_number negb orb SafetyRoute.number_of].
  match goal with
  | |- context [generateContent sv "gemini-2.5-flash" ?p] =>
      destruct (Hdown p) as [error He]; rewrite He
  end.
  cbn [parsed]. do 2 eexists. split; [reflexivity|].
  repeat split.
  rewrite !in_app_iff. right. simpl. tauto.
Qed.

Lemma safety_check_survives_model_outage_witness :
  exists data l',
    SafetyRoute.POST SampleServices.model_down
      {| SafetyRoute.json :=
           inr (SafetyRoute.BodyObject (Handler.JNumber 25) (Handler.JNumber 55)
                  None) |} []
    = (inr {| body := Success data; status := 200; headers := [] |}, l')
    /\ SafetyRoute.riskScore data = Some (Json.Number 20).
Proof.
  destruct (safety_check_survives_model_outage SampleServices.model_down
              {| SafetyRoute.json :=
                   inr (SafetyRoute.BodyObject (Handler.JNumber 25)
                          (Handler.JNumber 55) None) |}
              [] (Some "user_1") 25 55 None eq_refl eq_refl eq_refl eq_refl
              (fun _ => ex_intro _ (ErrorObj "503 Service Unavailable") eq_refl))
    as (data & l' & H & Hscore & _).
  exists data, l'. split; assumption.
Defined.

(** X23.  Human review is decided by the risk level alone: every 200
    answer of the safety route carries the five workflow stages, numbered 1
    to 5 and stamped with the time of the check; stages 1, 2, 3 and 5 are
    ['completed'], and stage 4 is ['required'] exactly when the assessment's
    [riskLevel] is the string ['high'] or ['critical'], and ['skipped'] for
    everything else, a missing level, another spelling, or a high score with a
    lower level included. *)
Theorem human_review_follows_the_risk_level (sv : Services)
    (request : SafetyRoute.NextRequest) (l : Log) (userId : option string)
    (latitude longitude : Q) (areaName : option string) :
  auth (base sv) = inr userId ->
  Handler.signed_in userId = true ->
  allowed (safetyRateLimiter_check sv (Handler.uid_of userId)) = true ->
  SafetyRoute.json request
    = inr (SafetyRoute.BodyObject (Handler.JNumber latitude)
             (Handler.JNumber longitude) areaName) ->
  exists data l',
    SafetyRoute.POST sv request l
    = (inr {| body := Success data; status := 200; headers := [] |}, l')
    /\ List.map SafetyRoute.stage
         (SafetyRoute.workflowStages (SafetyRoute.jsonData data))
       = [1; 2; 3; 4; 5]%Z
    /\ List.map SafetyRoute.stage_timestamp
         (SafetyRoute.workflowStages (SafetyRoute.jsonData data))
       = List.repeat (SafetyRoute.checkedAt data) 5
    /\ (SafetyRoute.riskLevel data = Some (Json.Str "high")
        \/ SafetyRoute.riskLevel data = Some (Json.Str "critical") ->
        SafetyRoute.statuses data
        = ["completed"; "completed"; "completed"; "required"; "completed"])
    /\ (SafetyRoute.riskLevel data <> Some (Json.Str "high") ->
        SafetyRoute.riskLevel data <> Some (Json.Str "critical") ->
        SafetyRoute.statuses data
        = ["completed"; "completed"; "completed"; "skipped"; "completed"]).
Proof.
  intros Ha Hs Hr Hj.
  rewrite (safety_POST_object sv request l userId _ _ areaName Ha Hs Hr Hj).
  cbv zeta. cbn [SafetyRoute.is_number negb orb SafetyRoute.number_of].
  do 2 eexists. split; [reflexivity|].
  unfold SafetyRoute.statuses.
  cbn [SafetyRoute.safetyResponse_of SafetyRoute.jsonData SafetyRoute.workflowStages
       SafetyRoute.riskLevel SafetyRoute.checkedAt SafetyRoute.stages_of List.map
       SafetyRoute.stage SafetyRoute.stage_status SafetyRoute.stage_timestamp
       List.repeat].
  split; [reflexivity|]. split; [reflexivity|].
  match goal with
  | |- context [SafetyRoute.needs_review ?x] => generalize x
  end.
  intros level. split.
  - intros [-> | ->]; reflexivity.
  - intros Hh Hc.
    assert (Hn : SafetyRoute.needs_review level = false).
    { unfold SafetyRoute.needs_review.
      destruct level as [[ | | |s| | ]|]; try reflexivity.
      destruct (String.eqb s "high") eqn:E1.
      - apply String.eqb_eq in E1. congruence.
      - destruct (String.eqb s "critical") eqn:E2; [|reflexivity].
        apply String.eqb_eq in E2. congruence. }
    rewrite Hn. reflexivity.
Qed.

Lemma human_review_follows_the_risk_level_witness :
  exists data l',
    SafetyRoute.POST SampleServices.services
      {| SafetyRoute.json :=
           inr (SafetyRoute.BodyObject (Handler.JNumber 25) (Handler.JNumber 55)
                  (Some "Jebel Ali")) |} []
    = (inr {| body := Success data; status := 200; headers := [] |}, l')
    /\ SafetyRoute.statuses data
       = ["completed"; "completed"; "completed"; "required"; "completed"].
Proof.
  destruct (human_review_follows_the_risk_level SampleServices.services
              {| SafetyRoute.json :=
                   inr (SafetyRoute.BodyObject (Handler.JNumber 25)
                          (Handler.JNumber 55) (Some "Jebel Ali")) |}
              [] (Some "user_1") 25 55 (Some "Jebel Ali")
              eq_refl eq_refl eq_refl eq_refl)
    as (data & l' & H & _ & _ & Hreq & _).
  exists data, l'. split; [exact H|]. apply Hreq.
  injection H as H. subst data. left. reflexivity.
Defined.

(** X24.  The safety route checks the coordinates by type only: for a
    signed-in user within the limit, any two JSON numbers pass and are
    answered 200, whatever their size (a latitude of 1000 included); a
    coordinate that is missing, [null], a numeric string or any other value
    is answered 400 [INVALID_REQUEST] before the clock is read or the model
    called. *)
Theorem coordinates_are_checked_by_type_only (sv : Services)
    (request : SafetyRoute.NextRequest) (l : Log) (userId : option string)
    (la lo : Handler.JsValue) (areaName : option string) :
  auth (base sv) = inr userId ->
  Handler.signed_in userId = true ->
  allowed (safetyRateLimiter_check sv (Handler.uid_of userId)) = true ->
  SafetyRoute.json request = inr (SafetyRoute.BodyObject la lo areaName) ->
  exists resp l',
    SafetyRoute.POST sv request l = (inr resp, l')
    /\ (forall x y, la = Handler.JNumber x -> lo = Handler.JNumber y ->
        status resp = 200%nat
        /\ exists data,
             body resp = Success data
             /\ SafetyRoute.audit_latitude
                  (SafetyRoute.audit_location (SafetyRoute.jsonData data)) = x
             /\ SafetyRoute.audit_longitude
                  (SafetyRoute.audit_location (SafetyRoute.jsonData data)) = y)
    /\ ((~ exists x y, la = Handler.JNumber x /\ lo = Handler.JNumber y) ->
        resp = SafetyRoute.invalid_request
        /\ status resp = 400%nat
        /\ l' = (l ++ [Old EvAuth; SafetyRateLimitCheck (Handler.uid_of userId);
                       Old EvRequestJson])%list).
Proof.
  intros Ha Hs Hr Hj.
  rewrite (safety_POST_object sv request l userId la lo areaName Ha Hs Hr Hj).
  cbv zeta.
  destruct (negb (SafetyRoute.is_number la) || negb (SafetyRoute.is_number lo))
    eqn:Hv.
  - do 2 eexists. split; [reflexivity|]. split.
    + intros x y -> ->. discriminate Hv.
    + intros _. repeat split.
  - do 2 eexists. split; [reflexivity|]. split.
    + intros x y -> ->. split; [reflexivity|]. eexists. split; [reflexivity|].
      split; reflexivity.
    + intros Hno. exfalso. apply Hno.
      destruct la; try discriminate Hv. destruct lo; try discriminate Hv.
      eauto.
Qed.

Lemma coordinates_are_checked_by_type_only_witness :
  exists resp l',
    SafetyRoute.POST SampleServices.services
      {| SafetyRoute.json :=
           inr (SafetyRoute.BodyObject (Handler.JNumber 1000)
                  (Handler.JString "55.27") None) |} []
    = (inr resp, l')
    /\ status resp = 400%nat.
Proof.
  destruct (coordinates_are_checked_by_type_only SampleServices.services
              {| SafetyRoute.json :=
                   inr (SafetyRoute.BodyObject (Handler.JNumber 1000)
                          (Handler.JString "55.27") None) |}
              [] (Some "user_1") (Handler.JNumber 1000) (Handler.JString "55.27")
              None eq_refl eq_refl eq_refl eq_refl)
    as (resp & l' & H & _ & Hbad).
  exists resp, l'. split; [exact H|].
  apply Hbad. intros (x & y & _ & Hy). discriminate Hy.
Defined.

End Safety.

(* ================================================================== *)
(** * Setting up and reading the collection *)
(* ================================================================== *)

Module Collection.
Import JsString JsNumber QdrantAdmin Sys SysFacts.

(** One run of [bulkAddLocations]. *)
Lemma bulkAddLocations_run (sv : Services) (locations : list Location) (l : Log) :
  let l1 := (l ++ embedding_calls locations)%list in
  bulkAddLocations sv locations l =
  match all_resolved (List.map (embedContent (base sv))
                        (List.map embeddingText locations)) with
  | None =>
      (inl (ErrorObj "Failed to generate embedding"),
       (l1 ++ embedding_error_lines sv locations
           ++ [Old (EvConsoleError "Failed to bulk add locations:")])%list)
  | Some embeddings =>
      let points := points_from 0 locations embeddings in
      match upsert sv COLLECTION_NAME points with
      | inl e =>
          (inl e,
           (l1 ++ [Upsert COLLECTION_NAME points;
                   Old (EvConsoleError "Failed to bulk add locations:")])%list)
      | inr _ => (inr tt, (l1 ++ [Upsert COLLECTION_NAME points])%list)
      end
  end.
Proof.
  intros l1.
  unfold bulkAddLocations, Sys.try_catch, Sys.bind at 1, start_embeddings.
  fold (embedding_calls locations). fold l1.
  cbv zeta.
  destruct (all_resolved _) as [embeddings|].
  - unfold Sys.call, Sys.bind, Sys.console_error, Sys.call, Sys.throw.
    destruct (upsert sv COLLECTION_NAME _) as [e|[]];
      rewrite <- ?app_assoc; reflexivity.
  - unfold Sys.bind, embedding_errors, Sys.console_error, Sys.call, Sys.throw.
    fold (embedding_error_lines sv locations).
    rewrite <- !app_assoc. reflexivity.
Qed.

Lemma upserts_embedding_error_lines (sv : Services) (locations : list Location) :
  upserts (embedding_error_lines sv locations) = [].
Proof.
  unfold embedding_error_lines.
  induction (rejections _) as [|e es IH]; [reflexivity|exact IH].
Qed.

Lemma exits_embedding_error_lines (sv : Services) (locations : list Location) :
  exits (embedding_error_lines sv locations) = [].
Proof.
  unfold embedding_error_lines.
  induction (rejections _) as [|e es IH]; [reflexivity|exact IH].
Qed.

Lemma all_resolved_Some {A : Type} (outcomes : list (Thrown + A)) (values : list A) :
  all_resolved outcomes = Some values <-> outcomes = List.map inr values.
Proof.
  revert values. induction outcomes as [|[e|a] outcomes IH]; intros values; simpl.
  - split.
    + intros H. injection H as <-. reflexivity.
    + destruct values; [reflexivity|discriminate].
  - split; [discriminate|]. destruct values; discriminate.
  - destruct (all_resolved outcomes) as [vs|]; simpl.
    + split.
      * intros H. injection H as <-. simpl. f_equal. now apply IH.
      * destruct values as [|v values]; [discriminate|]. simpl.
        intros H. injection H as <- H. apply IH in H. now injection H as <-.
    + split; [discriminate|].
      destruct values as [|v values]; [discriminate|]. simpl.
      intros H. injection H as _ H. apply IH in H. discriminate.
Qed.

Lemma all_resolved_None {A : Type} (outcomes : list (Thrown + A)) :
  all_resolved outcomes = None <-> exists e, In (inl e) outcomes.
Proof.
  induction outcomes as [|[e|a] outcomes IH]; simpl.
  - split; [discriminate|]. intros [e []].
  - split; [eauto|reflexivity].
  - destruct (all_resolved outcomes) as [vs|]; simpl.
    + split; [discriminate|]. intros [e [H|H]]; [discriminate|].
      assert (Hn : Some vs = None) by (apply IH; eauto).
      discriminate Hn.
    + split; [|reflexivity]. intros _.
      destruct (proj1 IH eq_refl) as [e He]. eauto.
Qed.

Lemma points_from_length (index : nat) (locations : list Location)
    (embeddings : list Embedding) :
  List.length locations = List.length embeddings ->
  List.length (points_from index locations embeddings) = List.length locations.
Proof.
  revert index embeddings.
  induction locations as [|x locations IH]; intros index [|v embeddings] H;
    try discriminate; simpl; [reflexivity|].
  f_equal. apply IH. now injection H.
Qed.

Lemma points_from_ids (index : nat) (locations : list Location)
    (embeddings : list Embedding) :
  List.length locations = List.length embeddings ->
  List.map point_id (points_from index locations embeddings)
  = List.map (fun k => NumId (Z.of_nat k + 1)) (seq index (List.length locations)).
Proof.
  revert index embeddings.
  induction locations as [|x locations IH]; intros index [|v embeddings] H;
    try discriminate; simpl; [reflexivity|].
  f_equal. apply IH. now injection H.
Qed.

Lemma points_from_payloads (index : nat) (locations : list Location)
    (embeddings : list Embedding) :
  List.length locations = List.length embeddings ->
  List.map point_payload (points_from index locations embeddings)
  = List.map (fun location =>
                {| stored := location; originalId := Some (loc_id location) |})
      locations.
Proof.
  revert index embeddings.
  induction locations as [|x locations IH]; intros index [|v embeddings] H;
    try discriminate; simpl; [reflexivity|].
  f_equal. apply IH. now injection H.
Qed.

Lemma points_from_vectors (index : nat) (locations : list Location)
    (embeddings : list Embedding) :
  List.length locations = List.length embeddings ->
  List.map vector (points_from index locations embeddings) = embeddings.
Proof.
  revert index embeddings.
  induction locations as [|x locations IH]; intros index [|v embeddings] H;
    try discriminate; simpl; [reflexivity|].
  f_equal. apply IH. now injection H.
Qed.

(** A point of [points_from] sits at a position of the list of locations. *)
Lemma points_from_In (index : nat) (locations : list Location)
    (embeddings : list Embedding) (p : QdrantPoint) :
  In p (points_from index locations embeddings) ->
  exists k location,
    nth_error locations k = Some location
    /\ point_id p = NumId (Z.of_nat (index + k) + 1)
    /\ point_payload p
       = {| stored := location; originalId := Some (loc_id location) |}.
Proof.
  revert index embeddings.
  induction locations as [|x locations IH]; intros index [|v embeddings];
    simpl; try contradiction.
  intros [<-|H].
  - exists 0%nat, x. rewrite Nat.add_0_r. repeat split.
  - destruct (IH _ _ H) as (k & location & Hk & Hid & Hp).
    exists (S k), location. rewrite Nat.add_succ_r. repeat split; assumption.
Qed.

Lemma NoDup_numbered (index n : nat) :
  NoDup (List.map (fun k => NumId (Z.of_nat k + 1)) (seq index n)).
Proof.
  apply Finite.Injective_map_NoDup; [|apply seq_NoDup].
  intros a b H. injection H as H. lia.
Qed.

(** X25.  When every embedding call resolves, [bulkAddLocations] sends
    the whole list in one [upsert] to [dubai_locations]: one point per
    location and in the same order, numbered 1, 2, ... by position (so the
    ids are distinct whatever the locations' own ids are), each with the
    embedding of [name description tags category] as vector and with the
    location as payload, its own id kept under [originalId].  The run
    resolves or throws exactly as that one [upsert] does: when it resolves
    nothing more happens, and when it throws the error is logged in exactly
    one line and thrown on. *)
Theorem bulk_points_are_numbered_by_position (sv : Services)
    (locations : list Location) (l : Log) :
  (forall location, In location locations ->
     exists v, embedContent (base sv) (embeddingText location) = inr v) ->
  exists points tail,
    bulkAddLocations sv locations l
    = (match upsert sv COLLECTION_NAME points with
       | inl e => inl e
       | inr _ => inr tt
       end,
       (l ++ embedding_calls locations ++ Upsert "dubai_locations" points :: tail)%list)
    /\ (forall error,
          upsert sv COLLECTION_NAME points = inl error ->
          tail = [Old (EvConsoleError "Failed to bulk add locations:")])
    /\ (forall done, upsert sv COLLECTION_NAME points = inr done -> tail = [])
    /\ List.map point_id points
       = List.map (fun k => NumId (Z.of_nat k + 1)) (seq 0 (List.length locations))
    /\ NoDup (List.map point_id points)
    /\ List.map point_payload points
       = List.map (fun location =>
                     {| stored := location; originalId := Some (loc_id location) |})
           locations
    /\ List.map (fun p => inr (vector p)) points
       = List.map (fun location => embedContent (base sv) (embeddingText location))
           locations.
Proof.
  intros Hall.
  assert (Hex : exists embeddings,
             List.map (embedContent (base sv)) (List.map embeddingText locations)
             = List.map inr embeddings).
  { clear l. induction locations as [|x locations IH].
    - now exists [].
    - destruct (Hall x (or_introl eq_refl)) as [v Hv].
      destruct IH as [vs Hvs]; [intros y Hy; apply Hall; now right|].
      exists (v :: vs). simpl. now rewrite Hv, Hvs. }
  destruct Hex as [embeddings He].
  assert (Hlen : List.length locations = List.length embeddings).
  { apply (f_equal (@List.length _)) in He. now rewrite !length_map in He. }
  assert (Hr := bulkAddLocations_run sv locations l). cbv zeta in Hr.
  rewrite (proj2 (all_resolved_Some _ embeddings) He) in Hr.
  exists (points_from 0 locations embeddings).
  destruct (upsert sv COLLECTION_NAME (points_from 0 locations embeddings))
    as [e|[]] eqn:Hu.
  - exists [Old (EvConsoleError "Failed to bulk add locations:")].
    split; [rewrite Hr, <- app_assoc; reflexivity|].
    split; [reflexivity|]. split; [discriminate|].
    rewrite points_from_ids, points_from_payloads by assumption.
    split; [reflexivity|]. split; [apply NoDup_numbered|]. split; [reflexivity|].
    rewrite <- (map_map vector inr), points_from_vectors, <- He, map_map by assumption.
    reflexivity.
  - exists []. split; [rewrite Hr, <- app_assoc; reflexivity|].
    split; [discriminate|]. split; [reflexivity|].
    rewrite points_from_ids, points_from_payloads by assumption.
    split; [reflexivity|]. split; [apply NoDup_numbered|]. split; [reflexivity|].
    rewrite <- (map_map vector inr), points_from_vectors, <- He, map_map by assumption.
    reflexivity.
Qed.

Lemma bulk_points_are_numbered_by_position_witness :
  exists points tail,
    bulkAddLocations SampleServices.services Sample.catalogue []
    = (inr tt,
       (embedding_calls Sample.catalogue ++ Upsert "dubai_locations" points :: tail)%list)
    /\ List.map point_id points = [NumId 1; NumId 2; NumId 3; NumId 4].
Proof.
  destruct (bulk_points_are_numbered_by_position SampleServices.services
              Sample.catalogue []
              (fun location _ => ex_intro _ [0.5%float; 0.25%float] eq_refl))
    as (points & tail & H & _ & _ & Hid & _).
  exists points, tail. split; [exact H|exact Hid].
Defined.


Lemma upserts_app (l l' : Log) : upserts (l ++ l')%list = (upserts l ++ upserts l')%list.
Proof. apply filter_app. Qed.

Lemma upserts_embedding_calls (locations : list Location) :
  upserts (embedding_calls locations) = [].
Proof.
  unfold embedding_calls. induction locations as [|x locations IH]; [reflexivity|].
  exact IH.
Qed.

(** X26.  Nothing is written without its embedding.  When the embedding
    call of one location of the list fails, [bulkAddLocations] throws the
    service's ['Failed to generate embedding'] and makes no [upsert] at all,
    although the embedding of every location of the list was requested; and
    when the embedding call for a single location fails, [addLocation] throws
    the same error and makes no [upsert] either. *)
Theorem no_upsert_without_embeddings (sv : Services) (locations : list Location)
    (failing : Location) (l : Log) (error : Thrown) :
  embedContent (base sv) (embeddingText failing) = inl error ->
  (In failing locations ->
   exists l',
     bulkAddLocations sv locations l
     = (inl (ErrorObj "Failed to generate embedding"), l')
     /\ upserts l' = upserts l
     /\ forall location, In location locations ->
          In (Old (EvEmbedContent (embeddingText location))) l')
  /\ exists l',
       addLocation sv failing l
       = (inl (ErrorObj "Failed to generate embedding"), l')
       /\ upserts l' = upserts l.
Proof.
  intros He. split.
  - intros Hin. assert (Hr := bulkAddLocations_run sv locations l).
    cbv zeta in Hr.
    rewrite (proj2 (all_resolved_None _)) in Hr.
    + eexists. split; [exact Hr|]. split.
      * rewrite !upserts_app, upserts_embedding_calls,
          upserts_embedding_error_lines. simpl.
        now rewrite !app_nil_r.
      * intros location Hl. rewrite !in_app_iff. left. right.
        unfold embedding_calls. rewrite map_map.
        apply (in_map (fun x => Old (EvEmbedContent (embeddingText x)))).
        exact Hl.
    + exists error. rewrite <- He, map_map.
      apply (in_map (fun x => embedContent (base sv) (embeddingText x))).
      exact Hin.
  - unfold addLocation, Sys.try_catch, Sys.bind at 1.
    rewrite lift_generateEmbedding, He.
    unfold Sys.bind, Sys.console_error, Sys.call, Sys.throw.
    eexists. split; [reflexivity|].
    rewrite !upserts_app. simpl. now rewrite !app_nil_r.
Qed.

Lemma no_upsert_without_embeddings_witness :
  exists l',
    bulkAddLocations (SampleServices.on_host Sample.host_embedding_down)
      Sample.catalogue []
    = (inl (ErrorObj "Failed to generate embedding"), l')
    /\ upserts l' = [].
Proof.
  destruct (proj1 (no_upsert_without_embeddings
                     (SampleServices.on_host Sample.host_embedding_down)
                     Sample.catalogue Sample.ustad [] (ErrorObj "fetch failed")
                     eq_refl))
    as (l' & H & Hu & _).
  - simpl. tauto.
  - exists l'. split; [exact H|exact Hu].
Defined.

(** The sample index holds points numbered like those [bulkAddLocations]
    makes of the five sample locations. *)
Lemma sample_index_holds_the_catalogue (v : Embedding) (lim : Z)
    (f : option Filter) (hits : list ScoredPoint) (hit : ScoredPoint) :
  qdrant_search (base SampleServices.services) v lim f = inr hits ->
  In hit hits ->
  In (hit_id hit)
     (List.map point_id
        (points_from 0
           [Sample.jumeirah; Sample.ustad; Sample.lounge; Sample.kiosk;
            Sample.equator]
           [[]; []; []; []; []])).
Proof.
  intros Hq Hin.
  assert (E : hits = firstn (Z.to_nat lim)
                       (List.filter (Index.passes f) Sample.stored)).
  { change (Sample.index v lim f = inr hits) in Hq. unfold Sample.index in Hq.
    congruence. }
  rewrite E in Hin. apply ArrayFacts.firstn_In in Hin.
  apply filter_In in Hin. destruct Hin as [Hin _].
  unfold Sample.stored in Hin. simpl in Hin. simpl.
  intuition (subst; simpl; tauto).
Qed.

(** X27.  Search results do not carry the locations' ids.  When the index
    holds the points [bulkAddLocations] stored, every result of
    [searchLocations] has as [id] the decimal position number of its point
    (["1"] for the first location of the list, and so on), while the
    location's own id stays behind in the payload's [originalId], which
    [searchLocations] never reads.  And [getLocationById] asks the collection
    for its argument as a string id, which is the id of none of these
    points, whether it is called with a location's id or with a result's. *)
Theorem search_results_carry_position_numbers {Math : MathObject} (sv : Services)
    (locations : list Location) (embeddings : list Embedding)
    (request : SearchRequest) (t t' : Trace) (resp : SearchResponse) :
  let points := points_from 0 locations embeddings in
  (forall v lim f hits hit,
     qdrant_search (base sv) v lim f = inr hits -> In hit hits ->
     In (hit_id hit) (List.map point_id points)) ->
  Qdrant.searchLocations (base sv) request t = (inr resp, t') ->
  (forall r, In r (results resp) ->
     exists k location,
       nth_error locations k = Some location
       /\ id r = Z_toString (Z.of_nat k + 1)
       /\ exists p, In p points
            /\ point_id p = NumId (Z.of_nat k + 1)
            /\ originalId (point_payload p) = Some (loc_id location))
  /\ (forall anyId l,
        exists found l',
          getLocationById sv anyId l
          = (inr found, (l ++ Retrieve "dubai_locations" [StrId anyId] :: l')%list)
          /\ forall p, In p points -> ~ In (point_id p) [StrId anyId]).
Proof.
  intros points Hindex Hs. split.
  - apply QdrantFacts.searchLocations_inr in Hs.
    destruct Hs as (v & hits & _ & Hq & Hres & _).
    intros r Hr. rewrite Hres in Hr. apply in_map_iff in Hr.
    destruct Hr as (hit & <- & Hhit).
    specialize (Hindex _ _ _ _ _ Hq Hhit). apply in_map_iff in Hindex.
    destruct Hindex as (p & Hid & Hp).
    destruct (points_from_In _ _ _ _ Hp) as (k & location & Hk & Hpid & Hpay).
    exists k, location. split; [exact Hk|]. split.
    + cbn [Qdrant.mapHit id]. rewrite <- Hid, Hpid. reflexivity.
    + exists p. split; [exact Hp|]. split; [exact Hpid|]. now rewrite Hpay.
  - intros anyId l.
    unfold getLocationById, Sys.try_catch, Sys.bind, Sys.call, Sys.console_error,
      Sys.call, Sys.ret.
    assert (Hno : forall p, In p points -> ~ In (point_id p) [StrId anyId]).
    { intros p Hp [H|[]].
      destruct (points_from_In _ _ _ _ Hp) as (k & location & _ & Hpid & _).
      rewrite Hpid in H. discriminate H. }
    destruct (retrieve sv COLLECTION_NAME [StrId anyId]) as [e|[|first rest]].
    + exists None, [Old (EvConsoleError "Failed to get location:")].
      split; [rewrite <- app_assoc; reflexivity|exact Hno].
    + exists None, []. split; [reflexivity|exact Hno].
    + exists (Some (retrieved_payload first)), [].
      split; [reflexivity|exact Hno].
Qed.

Lemma search_results_carry_position_numbers_witness :
  exists resp t',
    @Qdrant.searchLocations Sample.firstOrderMath Sample.host
      (Sample.mkRequest "beach" None (Some 1%Z) None) [] = (inr resp, t')
    /\ forall r, In r (results resp) ->
         exists k location,
           nth_error [Sample.jumeirah; Sample.ustad; Sample.lounge; Sample.kiosk;
                      Sample.equator] k = Some location
           /\ id r = Z_toString (Z.of_nat k + 1).
Proof.
  destruct (@Qdrant.searchLocations Sample.firstOrderMath Sample.host
              (Sample.mkRequest "beach" None (Some 1%Z) None) [])
    as [[e|resp] t'] eqn:Hs; [vm_compute in Hs; discriminate Hs|].
  exists resp, t'. split; [reflexivity|].
  intros r Hr.
  destruct (proj1 (@search_results_carry_position_numbers Sample.firstOrderMath
                     SampleServices.services
                     [Sample.jumeirah; Sample.ustad; Sample.lounge; Sample.kiosk;
                      Sample.equator]
                     [[]; []; []; []; []]
                     (Sample.mkRequest "beach" None (Some 1%Z) None) [] t' resp
                     sample_index_holds_the_catalogue Hs) r Hr)
    as (k & location & Hk & Hid & _).
  exists k, location. split; assumption.
Defined.

Lemma existsb_name (names : list string) :
  existsb (fun name => String.eqb name COLLECTION_NAME) names = true
  <-> In COLLECTION_NAME names.
Proof.
  rewrite existsb_exists. split.
  - intros (name & Hin & Heq). apply String.eqb_eq in Heq. now subst.
  - intros Hin. exists COLLECTION_NAME. split; [exact Hin|apply String.eqb_refl].
Qed.

(** One run of [initializeCollection]. *)
Lemma initializeCollection_run (sv : Services) (l : Log) :
  initializeCollection sv l =
  match getCollections sv with
  | inl e =>
      (inl e, (l ++ [GetCollections;
                     Old (EvConsoleError "Failed to initialize collection:")])%list)
  | inr names =>
      if existsb (fun name => String.eqb name COLLECTION_NAME) names
      then (inr tt, (l ++ [GetCollections])%list)
      else
        match createCollection sv COLLECTION_NAME 768 "Cosine" with
        | inl e =>
            (inl e,
             (l ++ [GetCollections; CreateCollection COLLECTION_NAME 768 "Cosine";
                    Old (EvConsoleError "Failed to initialize collection:")])%list)
        | inr _ =>
            (inr tt,
             (l ++ [GetCollections;
                    CreateCollection COLLECTION_NAME 768 "Cosine"])%list)
        end
  end.
Proof.
  unfold initializeCollection, Sys.try_catch, Sys.bind, Sys.call,
    Sys.console_error, Sys.call, Sys.throw, Sys.ret.
  destruct (getCollections sv) as [e|names];
    [rewrite <- app_assoc; reflexivity|].
  cbv zeta.
  destruct (existsb _ names); [reflexivity|].
  destruct (createCollection sv COLLECTION_NAME 768 "Cosine") as [e|[]];
    rewrite <- ?app_assoc; reflexivity.
Qed.

(** X28.  [initializeCollection] is safe to run again: it lists the
    collections once, and when [dubai_locations] is among them it creates
    nothing and resolves.  Only when the name is absent does it create the
    collection, once, with vectors of size 768 compared by cosine distance,
    and then it resolves or throws as that call does: when the call resolves
    nothing more happens, and when it throws the error is logged in exactly
    one line and thrown on.  A failure to list the collections is logged and
    thrown on unchanged, and nothing is created. *)
Theorem collection_is_created_only_when_absent (sv : Services) (l : Log) :
  (forall names,
     getCollections sv = inr names -> In "dubai_locations" names ->
     initializeCollection sv l = (inr tt, (l ++ [GetCollections])%list))
  /\ (forall names,
        getCollections sv = inr names -> ~ In "dubai_locations" names ->
        exists tail,
          initializeCollection sv l
          = (createCollection sv "dubai_locations" 768 "Cosine",
             (l ++ GetCollections
                 :: CreateCollection "dubai_locations" 768 "Cosine" :: tail)%list)
          /\ (forall error,
                createCollection sv "dubai_locations" 768 "Cosine" = inl error ->
                tail = [Old (EvConsoleError "Failed to initialize collection:")])
          /\ (forall done,
                createCollection sv "dubai_locations" 768 "Cosine" = inr done ->
                tail = []))
  /\ (forall error,
        getCollections sv = inl error ->
        initializeCollection sv l
        = (inl error,
           (l ++ [GetCollections;
                  Old (EvConsoleError "Failed to initialize collection:")])%list)).
Proof.
  rewrite initializeCollection_run. split; [|split].
  - intros names -> Hin. apply existsb_name in Hin.
    change "dubai_locations" with COLLECTION_NAME. now rewrite Hin.
  - intros names -> Hin.
    destruct (existsb _ names) eqn:He; [apply existsb_name in He; contradiction|].
    change "dubai_locations" with COLLECTION_NAME.
    destruct (createCollection sv COLLECTION_NAME 768 "Cosine") as [e|[]].
    + eexists [_]. split; [reflexivity|]. split; [reflexivity|discriminate].
    + exists []. split; [reflexivity|]. split; [discriminate|reflexivity].
  - intros error ->. reflexivity.
Qed.

Lemma collection_is_created_only_when_absent_witness :
  QdrantAdmin.initializeCollection SampleServices.services []
  = (inr tt, [GetCollections; CreateCollection "dubai_locations" 768 "Cosine"]).
Proof.
  destruct (proj1 (proj2 (collection_is_created_only_when_absent
                            SampleServices.services []))
              ["other"] eq_refl) as (tail & H & _ & Hdone).
  - intros [H|[]]. discriminate H.
  - rewrite H, (Hdone tt eq_refl). reflexivity.
Defined.

(** X29.  [getLocationById] never throws.  It asks the collection once,
    for its argument as a string id, and gives back the payload of the first
    point returned, without comparing that point's id with the one asked for;
    it gives [null] when nothing is returned, and also, after logging the
    error, when the call fails, so that a caller cannot tell a missing
    location from an unreachable database. *)
Theorem getLocationById_never_throws (sv : Services) (id : string) (l : Log) :
  exists found tail,
    getLocationById sv id l
    = (inr found, (l ++ Retrieve "dubai_locations" [StrId id] :: tail)%list)
    /\ (forall error,
          retrieve sv "dubai_locations" [StrId id] = inl error ->
          found = None
          /\ tail = [Old (EvConsoleError "Failed to get location:")])
    /\ (retrieve sv "dubai_locations" [StrId id] = inr [] ->
        found = None /\ tail = [])
    /\ (forall first rest,
          retrieve sv "dubai_locations" [StrId id] = inr (first :: rest) ->
          found = Some (retrieved_payload first) /\ tail = []).
Proof.
  unfold getLocationById, Sys.try_catch, Sys.bind, Sys.call, Sys.console_error,
    Sys.call, Sys.ret.
  change COLLECTION_NAME with "dubai_locations".
  destruct (retrieve sv "dubai_locations" [StrId id]) as [e|[|first rest]].
  - exists None, [Old (EvConsoleError "Failed to get location:")].
    split; [rewrite <- app_assoc; reflexivity|].
    repeat split; intros; discriminate.
  - exists None, []. split; [reflexivity|].
    repeat split; intros; discriminate.
  - exists (Some (retrieved_payload first)), []. split; [reflexivity|].
    split; [intros; discriminate|]. split; [intros; discriminate|].
    intros f r H. injection H as <- <-. split; reflexivity.
Qed.

(** One run of the set-up script. *)
Lemma initializeQdrant_run (sv : Services) (l : Log) :
  InitScript.initializeQdrant sv l =
  match initializeCollection sv l with
  | (inl _, l1) => (inr tt, (l1 ++ InitScript.failure_report)%list)
  | (inr _, l1) =>
      match bulkAddLocations sv (getAllLocations (base sv))
              (l1 ++ [Old EvGetAllLocations])%list with
      | (inl _, l2) => (inr tt, (l2 ++ InitScript.failure_report)%list)
      | (inr _, l2) => (inr tt, l2)
      end
  end.
Proof.
  unfold InitScript.initializeQdrant, Sys.try_catch, Sys.bind at 1.
  destruct (initializeCollection sv l) as [[e|[]] l1].
  - unfold Sys.bind, Sys.console_error, Sys.call. rewrite <- !app_assoc.
    reflexivity.
  - unfold Sys.bind at 1, Sys.call at 1.
    destruct (bulkAddLocations sv _ _) as [[e|[]] l2].
    + unfold Sys.bind, Sys.console_error, Sys.call. rewrite <- !app_assoc.
      reflexivity.
    + reflexivity.
Qed.

Lemma exits_app (l l' : Log) : exits (l ++ l')%list = (exits l ++ exits l')%list.
Proof. apply filter_app. Qed.

Lemma exits_embedding_calls (locations : list Location) :
  exits (embedding_calls locations) = [].
Proof.
  unfold embedding_calls. induction locations as [|x locations IH]; [reflexivity|].
  exact IH.
Qed.

(** X30.  The set-up script stops at the first step that fails and says
    so with its exit code.  Run from a fresh process it never throws; when
    the collection cannot be listed or created, no embedding is requested and
    nothing is written, and the last thing it does is [process.exit(1)]; and
    it ends the process with code 1 exactly when the collection step or the
    bulk upload threw, after the five lines of the failure report, and
    otherwise makes no [process.exit] call at all. *)
Theorem setup_script_stops_at_the_first_failure (sv : Services) :
  exists log,
    InitScript.initializeQdrant sv [] = (inr tt, log)
    /\ ((exists error l1, initializeCollection sv [] = (inl error, l1)) ->
        embeds log = [] /\ upserts log = []
        /\ exists before, log = (before ++ InitScript.failure_report)%list)
    /\ (exits log = [ProcessExit 1]
        <-> (exists error l1, initializeCollection sv [] = (inl error, l1))
            \/ (exists l1 error l2,
                  initializeCollection sv [] = (inr tt, l1)
                  /\ bulkAddLocations sv (getAllLocations (base sv))
                       (l1 ++ [Old EvGetAllLocations])%list = (inl error, l2)))
    /\ (exits log = []
        <-> exists l1 l2,
              initializeCollection sv [] = (inr tt, l1)
              /\ bulkAddLocations sv (getAllLocations (base sv))
                   (l1 ++ [Old EvGetAllLocations])%list = (inr tt, l2)).
Proof.
  rewrite initializeQdrant_run.
  assert (Hc := initializeCollection_run sv []).
  destruct (initializeCollection sv []) as [[e|[]] l1] eqn:Hi.
  - assert (Hl1 : embeds l1 = [] /\ upserts l1 = [] /\ exits l1 = []).
    { destruct (getCollections sv) as [e'|names].
      - injection Hc as _ ->. repeat split.
      - destruct (existsb _ names); [discriminate|].
        destruct (createCollection sv COLLECTION_NAME 768 "Cosine") as [e'|[]];
          [|discriminate].
        injection Hc as _ ->. repeat split. }
    destruct Hl1 as (He & Hu & Hx).
    eexists. split; [reflexivity|]. split; [|split].
    + intros _. unfold embeds, upserts in *. rewrite !filter_app, He, Hu.
      repeat split. now exists l1.
    + rewrite exits_app, Hx. split.
      * intros _. left. eauto.
      * intros _. reflexivity.
    + rewrite exits_app, Hx. split; [discriminate|].
      intros (l1' & l2 & H & _). discriminate H.
  - assert (Hx : exits l1 = []).
    { destruct (getCollections sv) as [e'|names]; [discriminate|].
      destruct (existsb _ names).
      - injection Hc as ->. reflexivity.
      - destruct (createCollection sv COLLECTION_NAME 768 "Cosine") as [e'|[]];
          [discriminate|].
        injection Hc as ->. reflexivity. }
    assert (Hb := bulkAddLocations_run sv (getAllLocations (base sv))
                    (l1 ++ [Old EvGetAllLocations])%list).
    cbv zeta in Hb.
    assert (Hx2 : forall r l2,
               bulkAddLocations sv (getAllLocations (base sv))
                 (l1 ++ [Old EvGetAllLocations])%list = (r, l2) ->
               exits l2 = []).
    { intros r l2 H. rewrite H in Hb.
      destruct (all_resolved _) as [embeddings|].
      - destruct (upsert sv COLLECTION_NAME _) as [e'|[]];
          injection Hb as _ ->;
          rewrite !exits_app, Hx, exits_embedding_calls; reflexivity.
      - injection Hb as _ ->.
        rewrite !exits_app, Hx, exits_embedding_calls,
          exits_embedding_error_lines. reflexivity. }
    destruct (bulkAddLocations sv (getAllLocations (base sv))
                (l1 ++ [Old EvGetAllLocations])%list) as [[e|[]] l2] eqn:Hbulk.
    + specialize (Hx2 _ _ eq_refl).
      eexists. split; [reflexivity|]. split; [|split].
      * intros (e' & l1' & H). discriminate H.
      * rewrite exits_app, Hx2. split.
        -- intros _. right. exists l1, e, l2. split; [reflexivity|exact Hbulk].
        -- intros _. reflexivity.
      * rewrite exits_app, Hx2. split; [discriminate|].
        intros (l1' & l2' & H1 & H2). injection H1 as <-.
        rewrite Hbulk in H2. discriminate H2.
    + specialize (Hx2 _ _ eq_refl).
      eexists. split; [reflexivity|]. split; [|split].
      * intros (e' & l1' & H). discriminate H.
      * rewrite Hx2. split; [discriminate|].
        intros [(e' & l1' & H) | (l1' & e' & l2' & H1 & H2)]; [discriminate H|].
        injection H1 as <-. rewrite Hbulk in H2. discriminate H2.
      * rewrite Hx2. split; [|reflexivity].
        intros _. exists l1, l2. split; [reflexivity|exact Hbulk].
Qed.

End Collection.
